(** * Explicit descriptor heaps of the D3D12 RHI

    A shallow embedding of [D3D12RHI/Private/D3D12ExplicitDescriptorCache.cpp]:
    the device-wide cache of descriptor-heap objects
    ([FD3D12ExplicitDescriptorHeapCache]), the linear descriptor heap
    ([FD3D12ExplicitDescriptorHeap]) and the deduplicating descriptor-table
    cache ([FD3D12ExplicitDescriptorCache]).

    Conventions.
    - Fixed-width integers are [Z] with the wrap-around written out
      ([u32], [s32], [u64]).
    - Member functions take the object they mutate as an explicit argument
      and return its new value.  Process-wide variables (console variables,
      the overflow flag, the function-local static) live in [World], next to
      the chronological [Trace] of calls that leave this file (log lines,
      stat macros, driver calls, deferred deletions).
    - Answers of the surrounding engine and of the driver (clock, frame
      fence, heap creation, handle arithmetic, bindless queries) are read
      from a [Host] record.
    - Code that stops the process ([UE_LOG(.., Fatal, ..)], [check],
      [TArray] range checks, [VERIFYD3D12RESULT]) yields [Halted].
      [checkSlow] is compiled out unless DO_GUARD_SLOW is set and is kept
      as a comment only.
    - [double] values are IEEE 754 binary64 numbers with the operations of
      the standard library's [SpecFloat]: sums are rounded to nearest, ties
      to even, and comparisons involving a NaN are false.
    - The members of the classes are declared in D3D12ExplicitDescriptorCache.h,
      which is not part of the sources at hand; field types follow the way
      the .cpp file uses them. *)

From Stdlib Require Import ZArith QArith Lia.
From Stdlib Require SpecFloat.
From stdpp Require Import base decidable option numbers list gmap.

Local Open Scope Z_scope.

(** ** Machine integers *)

Definition u32 (z : Z) : Z := z mod 2 ^ 32.
Definition s32 (z : Z) : Z := (z + 2 ^ 31) mod 2 ^ 32 - 2 ^ 31.
Definition u64 (z : Z) : Z := z mod 2 ^ 64.

(** ** Doubles *)

(** C++ [double]: binary64, that is 53 bits of precision and exponents
    below 1024. *)
Definition double : Type := SpecFloat.spec_float.

(** [a + b] on doubles. *)
Definition double_add : double → double → double := SpecFloat.SFadd 53 1024.

(** [a <= b] on doubles. *)
Definition double_le : double → double → bool := SpecFloat.SFleb.

(** The double nearest to a whole number, as a literal such as [5.0f]
    denotes it; whole numbers below [2^53] are doubles themselves. *)
Definition DoubleOfZ (z : Z) : double :=
  SpecFloat.binary_normalize 53 1024 z 0 false.

Definition INDEX_NONE : Z := -1.
Definition nullptr : Z := 0.

(** ** Halting and the error monad *)

Inductive Halt :=
| FatalLog               (* UE_LOG(..., Fatal, ...) *)
| CheckFailed            (* check / checkf *)
| RangeCheckFailed       (* TArray::operator[] out of range *)
| VerifyD3D12ResultFailed (* VERIFYD3D12RESULT on a failed HRESULT *)
| AccessViolation.       (* read past a caller-supplied buffer *)

Inductive Outcome (A : Type) :=
| Done (a : A)
| Halted (why : Halt).
Arguments Done {A} a.
Arguments Halted {A} why.

Definition bindO {A B} (m : Outcome A) (k : A → Outcome B) : Outcome B :=
  match m with
  | Done a => k a
  | Halted why => Halted why
  end.

Notation "x ←! m ; k" := (bindO m (λ x, k))
  (at level 20, m at level 100, k at level 200, right associativity,
   format "x  ←!  m ;  '/' k").
Notation "' p ←! m ; k" := (bindO m (λ x, match x with p => k end))
  (at level 20, p pattern, m at level 100, k at level 200,
   right associativity).

Definition check (b : bool) : Outcome unit :=
  if b then Done tt else Halted CheckFailed.

(** [TArray::operator[]] with its range check. *)
Definition TArray_at {A} (a : list A) (Index : Z) : Outcome A :=
  if decide (0 ≤ Index) then
    match a !! Z.to_nat Index with
    | Some x => Done x
    | None => Halted RangeCheckFailed
    end
  else Halted RangeCheckFailed.

(** [TArray::RemoveAtSwap(Index, EAllowShrinking::No)] for one element: the
    last element is moved into the hole and the array shrinks by one. *)
Definition RemoveAtSwap {A} (a : list A) (Index : nat) : list A :=
  match last a with
  | Some x =>
      if decide (Index < pred (length a))%nat
      then <[Index := x]> (removelast a)
      else removelast a
  | None => a
  end.

(** ** Direct3D 12 types and constants (d3d12.h) *)

Inductive D3D12_DESCRIPTOR_HEAP_TYPE :=
| D3D12_DESCRIPTOR_HEAP_TYPE_CBV_SRV_UAV
| D3D12_DESCRIPTOR_HEAP_TYPE_SAMPLER
| D3D12_DESCRIPTOR_HEAP_TYPE_RTV
| D3D12_DESCRIPTOR_HEAP_TYPE_DSV
| D3D12_DESCRIPTOR_HEAP_TYPE_NUM_TYPES.

Global Instance D3D12_DESCRIPTOR_HEAP_TYPE_eq_dec :
  EqDecision D3D12_DESCRIPTOR_HEAP_TYPE.
Proof. solve_decision. Defined.

Definition D3D12_MAX_SHADER_VISIBLE_SAMPLER_HEAP_SIZE : Z := 2048.
Definition D3D12_MAX_SHADER_VISIBLE_DESCRIPTOR_HEAP_SIZE_TIER_1 : Z := 1000000.

Inductive D3D12_DESCRIPTOR_HEAP_FLAGS :=
| D3D12_DESCRIPTOR_HEAP_FLAG_NONE
| D3D12_DESCRIPTOR_HEAP_FLAG_SHADER_VISIBLE.

Record D3D12_DESCRIPTOR_HEAP_DESC := {
  Desc_Type : D3D12_DESCRIPTOR_HEAP_TYPE;
  Desc_NumDescriptors : Z;
  Desc_Flags : D3D12_DESCRIPTOR_HEAP_FLAGS;
  Desc_NodeMask : Z;
}.

(** ** The heap-cache entry *)

Record FEntry := {
  Heap : Z;                 (* ID3D12DescriptorHeap*, 0 is nullptr *)
  LastUsedFrame : Z;        (* uint64 *)
  LastUsedTime : double;    (* seconds *)
  NumDescriptors : Z;       (* uint32 *)
  Type_ : D3D12_DESCRIPTOR_HEAP_TYPE;
}.

Definition FEntry_default : FEntry :=
  {| Heap := nullptr; LastUsedFrame := 0; LastUsedTime := DoubleOfZ 0;
     NumDescriptors := 0; Type_ := D3D12_DESCRIPTOR_HEAP_TYPE_NUM_TYPES |}.

(** ** Effects that leave the file *)

Inductive Stat :=
| STAT_ExplicitViewDescriptorHeaps
| STAT_ExplicitViewDescriptors
| STAT_ExplicitSamplerDescriptorHeaps
| STAT_ExplicitSamplerDescriptors
| STAT_ExplicitUsedViewDescriptors
| STAT_ExplicitUsedSamplerDescriptors
| STAT_ExplicitMaxUsedSamplerDescriptors.

Inductive Event :=
| INC_DWORD_STAT (s : Stat)
| INC_DWORD_STAT_BY (s : Stat) (Amount : Z)
| DEC_DWORD_STAT (s : Stat)
| DEC_DWORD_STAT_BY (s : Stat) (Amount : Z)
| SET_DWORD_STAT (s : Stat) (Value : Z)
| LogCreatingHeap (HeapType : D3D12_DESCRIPTOR_HEAP_TYPE) (NumDescriptors : Z)
| ErrorViewHeapOverflow (SuggestedSize : Z)
| CreateDescriptorHeapCall (Desc : D3D12_DESCRIPTOR_HEAP_DESC)
| SetNameCall (Heap : Z) (HeapType : D3D12_DESCRIPTOR_HEAP_TYPE)
| HeapRelease (Heap : Z)                  (* ID3D12DescriptorHeap::Release *)
| DeferredDeleteHeap (Heap : Z)           (* DeferredDelete(It.Heap) *)
| DeferredDeleteReleaseHeap (Entry : FEntry) (* DeferredDelete(lambda) *)
| DeviceCopyDescriptors (Dest : Z) (Src : list Z)
    (HeapType : D3D12_DESCRIPTOR_HEAP_TYPE).

(** Process-wide variables of the file and the trace of effects. *)
Record World := {
  GD3D12ExplicitDeduplicateSamplers : Z;                  (* int32, default 1 *)
  GD3D12ExplicitViewDescriptorHeapSize : Z;               (* int32, default 250'000 *)
  GD3D12ExplicitViewDescriptorHeapOverflowReported : Z;   (* int32, default 0 *)
  GMaxNumUsedSamplerDescriptors : Z;                      (* static uint64 *)
  Trace : list Event;
}.

Definition World_initial : World :=
  {| GD3D12ExplicitDeduplicateSamplers := 1;
     GD3D12ExplicitViewDescriptorHeapSize := 250000;
     GD3D12ExplicitViewDescriptorHeapOverflowReported := 0;
     GMaxNumUsedSamplerDescriptors := 0;
     Trace := [] |}.

Definition emit (e : Event) (w : World) : World :=
  {| GD3D12ExplicitDeduplicateSamplers := GD3D12ExplicitDeduplicateSamplers w;
     GD3D12ExplicitViewDescriptorHeapSize := GD3D12ExplicitViewDescriptorHeapSize w;
     GD3D12ExplicitViewDescriptorHeapOverflowReported :=
       GD3D12ExplicitViewDescriptorHeapOverflowReported w;
     GMaxNumUsedSamplerDescriptors := GMaxNumUsedSamplerDescriptors w;
     Trace := Trace w ++ [e] |}.

Definition set_OverflowReported (v : Z) (w : World) : World :=
  {| GD3D12ExplicitDeduplicateSamplers := GD3D12ExplicitDeduplicateSamplers w;
     GD3D12ExplicitViewDescriptorHeapSize := GD3D12ExplicitViewDescriptorHeapSize w;
     GD3D12ExplicitViewDescriptorHeapOverflowReported := v;
     GMaxNumUsedSamplerDescriptors := GMaxNumUsedSamplerDescriptors w;
     Trace := Trace w |}.

Definition set_GMaxNumUsedSamplerDescriptors (v : Z) (w : World) : World :=
  {| GD3D12ExplicitDeduplicateSamplers := GD3D12ExplicitDeduplicateSamplers w;
     GD3D12ExplicitViewDescriptorHeapSize := GD3D12ExplicitViewDescriptorHeapSize w;
     GD3D12ExplicitViewDescriptorHeapOverflowReported :=
       GD3D12ExplicitViewDescriptorHeapOverflowReported w;
     GMaxNumUsedSamplerDescriptors := v;
     Trace := Trace w |}.

(** Compile-time switch of the file: [#ifndef ... #define ... 0]. *)
Definition EXPLICIT_DESCRIPTOR_CACHE_FULL_COMPARE : bool := false.

(** ** Engine and driver functions used by the file *)

(** Modelled from the spec: [FMath::RoundUpToPowerOfTwo] is engine code that
    is not under src/; the spec has the request "round[ed] up to the next
    power of two".  For arguments above [2^31] the next power of two does not
    fit 32 bits and the result is left unwrapped here. *)
Definition RoundUpToPowerOfTwo (Arg : Z) : Z := 2 ^ Z.log2_up Arg.

(** [FMath::Clamp(X, MinValue, MaxValue)] is [Max(Min(X, MaxValue), MinValue)]. *)
Definition Clamp (X MinValue MaxValue : Z) : Z := Z.max (Z.min X MaxValue) MinValue.

(** Modelled from the spec: [FPlatformAtomics::InterlockedAdd] and
    [InterlockedOr] are engine code that is not under src/.  Each updates the
    32-bit variable and returns the value it held before (the source treats
    the returned value as the base index of the new range).  The pair is
    (returned value, new value of the variable). *)
Definition InterlockedAdd (Value Amount : Z) : Z * Z :=
  (Value, s32 (Value + s32 Amount)).
Definition InterlockedOr (Value Bits : Z) : Z * Z :=
  (Value, Z.lor Value Bits).

(** What the engine and the driver answer during one call. *)
Record Host := {
  GetNextFenceToSignal : Z;      (* frame fence, uint64 *)
  Seconds : double;              (* FPlatformTime::Seconds() *)
  CreateDescriptorHeap : D3D12_DESCRIPTOR_HEAP_DESC → option Z;
                                 (* None: failed HRESULT *)
  GPUMaskNative : Z;
  GetCPUDescriptorHandleForHeapStart : Z → Z;
  GetGPUDescriptorHandleForHeapStart : Z → Z;
  GetDescriptorHandleIncrementSize : D3D12_DESCRIPTOR_HEAP_TYPE → Z;
  PLATFORM_SUPPORTS_BINDLESS_RENDERING : bool;
  AreResourcesBindless : Z → bool;   (* argument: ERHIBindlessConfiguration *)
  AreSamplersBindless : Z → bool;
  Uninitialized : nat → Z;           (* contents of memory that was not set *)
}.

(** ** FD3D12ExplicitDescriptorHeapCache *)

Module FD3D12ExplicitDescriptorHeapCache.

Record t := {
  FreeList : list FEntry;
  NumAllocatedEntries : Z;   (* uint32 *)
}.

(** The stat macros shared by the destructor and [ReleaseStaleEntries]. *)
Definition DecStats (It : FEntry) (w : World) : World :=
  if decide (Type_ It = D3D12_DESCRIPTOR_HEAP_TYPE_CBV_SRV_UAV) then
    emit (DEC_DWORD_STAT_BY STAT_ExplicitViewDescriptors (NumDescriptors It))
      (emit (DEC_DWORD_STAT STAT_ExplicitViewDescriptorHeaps) w)
  else
    emit (DEC_DWORD_STAT_BY STAT_ExplicitSamplerDescriptors (NumDescriptors It))
      (emit (DEC_DWORD_STAT STAT_ExplicitSamplerDescriptorHeaps) w).

(** [~FD3D12ExplicitDescriptorHeapCache] *)
Definition Destructor (c : t) (w : World) : Outcome (t * World) :=
  _ ←! check (bool_decide (NumAllocatedEntries c = 0));
  let w := foldl (λ w It, emit (HeapRelease (Heap It)) (DecStats It w))
             w (FreeList c) in
  Done ({| FreeList := []; NumAllocatedEntries := NumAllocatedEntries c |}, w).

Definition DeferredReleaseHeap (Entry : FEntry) (w : World) : World :=
  emit (DeferredDeleteReleaseHeap Entry) w.

Definition ReleaseHeap (host : Host) (Entry : FEntry) (c : t) (w : World)
  : Outcome (t * World) :=
  _ ←! check (bool_decide (NumAllocatedEntries c ≠ 0));
  let Entry :=
    {| Heap := Heap Entry;
       LastUsedFrame := GetNextFenceToSignal host;
       LastUsedTime := Seconds host;
       NumDescriptors := NumDescriptors Entry;
       Type_ := Type_ Entry |} in
  Done ({| FreeList := FreeList c ++ [Entry];
           NumAllocatedEntries := u32 (NumAllocatedEntries c - 1) |}, w).

(** The condition of the [if] in [ReleaseStaleEntries].  The frame ages
    are [uint64]; the times are doubles, and [MaxAgeInSeconds], a [float]
    parameter, is widened to [double] for the sum, which changes no value:
    it is passed here as the double it widens to. *)
Definition IsStale (CurrentFrame : Z) (CurrentTime : double)
    (MaxAgeInFrames : Z) (MaxAgeInSeconds : double) (It : FEntry) : bool :=
  bool_decide (u64 (LastUsedFrame It + MaxAgeInFrames) ≤ CurrentFrame)
  || double_le (double_add (LastUsedTime It) MaxAgeInSeconds) CurrentTime.

(** The [while] loop of [ReleaseStaleEntries].  Every iteration either
    removes an entry or advances [EntryIndex], so [Num() - EntryIndex]
    iterations are the most it can take; [n] counts them down. *)
Fixpoint ReleaseStaleEntries_loop (n : nat) (CurrentFrame : Z)
    (CurrentTime : double) (MaxAgeInFrames : Z) (MaxAgeInSeconds : double)
    (EntryIndex : nat) (FreeList : list FEntry) (w : World)
  : list FEntry * World :=
  match n with
  | O => (FreeList, w)
  | S n =>
      match FreeList !! EntryIndex with
      | None => (FreeList, w)
      | Some It =>
          if IsStale CurrentFrame CurrentTime MaxAgeInFrames MaxAgeInSeconds It
          then
            ReleaseStaleEntries_loop n CurrentFrame CurrentTime
              MaxAgeInFrames MaxAgeInSeconds EntryIndex
              (RemoveAtSwap FreeList EntryIndex)
              (emit (DeferredDeleteHeap (Heap It)) (DecStats It w))
          else
            ReleaseStaleEntries_loop n CurrentFrame CurrentTime
              MaxAgeInFrames MaxAgeInSeconds (S EntryIndex) FreeList w
      end
  end.

Definition ReleaseStaleEntries (host : Host)
    (MaxAgeInFrames : Z) (MaxAgeInSeconds : double) (c : t) (w : World)
  : t * World :=
  let CurrentFrame := GetNextFenceToSignal host in
  let CurrentTime := Seconds host in
  let '(l, w) :=
    ReleaseStaleEntries_loop (length (FreeList c)) CurrentFrame CurrentTime
      MaxAgeInFrames MaxAgeInSeconds 0 (FreeList c) w in
  ({| FreeList := l; NumAllocatedEntries := NumAllocatedEntries c |}, w).

Definition MaxDescriptors (HeapType : D3D12_DESCRIPTOR_HEAP_TYPE) : Z :=
  if decide (HeapType = D3D12_DESCRIPTOR_HEAP_TYPE_SAMPLER)
  then D3D12_MAX_SHADER_VISIBLE_SAMPLER_HEAP_SIZE
  else D3D12_MAX_SHADER_VISIBLE_DESCRIPTOR_HEAP_SIZE_TIER_1.

(** The request after "Align request to enable greater reuse in the cache". *)
Definition AlignedNumDescriptors
    (HeapType : D3D12_DESCRIPTOR_HEAP_TYPE) (NumDescriptors : Z) : Z :=
  u32 (Clamp (RoundUpToPowerOfTwo NumDescriptors) 0 (MaxDescriptors HeapType)).

(** The test of the [for] loop of [AllocateHeap]. *)
Definition Compatible (HeapType : D3D12_DESCRIPTOR_HEAP_TYPE)
    (NumDescriptors_ : Z) (It : FEntry) : Prop :=
  Type_ It = HeapType ∧ NumDescriptors_ ≤ NumDescriptors It.

Global Instance Compatible_dec HeapType n It : Decision (Compatible HeapType n It).
Proof. unfold Compatible. apply _. Defined.

(** The [for] loop of [AllocateHeap]: the first compatible index. *)
Fixpoint FindCompatible (HeapType : D3D12_DESCRIPTOR_HEAP_TYPE)
    (NumDescriptors_ : Z) (EntryIndex : nat) (l : list FEntry)
  : option (nat * FEntry) :=
  match l with
  | [] => None
  | It :: l =>
      if decide (Compatible HeapType NumDescriptors_ It)
      then Some (EntryIndex, It)
      else FindCompatible HeapType NumDescriptors_ (S EntryIndex) l
  end.

Definition AllocateHeap (host : Host) (HeapType : D3D12_DESCRIPTOR_HEAP_TYPE)
    (NumDescriptors_ : Z) (c : t) (w : World) : Outcome (FEntry * t * World) :=
  let NumDescriptors_ := AlignedNumDescriptors HeapType NumDescriptors_ in
  let c := {| FreeList := FreeList c;
              NumAllocatedEntries := u32 (NumAllocatedEntries c + 1) |} in
  match FindCompatible HeapType NumDescriptors_ 0 (FreeList c) with
  | Some (EntryIndex, It) =>
      Done (It,
            {| FreeList := RemoveAtSwap (FreeList c) EntryIndex;
               NumAllocatedEntries := NumAllocatedEntries c |},
            w)
  | None =>
      (* Compatible heap was not found in cache, so create a new one. *)
      let '(c, w) := ReleaseStaleEntries host 100 (DoubleOfZ 5) c w in
      let Desc :=
        {| Desc_Type := HeapType;
           Desc_NumDescriptors := NumDescriptors_;
           Desc_Flags := D3D12_DESCRIPTOR_HEAP_FLAG_SHADER_VISIBLE;
           Desc_NodeMask := GPUMaskNative host |} in
      let w := emit (LogCreatingHeap HeapType NumDescriptors_) w in
      let w := emit (CreateDescriptorHeapCall Desc) w in
      match CreateDescriptorHeap host Desc with
      | None => Halted VerifyD3D12ResultFailed
      | Some D3D12Heap =>
          let w := emit (SetNameCall D3D12Heap HeapType) w in
          let Result :=
            {| Heap := D3D12Heap;
               LastUsedFrame := LastUsedFrame FEntry_default;
               LastUsedTime := LastUsedTime FEntry_default;
               NumDescriptors := NumDescriptors_;
               Type_ := HeapType |} in
          let w :=
            if decide (HeapType = D3D12_DESCRIPTOR_HEAP_TYPE_CBV_SRV_UAV) then
              emit (INC_DWORD_STAT_BY STAT_ExplicitViewDescriptors NumDescriptors_)
                (emit (INC_DWORD_STAT STAT_ExplicitViewDescriptorHeaps) w)
            else
              emit (INC_DWORD_STAT_BY STAT_ExplicitSamplerDescriptors NumDescriptors_)
                (emit (INC_DWORD_STAT STAT_ExplicitSamplerDescriptorHeaps) w) in
          Done (Result, c, w)
      end
  end.

Definition FlushFreeList (c : t) (w : World) : t * World :=
  ({| FreeList := []; NumAllocatedEntries := NumAllocatedEntries c |},
   foldl (λ w It, emit (DeferredDeleteHeap (Heap It)) w) w (FreeList c)).

End FD3D12ExplicitDescriptorHeapCache.

(** ** FD3D12ExplicitDescriptorHeap *)

(** An element of a buffer the caller passed by pointer. *)
Definition read_at (buf : list Z) (i : Z) : Outcome Z :=
  match buf !! Z.to_nat i with
  | Some x => Done x
  | None => Halted AccessViolation
  end.

(** The first [n] elements of a buffer the caller passed by pointer. *)
Definition read_buffer (buf : list Z) (n : Z) : Outcome (list Z) :=
  if decide (Z.to_nat n ≤ length buf)%nat
  then Done (take (Z.to_nat n) buf)
  else Halted AccessViolation.

(** [TArray::SetNumZeroed]: elements that are kept stay, new ones are zero. *)
Definition SetNumZeroed (NewNum : Z) (a : list Z) : list Z :=
  take (Z.to_nat NewNum) a ++ replicate (Z.to_nat NewNum - length a) 0.

(** [TArray::SetNumUninitialized]: new elements hold whatever the memory
    held; [garbage] supplies it. *)
Definition SetNumUninitialized (garbage : nat → Z) (NewNum : Z) (a : list Z)
  : list Z :=
  take (Z.to_nat NewNum) a
  ++ (garbage <$> seq (length a) (Z.to_nat NewNum - length a)).

Module FD3D12ExplicitDescriptorHeap.

Record t := {
  HeapType : D3D12_DESCRIPTOR_HEAP_TYPE;
  D3D12Heap : Z;                       (* ID3D12DescriptorHeap* *)
  MaxNumDescriptors : Z;               (* uint32 *)
  NumAllocatedDescriptors : Z;         (* int32, the allocation cursor *)
  NumWrittenSamplerDescriptors : Z;    (* int32 *)
  DescriptorSize : Z;                  (* uint32 *)
  CPUBase : Z;
  GPUBase : Z;
  HeapCacheEntry : FEntry;
  Descriptors : list Z;                (* shadow copy of the handles *)
  bExhaustiveSamplerDeduplication : bool;
}.

(** The state the constructor leaves. *)
Definition Constructor : t :=
  {| HeapType := D3D12_DESCRIPTOR_HEAP_TYPE_NUM_TYPES;
     D3D12Heap := nullptr;
     MaxNumDescriptors := 0;
     NumAllocatedDescriptors := 0;
     NumWrittenSamplerDescriptors := 0;
     DescriptorSize := 0;
     CPUBase := 0;
     GPUBase := 0;
     HeapCacheEntry := FEntry_default;
     Descriptors := [];
     bExhaustiveSamplerDeduplication := false |}.

Definition set_NumAllocatedDescriptors (v : Z) (h : t) : t :=
  {| HeapType := HeapType h; D3D12Heap := D3D12Heap h;
     MaxNumDescriptors := MaxNumDescriptors h;
     NumAllocatedDescriptors := v;
     NumWrittenSamplerDescriptors := NumWrittenSamplerDescriptors h;
     DescriptorSize := DescriptorSize h; CPUBase := CPUBase h;
     GPUBase := GPUBase h; HeapCacheEntry := HeapCacheEntry h;
     Descriptors := Descriptors h;
     bExhaustiveSamplerDeduplication := bExhaustiveSamplerDeduplication h |}.

Definition set_NumWrittenSamplerDescriptors (v : Z) (h : t) : t :=
  {| HeapType := HeapType h; D3D12Heap := D3D12Heap h;
     MaxNumDescriptors := MaxNumDescriptors h;
     NumAllocatedDescriptors := NumAllocatedDescriptors h;
     NumWrittenSamplerDescriptors := v;
     DescriptorSize := DescriptorSize h; CPUBase := CPUBase h;
     GPUBase := GPUBase h; HeapCacheEntry := HeapCacheEntry h;
     Descriptors := Descriptors h;
     bExhaustiveSamplerDeduplication := bExhaustiveSamplerDeduplication h |}.

Definition set_Descriptors (v : list Z) (h : t) : t :=
  {| HeapType := HeapType h; D3D12Heap := D3D12Heap h;
     MaxNumDescriptors := MaxNumDescriptors h;
     NumAllocatedDescriptors := NumAllocatedDescriptors h;
     NumWrittenSamplerDescriptors := NumWrittenSamplerDescriptors h;
     DescriptorSize := DescriptorSize h; CPUBase := CPUBase h;
     GPUBase := GPUBase h; HeapCacheEntry := HeapCacheEntry h;
     Descriptors := v;
     bExhaustiveSamplerDeduplication := bExhaustiveSamplerDeduplication h |}.

(** [~FD3D12ExplicitDescriptorHeap] *)
Definition Destructor (h : t) (w : World) : World :=
  if decide (D3D12Heap h ≠ nullptr)
  then FD3D12ExplicitDescriptorHeapCache.DeferredReleaseHeap (HeapCacheEntry h) w
  else w.

Definition Init (host : Host) (InMaxNumDescriptors : Z)
    (InType : D3D12_DESCRIPTOR_HEAP_TYPE) (h : t)
    (cache : FD3D12ExplicitDescriptorHeapCache.t) (w : World)
  : Outcome (t * FD3D12ExplicitDescriptorHeapCache.t * World) :=
  _ ←! check (bool_decide (D3D12Heap h = nullptr));
  '(Entry, cache, w) ←!
    FD3D12ExplicitDescriptorHeapCache.AllocateHeap host InType
      InMaxNumDescriptors cache w;
  let Max := NumDescriptors Entry in
  let CPU := GetCPUDescriptorHandleForHeapStart host (Heap Entry) in
  let GPU := GetGPUDescriptorHandleForHeapStart host (Heap Entry) in
  _ ←! check (bool_decide (CPU ≠ 0));
  let bExhaustive := bool_decide (GD3D12ExplicitDeduplicateSamplers w = 1) in
  let Shadow :=
    if bExhaustive && bool_decide (InType = D3D12_DESCRIPTOR_HEAP_TYPE_SAMPLER)
    then SetNumZeroed Max (Descriptors h)
    else if EXPLICIT_DESCRIPTOR_CACHE_FULL_COMPARE
         then SetNumUninitialized (Uninitialized host) Max (Descriptors h)
         else Descriptors h in
  Done ({| HeapType := InType;
           D3D12Heap := Heap Entry;
           MaxNumDescriptors := Max;
           NumAllocatedDescriptors := NumAllocatedDescriptors h;
           NumWrittenSamplerDescriptors := NumWrittenSamplerDescriptors h;
           DescriptorSize := GetDescriptorHandleIncrementSize host InType;
           CPUBase := CPU;
           GPUBase := GPU;
           HeapCacheEntry := Entry;
           Descriptors := Shadow;
           bExhaustiveSamplerDeduplication := bExhaustive |},
        cache, w).

(** Returns descriptor heap base index or -1 if allocation is not possible. *)
Definition Allocate (InNumDescriptors : Z) (h : t) (w : World)
  : Outcome (Z * t * World) :=
  let '(Result, Cursor) :=
    InterlockedAdd (NumAllocatedDescriptors h) InNumDescriptors in
  let h := set_NumAllocatedDescriptors Cursor h in
  if decide (MaxNumDescriptors h < u32 (Result + InNumDescriptors)) then
    if decide (HeapType h = D3D12_DESCRIPTOR_HEAP_TYPE_SAMPLER) then
      Halted FatalLog
    else if decide (u32 (GD3D12ExplicitViewDescriptorHeapSize w)
                    ≤ MaxNumDescriptors h) then
      let '(Old, New) :=
        InterlockedOr (GD3D12ExplicitViewDescriptorHeapOverflowReported w) 1 in
      let w := set_OverflowReported New w in
      if decide (Old = 0) then
        Done (-1, h,
              emit (ErrorViewHeapOverflow (u32 (MaxNumDescriptors h * 2))) w)
      else Done (-1, h, w)
    else Done (-1, h, w)
  else Done (Result, h, w).

Definition GetDescriptorCPU (h : t) (Index : Z) : Z :=
  (* checkSlow(Index < MaxNumDescriptors) *)
  u64 (CPUBase h + u32 (Index * DescriptorSize h)).

Definition GetDescriptorGPU (h : t) (Index : Z) : Z :=
  (* checkSlow(Index < MaxNumDescriptors) *)
  u64 (GPUBase h + u32 (Index * DescriptorSize h)).

(** The loop under [#if EXPLICIT_DESCRIPTOR_CACHE_FULL_COMPARE] in
    [CopyDescriptors]; [n] iterations remain, [i] is the loop variable. *)
Fixpoint MirrorDescriptors_loop (n : nat) (i : Z) (BaseIndex : Z)
    (InDescriptors : list Z) (Shadow : list Z) : Outcome (list Z) :=
  match n with
  | O => Done Shadow
  | S n =>
      x ←! read_at InDescriptors i;
      _ ←! TArray_at Shadow (s32 (BaseIndex + i));
      MirrorDescriptors_loop n (i + 1) BaseIndex InDescriptors
        (<[Z.to_nat (s32 (BaseIndex + i)) := x]> Shadow)
  end.

Definition CopyDescriptors (BaseIndex : Z) (InDescriptors : list Z)
    (InNumDescriptors : Z) (h : t) (w : World) : Outcome (t * World) :=
  let DestDescriptor := GetDescriptorCPU h (u32 BaseIndex) in
  Src ←! read_buffer InDescriptors InNumDescriptors;
  let w := emit (DeviceCopyDescriptors DestDescriptor Src (HeapType h)) w in
  if EXPLICIT_DESCRIPTOR_CACHE_FULL_COMPARE then
    Shadow ←! MirrorDescriptors_loop (Z.to_nat InNumDescriptors) 0 BaseIndex
                InDescriptors (Descriptors h);
    Done (set_Descriptors Shadow h, w)
  else Done (h, w).

(** The loop of [CompareDescriptors]; [n] iterations remain. *)
Fixpoint CompareDescriptors_loop (n : nat) (i : Z) (BaseIndex : Z)
    (InDescriptors : list Z) (Shadow : list Z) : Outcome bool :=
  match n with
  | O => Done true
  | S n =>
      a ←! TArray_at Shadow (s32 (BaseIndex + i));
      b ←! read_at InDescriptors i;
      if decide (a ≠ b) then Done false
      else CompareDescriptors_loop n (i + 1) BaseIndex InDescriptors Shadow
  end.

Definition CompareDescriptors (BaseIndex : Z) (InDescriptors : list Z)
    (InNumDescriptors : Z) (h : t) : Outcome bool :=
  CompareDescriptors_loop (Z.to_nat InNumDescriptors) 0 BaseIndex
    InDescriptors (Descriptors h).

End FD3D12ExplicitDescriptorHeap.

(** ** FD3D12ExplicitDescriptorCache *)

(** Modelled from the spec: the per-worker reserved range
    ([FDescriptorRange], declared in the header that is not under src/) is
    "a per-worker pre-reserved contiguous range" that is tried first and
    fails "on exhaustion of that reservation". *)
Module FDescriptorRange.

Record t := {
  BaseIndex : Z;
  Num : Z;
  NumAllocated : Z;
}.

Definition Empty : t := {| BaseIndex := INDEX_NONE; Num := 0; NumAllocated := 0 |}.

Definition Allocate (InNumDescriptors : Z) (r : t) : Z * t :=
  if decide (NumAllocated r + InNumDescriptors ≤ Num r) then
    (BaseIndex r + NumAllocated r,
     {| BaseIndex := BaseIndex r; Num := Num r;
        NumAllocated := NumAllocated r + InNumDescriptors |})
  else (INDEX_NONE, r).

End FDescriptorRange.

(** The bytes of a [size]-byte little-endian integer, and of an array of them
    (the memory [FXxHash64::HashBuffer] is given). *)
Fixpoint le_bytes (size : nat) (z : Z) : list Z :=
  match size with
  | O => []
  | S size => z mod 256 :: le_bytes size (z / 256)
  end.

Definition array_bytes (size : nat) (a : list Z) : list Z :=
  a ≫= le_bytes size.

(** [TMap::FindOrAdd(Key, Value)]: the map afterwards and the value the
    returned reference points to. *)
Definition FindOrAdd (Map : gmap Z Z) (Key Value : Z) : gmap Z Z * Z :=
  match Map !! Key with
  | Some v => (Map, v)
  | None => (<[Key := Value]> Map, Value)
  end.

Module FD3D12ExplicitDescriptorCache.

Record FWorkerThreadData := {
  ViewDescriptorTableCache : gmap Z Z;      (* TDescriptorHashMap *)
  SamplerDescriptorTableCache : gmap Z Z;
  ReservedViewDescriptors : FDescriptorRange.t;
}.

Record t := {
  ViewHeap : FD3D12ExplicitDescriptorHeap.t;
  SamplerHeap : FD3D12ExplicitDescriptorHeap.t;
  WorkerData : list FWorkerThreadData;
  BindlessConfiguration : Z;               (* ERHIBindlessConfiguration *)
  bBindlessViews : bool;
  bBindlessSamplers : bool;
}.

Definition IsView (HeapType : D3D12_DESCRIPTOR_HEAP_TYPE) : bool :=
  bool_decide (HeapType = D3D12_DESCRIPTOR_HEAP_TYPE_CBV_SRV_UAV).

(** [(Type == ..CBV_SRV_UAV) ? ViewHeap : SamplerHeap] and its update. *)
Definition HeapOf (HeapType : D3D12_DESCRIPTOR_HEAP_TYPE) (c : t)
  : FD3D12ExplicitDescriptorHeap.t :=
  if IsView HeapType then ViewHeap c else SamplerHeap c.

Definition set_HeapOf (HeapType : D3D12_DESCRIPTOR_HEAP_TYPE)
    (h : FD3D12ExplicitDescriptorHeap.t) (c : t) : t :=
  {| ViewHeap := if IsView HeapType then h else ViewHeap c;
     SamplerHeap := if IsView HeapType then SamplerHeap c else h;
     WorkerData := WorkerData c;
     BindlessConfiguration := BindlessConfiguration c;
     bBindlessViews := bBindlessViews c;
     bBindlessSamplers := bBindlessSamplers c |}.

Definition set_WorkerData (v : list FWorkerThreadData) (c : t) : t :=
  {| ViewHeap := ViewHeap c; SamplerHeap := SamplerHeap c;
     WorkerData := v;
     BindlessConfiguration := BindlessConfiguration c;
     bBindlessViews := bBindlessViews c;
     bBindlessSamplers := bBindlessSamplers c |}.

(** [(Type == ..CBV_SRV_UAV) ? ..ViewDescriptorTableCache
    : ..SamplerDescriptorTableCache] and its update. *)
Definition MapOf (HeapType : D3D12_DESCRIPTOR_HEAP_TYPE)
    (d : FWorkerThreadData) : gmap Z Z :=
  if IsView HeapType then ViewDescriptorTableCache d
  else SamplerDescriptorTableCache d.

Definition set_MapOf (HeapType : D3D12_DESCRIPTOR_HEAP_TYPE)
    (m : gmap Z Z) (d : FWorkerThreadData) : FWorkerThreadData :=
  {| ViewDescriptorTableCache :=
       if IsView HeapType then m else ViewDescriptorTableCache d;
     SamplerDescriptorTableCache :=
       if IsView HeapType then SamplerDescriptorTableCache d else m;
     ReservedViewDescriptors := ReservedViewDescriptors d |}.

Definition set_ReservedViewDescriptors (r : FDescriptorRange.t)
    (d : FWorkerThreadData) : FWorkerThreadData :=
  {| ViewDescriptorTableCache := ViewDescriptorTableCache d;
     SamplerDescriptorTableCache := SamplerDescriptorTableCache d;
     ReservedViewDescriptors := r |}.

Definition Init (host : Host)
    (NumConstantDescriptors NumViewDescriptors NumSamplerDescriptors : Z)
    (BindlessConfig : Z) (c : t)
    (cache : FD3D12ExplicitDescriptorHeapCache.t) (w : World)
  : Outcome (t * FD3D12ExplicitDescriptorHeapCache.t * World) :=
  let c :=
    if PLATFORM_SUPPORTS_BINDLESS_RENDERING host then
      {| ViewHeap := ViewHeap c; SamplerHeap := SamplerHeap c;
         WorkerData := WorkerData c;
         BindlessConfiguration := BindlessConfig;
         bBindlessViews := AreResourcesBindless host BindlessConfig;
         bBindlessSamplers := AreSamplersBindless host BindlessConfig |}
    else c in
  let bBindlessViews_ :=
    if PLATFORM_SUPPORTS_BINDLESS_RENDERING host then bBindlessViews c else false in
  let bBindlessSamplers_ :=
    if PLATFORM_SUPPORTS_BINDLESS_RENDERING host then bBindlessSamplers c else false in
  let TotalViewDescriptors :=
    u32 (NumConstantDescriptors + (if bBindlessViews_ then 0 else NumViewDescriptors)) in
  '(c, cache, w) ←!
    (if decide (TotalViewDescriptors ≠ 0) then
       '(h, cache, w) ←!
         FD3D12ExplicitDescriptorHeap.Init host TotalViewDescriptors
           D3D12_DESCRIPTOR_HEAP_TYPE_CBV_SRV_UAV (ViewHeap c) cache w;
       Done (set_HeapOf D3D12_DESCRIPTOR_HEAP_TYPE_CBV_SRV_UAV h c, cache, w)
     else Done (c, cache, w));
  if negb bBindlessSamplers_ then
    '(h, cache, w) ←!
      FD3D12ExplicitDescriptorHeap.Init host NumSamplerDescriptors
        D3D12_DESCRIPTOR_HEAP_TYPE_SAMPLER (SamplerHeap c) cache w;
    Done (set_HeapOf D3D12_DESCRIPTOR_HEAP_TYPE_SAMPLER h c, cache, w)
  else Done (c, cache, w).

(** Returns descriptor heap base index for this descriptor table allocation
    or -1 if allocation failed. *)
Definition Allocate (Descriptors : list Z) (NumDescriptors_ : Z)
    (HeapType : D3D12_DESCRIPTOR_HEAP_TYPE) (WorkerIndex : Z)
    (c : t) (w : World) : Outcome (Z * t * World) :=
  (* checkSlow(Type == CBV_SRV_UAV || Type == SAMPLER) *)
  '(DescriptorTableBaseIndex, c, w) ←!
    (if IsView HeapType then
       d ←! TArray_at (WorkerData c) (s32 WorkerIndex);
       let '(r, range) :=
         FDescriptorRange.Allocate NumDescriptors_ (ReservedViewDescriptors d) in
       let c :=
         set_WorkerData
           (<[Z.to_nat (s32 WorkerIndex) := set_ReservedViewDescriptors range d]>
              (WorkerData c)) c in
       if decide (r = INDEX_NONE) then
         '(r, h, w) ←!
           FD3D12ExplicitDescriptorHeap.Allocate NumDescriptors_ (HeapOf HeapType c) w;
         Done (r, set_HeapOf HeapType h c, w)
       else Done (r, c, w)
     else
       '(r, h, w) ←!
         FD3D12ExplicitDescriptorHeap.Allocate NumDescriptors_ (HeapOf HeapType c) w;
       Done (r, set_HeapOf HeapType h c, w));
  if decide (DescriptorTableBaseIndex = INDEX_NONE) then Done (INDEX_NONE, c, w)
  else
    '(h, w) ←!
      FD3D12ExplicitDescriptorHeap.CopyDescriptors DescriptorTableBaseIndex
        Descriptors NumDescriptors_ (HeapOf HeapType c) w;
    let h :=
      if FD3D12ExplicitDescriptorHeap.bExhaustiveSamplerDeduplication h
         && bool_decide (HeapType = D3D12_DESCRIPTOR_HEAP_TYPE_SAMPLER)
      then
        FD3D12ExplicitDescriptorHeap.set_NumWrittenSamplerDescriptors
          (snd (InterlockedAdd
                  (FD3D12ExplicitDescriptorHeap.NumWrittenSamplerDescriptors h)
                  NumDescriptors_)) h
      else h in
    let w :=
      if IsView HeapType then
        emit (INC_DWORD_STAT_BY STAT_ExplicitUsedViewDescriptors NumDescriptors_) w
      else
        let w :=
          emit (INC_DWORD_STAT_BY STAT_ExplicitUsedSamplerDescriptors NumDescriptors_) w in
        let Used := u64 (FD3D12ExplicitDescriptorHeap.NumAllocatedDescriptors h) in
        let w :=
          if decide (GMaxNumUsedSamplerDescriptors w < Used)
          then set_GMaxNumUsedSamplerDescriptors Used w else w in
        emit (SET_DWORD_STAT STAT_ExplicitMaxUsedSamplerDescriptors
                (GMaxNumUsedSamplerDescriptors w)) w in
    Done (DescriptorTableBaseIndex, set_HeapOf HeapType h c, w).

(** The [for] loop of the exhaustive search.  The body runs for
    [SearchIndex = 0, 1, ...] while [SearchIndex + int32(NumDescriptors) <
    SearchEndPos]; [n] bounds the number of such indices.  The result is
    [FoundIndex]. *)
Fixpoint ExhaustiveSearch_loop (n : nat) (SearchIndex : Z)
    (Descriptors : list Z) (NumDescriptors_ : Z) (SearchEndPos : Z)
    (h : FD3D12ExplicitDescriptorHeap.t) : Outcome Z :=
  match n with
  | O => Done INDEX_NONE
  | S n =>
      if decide (SearchIndex + s32 NumDescriptors_ < SearchEndPos) then
        b ←! FD3D12ExplicitDescriptorHeap.CompareDescriptors SearchIndex
               Descriptors NumDescriptors_ h;
        if b : bool then Done SearchIndex
        else ExhaustiveSearch_loop n (SearchIndex + 1) Descriptors
               NumDescriptors_ SearchEndPos h
      else Done INDEX_NONE
  end.

Definition ExhaustiveSearch (Descriptors : list Z) (NumDescriptors_ : Z)
    (h : FD3D12ExplicitDescriptorHeap.t) : Outcome Z :=
  let SearchEndPos := FD3D12ExplicitDescriptorHeap.NumWrittenSamplerDescriptors h in
  ExhaustiveSearch_loop (Z.to_nat (SearchEndPos - s32 NumDescriptors_)) 0
    Descriptors NumDescriptors_ SearchEndPos h.

(** The worker's map for [HeapType] after [f] was applied to it. *)
Definition update_MapOf (HeapType : D3D12_DESCRIPTOR_HEAP_TYPE)
    (WorkerIndex : Z) (f : gmap Z Z → gmap Z Z) (c : t) : t :=
  set_WorkerData
    (alter (λ d, set_MapOf HeapType (f (MapOf HeapType d)) d)
       (Z.to_nat (s32 WorkerIndex)) (WorkerData c)) c.

Section Hashed.

(** [FXxHash64::HashBuffer(..).Hash] over the bytes of a buffer. *)
Variable HashBuffer : list Z → Z.

Definition TableKey (DescriptorVersions Descriptors : list Z) : Z :=
  let VersionHash := HashBuffer (array_bytes 4 DescriptorVersions) in
  let DescriptorHash := HashBuffer (array_bytes 8 Descriptors) in
  Z.lxor VersionHash DescriptorHash.

(** Returns descriptor heap base index for this descriptor table
    allocation (checking for duplicates and reusing existing tables) or
    -1 if allocation failed. *)
Definition AllocateDeduplicated (DescriptorVersions Descriptors : list Z)
    (NumDescriptors_ : Z) (HeapType : D3D12_DESCRIPTOR_HEAP_TYPE)
    (WorkerIndex : Z) (c : t) (w : World) : Outcome (Z * t * World) :=
  (* checkSlow(Type == CBV_SRV_UAV || Type == SAMPLER) *)
  let Heap := HeapOf HeapType c in
  d ←! TArray_at (WorkerData c) (s32 WorkerIndex);
  Versions ←! read_buffer DescriptorVersions NumDescriptors_;
  Handles ←! read_buffer Descriptors NumDescriptors_;
  let Key := TableKey Versions Handles in
  (* int32& DescriptorTableBaseIndex = Map.FindOrAdd(Key, INDEX_NONE) *)
  let DescriptorTableBaseIndex :=
    snd (FindOrAdd (MapOf HeapType d) Key INDEX_NONE) in
  let c :=
    update_MapOf HeapType WorkerIndex
      (λ Map, fst (FindOrAdd Map Key INDEX_NONE)) c in
  Hit ←!
    (if decide (DescriptorTableBaseIndex ≠ INDEX_NONE) then
       if EXPLICIT_DESCRIPTOR_CACHE_FULL_COMPARE then
         (* ensureMsgf: a mismatch is reported and execution goes on *)
         FD3D12ExplicitDescriptorHeap.CompareDescriptors
           DescriptorTableBaseIndex Descriptors NumDescriptors_ Heap
       else Done true
     else Done false);
  if Hit : bool then Done (DescriptorTableBaseIndex, c, w)
  else
    FoundIndex ←!
      (if FD3D12ExplicitDescriptorHeap.bExhaustiveSamplerDeduplication Heap
          && bool_decide (HeapType = D3D12_DESCRIPTOR_HEAP_TYPE_SAMPLER)
          && bool_decide (1 < Z.of_nat (length (WorkerData c)))
       then ExhaustiveSearch Descriptors NumDescriptors_ Heap
       else Done INDEX_NONE);
    if decide (FoundIndex ≠ INDEX_NONE) then
      (* DescriptorTableBaseIndex = FoundIndex *)
      Done (FoundIndex,
            update_MapOf HeapType WorkerIndex (insert Key FoundIndex) c, w)
    else
      '(r, c, w) ←! Allocate Descriptors NumDescriptors_ HeapType WorkerIndex c w;
      (* DescriptorTableBaseIndex = Allocate(...) *)
      Done (r, update_MapOf HeapType WorkerIndex (insert Key r) c, w).

End Hashed.

End FD3D12ExplicitDescriptorCache.

(** ** Running sequences of calls *)

(** One returned call of [FD3D12ExplicitDescriptorHeap::Allocate]. *)
Record AllocateCall := {
  Requested : Z;       (* InNumDescriptors *)
  Returned : Z;        (* the value returned *)
  CursorAfter : Z;     (* NumAllocatedDescriptors after the call *)
}.

(** [Allocate] called with each count of [ns] in turn on one heap.  The list
    holds the calls that returned; the outcome is the heap and the world
    after the last one, or the reason the process stopped. *)
Fixpoint AllocateSeq (ns : list Z) (h : FD3D12ExplicitDescriptorHeap.t) (w : World)
  : list AllocateCall * Outcome (FD3D12ExplicitDescriptorHeap.t * World) :=
  match ns with
  | [] => ([], Done (h, w))
  | n :: ns =>
      match FD3D12ExplicitDescriptorHeap.Allocate n h w with
      | Done (r, h, w) =>
          let '(calls, out) := AllocateSeq ns h w in
          ({| Requested := n; Returned := r;
              CursorAfter := FD3D12ExplicitDescriptorHeap.NumAllocatedDescriptors h |}
             :: calls, out)
      | Halted why => ([], Halted why)
      end
  end.

(** The number of "view descriptor heap overflow" errors in a trace. *)
Definition IsOverflowError (e : Event) : bool :=
  match e with
  | ErrorViewHeapOverflow _ => true
  | _ => false
  end.

Definition OverflowErrors (tr : list Event) : nat :=
  length (List.filter IsOverflowError tr).

(** ** Vocabulary of the statements *)

(** *** Doubles as numbers *)

(** The doubles proper: mantissa and exponent in the range of binary64. *)
Definition IsDouble (x : double) : Prop :=
  SpecFloat.valid_binary 53 1024 x = true.

(** A double that is a number: neither an infinity nor a NaN. *)
Definition IsFinite (x : double) : bool :=
  match x with
  | SpecFloat.S754_zero _ | SpecFloat.S754_finite _ _ _ => true
  | _ => false
  end.

Definition FiniteDouble (x : double) : Prop :=
  IsDouble x ∧ IsFinite x = true.

(** The value of a finite double in units of [2^-1074], the smallest
    positive double, and as a rational number. *)
Definition Scaled (x : double) : Z :=
  match x with
  | SpecFloat.S754_finite s m e =>
      SpecFloat.cond_Zopp s (Z.pos m * 2 ^ (e + 1074))
  | _ => 0
  end.

Definition DoubleValue (x : double) : Q :=
  Qmake (Scaled x) (2 ^ 1074)%positive.

(** [r] is what rounding yields for a magnitude [R] (in units of
    [2^-1074]) on the grid of doubles, with sign [s]: the infinity from
    [2^1024] on, the double of that magnitude below. *)
Definition RoundsTo (r : double) (s : bool) (R : Z) : Prop :=
  (2 ^ 2098 ≤ R ∧ r = SpecFloat.S754_infinity s)
  ∨ (R < 2 ^ 2098 ∧
     ∃ m e, r = SpecFloat.S754_finite s m e ∧
            SpecFloat.bounded 53 1024 m e = true ∧
            Z.pos m * 2 ^ (e + 1074) = R).

(** The doubles nearest to 0.1 and to 5.1. *)
Definition Double_0_1 : double :=
  SpecFloat.S754_finite false 0x1999999999999A (-56).
Definition Double_5_1 : double :=
  SpecFloat.S754_finite false 0x14666666666666 (-50).

(** *** Sums *)

Definition Sum (l : list Z) : Z := foldr Z.add 0 l.

(** The counts of the calls that returned an offset. *)
Definition AcceptedSum (calls : list AllocateCall) : Z :=
  Sum (Requested <$> List.filter (λ c, negb (bool_decide (Returned c = INDEX_NONE))) calls).

(** ** Concrete objects for the examples *)

(** An initialised view heap of [Max] descriptors, nothing allocated yet. *)
Definition ExampleViewHeap (Max : Z) : FD3D12ExplicitDescriptorHeap.t :=
  {| FD3D12ExplicitDescriptorHeap.HeapType := D3D12_DESCRIPTOR_HEAP_TYPE_CBV_SRV_UAV;
     FD3D12ExplicitDescriptorHeap.D3D12Heap := 4096;
     FD3D12ExplicitDescriptorHeap.MaxNumDescriptors := Max;
     FD3D12ExplicitDescriptorHeap.NumAllocatedDescriptors := 0;
     FD3D12ExplicitDescriptorHeap.NumWrittenSamplerDescriptors := 0;
     FD3D12ExplicitDescriptorHeap.DescriptorSize := 32;
     FD3D12ExplicitDescriptorHeap.CPUBase := 65536;
     FD3D12ExplicitDescriptorHeap.GPUBase := 131072;
     FD3D12ExplicitDescriptorHeap.HeapCacheEntry :=
       {| Heap := 4096; LastUsedFrame := 0; LastUsedTime := DoubleOfZ 0;
          NumDescriptors := Max; Type_ := D3D12_DESCRIPTOR_HEAP_TYPE_CBV_SRV_UAV |};
     FD3D12ExplicitDescriptorHeap.Descriptors := [];
     FD3D12ExplicitDescriptorHeap.bExhaustiveSamplerDeduplication := true |}.

(** An initialised sampler heap of [Max] descriptors, nothing allocated
    yet, with the zeroed shadow copy of exhaustive deduplication. *)
Definition ExampleSamplerHeap (Max : Z) : FD3D12ExplicitDescriptorHeap.t :=
  {| FD3D12ExplicitDescriptorHeap.HeapType := D3D12_DESCRIPTOR_HEAP_TYPE_SAMPLER;
     FD3D12ExplicitDescriptorHeap.D3D12Heap := 8192;
     FD3D12ExplicitDescriptorHeap.MaxNumDescriptors := Max;
     FD3D12ExplicitDescriptorHeap.NumAllocatedDescriptors := 0;
     FD3D12ExplicitDescriptorHeap.NumWrittenSamplerDescriptors := 0;
     FD3D12ExplicitDescriptorHeap.DescriptorSize := 32;
     FD3D12ExplicitDescriptorHeap.CPUBase := 196608;
     FD3D12ExplicitDescriptorHeap.GPUBase := 262144;
     FD3D12ExplicitDescriptorHeap.HeapCacheEntry :=
       {| Heap := 8192; LastUsedFrame := 0; LastUsedTime := DoubleOfZ 0;
          NumDescriptors := Max; Type_ := D3D12_DESCRIPTOR_HEAP_TYPE_SAMPLER |};
     FD3D12ExplicitDescriptorHeap.Descriptors := replicate (Z.to_nat Max) 0;
     FD3D12ExplicitDescriptorHeap.bExhaustiveSamplerDeduplication := true |}.

(** The heaps handed to [DeferredDelete], and the heaps released on the
    spot, in the order of the trace. *)
Definition DeferredDeletes (tr : list Event) : list Z :=
  omap (λ e, match e with DeferredDeleteHeap p => Some p | _ => None end) tr.

Definition HeapReleases (tr : list Event) : list Z :=
  omap (λ e, match e with HeapRelease p => Some p | _ => None end) tr.

(** The descriptor [AllocateHeap] passes to [CreateDescriptorHeap]. *)
Definition HeapDesc (host : Host) (HeapType : D3D12_DESCRIPTOR_HEAP_TYPE)
    (NumDescriptors_ : Z) : D3D12_DESCRIPTOR_HEAP_DESC :=
  {| Desc_Type := HeapType;
     Desc_NumDescriptors := NumDescriptors_;
     Desc_Flags := D3D12_DESCRIPTOR_HEAP_FLAG_SHADER_VISIBLE;
     Desc_NodeMask := GPUMaskNative host |}.

(** A host whose driver creates every heap: the heap pointer encodes the
    size, descriptors are 32 bytes, and bindless configuration 3 makes
    resource views and samplers bindless.  The clock shows [Time], a whole
    number of seconds. *)
Definition ExampleHost (Frame : Z) (Time : Z) : Host :=
  {| GetNextFenceToSignal := Frame;
     Seconds := DoubleOfZ Time;
     CreateDescriptorHeap := λ Desc, Some (4096 + Desc_NumDescriptors Desc);
     GPUMaskNative := 1;
     GetCPUDescriptorHandleForHeapStart := λ p, 65536 * p + 4096;
     GetGPUDescriptorHandleForHeapStart := λ p, 65536 * p + 8192;
     GetDescriptorHandleIncrementSize := λ _, 32;
     PLATFORM_SUPPORTS_BINDLESS_RENDERING := true;
     AreResourcesBindless := λ cfg, bool_decide (cfg = 3);
     AreSamplersBindless := λ cfg, bool_decide (cfg = 3);
     Uninitialized := λ _, 0 |}.

Definition ExampleEntry (p : Z) (HeapType : D3D12_DESCRIPTOR_HEAP_TYPE)
    (n : Z) (Frame : Z) (Time : Z) : FEntry :=
  {| Heap := p; LastUsedFrame := Frame; LastUsedTime := DoubleOfZ Time;
     NumDescriptors := n; Type_ := HeapType |}.

(** The entry [AllocateHeap] returns for a heap it has just created. *)
Definition CreatedEntry (p : Z) (HeapType : D3D12_DESCRIPTOR_HEAP_TYPE)
    (NumDescriptors_ : Z) : FEntry :=
  {| Heap := p; LastUsedFrame := 0; LastUsedTime := DoubleOfZ 0;
     NumDescriptors := NumDescriptors_; Type_ := HeapType |}.

(** What the creation of a heap adds to the trace. *)
Definition CreatedHeapEvents (host : Host) (p : Z)
    (HeapType : D3D12_DESCRIPTOR_HEAP_TYPE) (NumDescriptors_ : Z) : list Event :=
  [LogCreatingHeap HeapType NumDescriptors_;
   CreateDescriptorHeapCall (HeapDesc host HeapType NumDescriptors_);
   SetNameCall p HeapType]
  ++ (if decide (HeapType = D3D12_DESCRIPTOR_HEAP_TYPE_CBV_SRV_UAV)
      then [INC_DWORD_STAT STAT_ExplicitViewDescriptorHeaps;
            INC_DWORD_STAT_BY STAT_ExplicitViewDescriptors NumDescriptors_]
      else [INC_DWORD_STAT STAT_ExplicitSamplerDescriptorHeaps;
            INC_DWORD_STAT_BY STAT_ExplicitSamplerDescriptors NumDescriptors_]).

(** A call of one of the two allocation entry points of the descriptor
    cache, and runs of such calls. *)
Inductive CacheCall :=
| CallAllocateDeduplicated (DescriptorVersions Descriptors : list Z)
    (NumDescriptors_ : Z) (HeapType : D3D12_DESCRIPTOR_HEAP_TYPE) (WorkerIndex : Z)
| CallAllocate (Descriptors : list Z)
    (NumDescriptors_ : Z) (HeapType : D3D12_DESCRIPTOR_HEAP_TYPE) (WorkerIndex : Z).

Definition RunCall (HashBuffer : list Z → Z) (k : CacheCall)
    (c : FD3D12ExplicitDescriptorCache.t) (w : World)
  : Outcome (Z * FD3D12ExplicitDescriptorCache.t * World) :=
  match k with
  | CallAllocateDeduplicated vs ds n T i =>
      FD3D12ExplicitDescriptorCache.AllocateDeduplicated HashBuffer vs ds n T i c w
  | CallAllocate ds n T i =>
      FD3D12ExplicitDescriptorCache.Allocate ds n T i c w
  end.

(** The calls of [ks] in turn; the values returned, then the final state.
    The run stops at the first call that halts. *)
Fixpoint RunCalls (HashBuffer : list Z → Z) (ks : list CacheCall)
    (c : FD3D12ExplicitDescriptorCache.t) (w : World)
  : Outcome (list Z * FD3D12ExplicitDescriptorCache.t * World) :=
  match ks with
  | [] => Done ([], c, w)
  | k :: ks =>
      '(r, c, w) ←! RunCall HashBuffer k c w;
      '(rs, c, w) ←! RunCalls HashBuffer ks c w;
      Done (r :: rs, c, w)
  end.

(** The sources of the device copies in a trace. *)
Definition DeviceCopies (tr : list Event) : list (list Z) :=
  omap (λ e, match e with DeviceCopyDescriptors _ Src _ => Some Src | _ => None end) tr.

(** A stand-in for [FXxHash64] in the examples (the hash is a parameter of
    the development). *)
Definition ExampleHash (bytes : list Z) : Z :=
  foldl (λ h b, u64 (h * 1099511628211 + b)) 14695981039346656037 bytes.

Definition ExampleWorker : FD3D12ExplicitDescriptorCache.FWorkerThreadData :=
  {| FD3D12ExplicitDescriptorCache.ViewDescriptorTableCache := ∅;
     FD3D12ExplicitDescriptorCache.SamplerDescriptorTableCache := ∅;
     FD3D12ExplicitDescriptorCache.ReservedViewDescriptors := FDescriptorRange.Empty |}.

(** A descriptor cache with [Workers] workers before [Init]. *)
Definition ExampleCache (Workers : nat) : FD3D12ExplicitDescriptorCache.t :=
  {| FD3D12ExplicitDescriptorCache.ViewHeap := FD3D12ExplicitDescriptorHeap.Constructor;
     FD3D12ExplicitDescriptorCache.SamplerHeap := FD3D12ExplicitDescriptorHeap.Constructor;
     FD3D12ExplicitDescriptorCache.WorkerData := replicate Workers ExampleWorker;
     FD3D12ExplicitDescriptorCache.BindlessConfiguration := 0;
     FD3D12ExplicitDescriptorCache.bBindlessViews := false;
     FD3D12ExplicitDescriptorCache.bBindlessSamplers := false |}.

Definition ExampleHeapCache : FD3D12ExplicitDescriptorHeapCache.t :=
  {| FD3D12ExplicitDescriptorHeapCache.FreeList := [];
     FD3D12ExplicitDescriptorHeapCache.NumAllocatedEntries := 0 |}.

(** The descriptor cache of the examples after
    [Init(NumConstant, NumView, NumSampler, BindlessConfig)]. *)
Definition ExampleInitCache (Workers : nat)
    (NumConstant NumView NumSampler BindlessConfig : Z)
  : Outcome (FD3D12ExplicitDescriptorCache.t
             * FD3D12ExplicitDescriptorHeapCache.t * World) :=
  FD3D12ExplicitDescriptorCache.Init (ExampleHost 0 0)
    NumConstant NumView NumSampler BindlessConfig
    (ExampleCache Workers) ExampleHeapCache World_initial.

(** The descriptor-table map of worker [j]: the view map when [view] is
    true, the sampler map otherwise. *)
Definition MapAt (view : bool) (j : nat) (c : FD3D12ExplicitDescriptorCache.t)
  : option (gmap Z Z) :=
  (λ d, if view then FD3D12ExplicitDescriptorCache.ViewDescriptorTableCache d
        else FD3D12ExplicitDescriptorCache.SamplerDescriptorTableCache d)
  <$> FD3D12ExplicitDescriptorCache.WorkerData c !! j.

(** Worker [WorkerIndex] has the table with fingerprint [Key] at offset [r]
    in its map for [HeapType]. *)
Definition Cached (HeapType : D3D12_DESCRIPTOR_HEAP_TYPE) (WorkerIndex : Z)
    (Key r : Z) (c : FD3D12ExplicitDescriptorCache.t) : Prop :=
  0 ≤ s32 WorkerIndex ∧
  ∃ m, MapAt (FD3D12ExplicitDescriptorCache.IsView HeapType)
         (Z.to_nat (s32 WorkerIndex)) c = Some m ∧
       m !! Key = Some r.

Definition ResultOf {A} (o : Outcome A) (default : A) : A :=
  match o with
  | Done a => a
  | Halted _ => default
  end.

(** The session of the examples: two workers, no bindless, a view heap for
    64 descriptors and a sampler heap for 16, exhaustive sampler
    deduplication enabled (the default of the console variable). *)
Definition ExampleSession : FD3D12ExplicitDescriptorCache.t * World :=
  let '(c, _, w) :=
    ResultOf (ExampleInitCache 2 0 64 16 0)
      (ExampleCache 2, ExampleHeapCache, World_initial) in
  (c, w).

(** Worker 0 asks for the sampler table [4096; 8192]; then the calls of
    [between] are made; the state after them. *)
Definition ExampleFirstCall
  : Outcome (Z * FD3D12ExplicitDescriptorCache.t * World) :=
  FD3D12ExplicitDescriptorCache.AllocateDeduplicated ExampleHash
    [1; 1] [4096; 8192] 2 D3D12_DESCRIPTOR_HEAP_TYPE_SAMPLER 0
    ExampleSession.1 ExampleSession.2.

Definition ExampleBetween : list CacheCall :=
  [CallAllocateDeduplicated [1] [12288] 1 D3D12_DESCRIPTOR_HEAP_TYPE_SAMPLER 0;
   CallAllocate [24576; 28672] 2 D3D12_DESCRIPTOR_HEAP_TYPE_CBV_SRV_UAV 1;
   CallAllocateDeduplicated [1; 1] [4096; 8192] 2 D3D12_DESCRIPTOR_HEAP_TYPE_CBV_SRV_UAV 0].

Definition ExampleLater
  : Outcome (list Z * FD3D12ExplicitDescriptorCache.t * World) :=
  let '(_, c1, w1) :=
    ResultOf ExampleFirstCall (0, ExampleSession.1, ExampleSession.2) in
  RunCalls ExampleHash ExampleBetween c1 w1.

(** The shadow copies of the handles of the two heaps. *)
Definition Shadows (c : FD3D12ExplicitDescriptorCache.t) : list Z * list Z :=
  (FD3D12ExplicitDescriptorHeap.Descriptors (FD3D12ExplicitDescriptorCache.ViewHeap c),
   FD3D12ExplicitDescriptorHeap.Descriptors (FD3D12ExplicitDescriptorCache.SamplerHeap c)).

(** ** Vocabulary of the further properties *)

(** The [n] shadow handles of heap [h] from index [i] on. *)
Definition ShadowSlice (h : FD3D12ExplicitDescriptorHeap.t) (i : Z) (n : Z) : list Z :=
  take (Z.to_nat n) (drop (Z.to_nat i) (FD3D12ExplicitDescriptorHeap.Descriptors h)).

(** The descriptors passed to [CreateDescriptorHeap], in the order of the
    trace. *)
Definition CreateCalls (tr : list Event) : list D3D12_DESCRIPTOR_HEAP_DESC :=
  omap (λ e, match e with CreateDescriptorHeapCall d => Some d | _ => None end) tr.

(** The entries whose release to the heap cache was deferred. *)
Definition DeferredReleases (tr : list Event) : list FEntry :=
  omap (λ e, match e with DeferredDeleteReleaseHeap E => Some E | _ => None end) tr.

(** An entry as [ReleaseHeap] stamps it. *)
Definition Stamped (host : Host) (Entry : FEntry) : FEntry :=
  {| Heap := Heap Entry;
     LastUsedFrame := GetNextFenceToSignal host;
     LastUsedTime := Seconds host;
     NumDescriptors := NumDescriptors Entry;
     Type_ := Type_ Entry |}.

(** The state of a sampler heap that [Init] set up for the exhaustive
    search: the cursor is inside the heap, the written count follows the
    cursor, and the shadow array has one slot per descriptor. *)
Definition SamplerHeapInv (h : FD3D12ExplicitDescriptorHeap.t) : Prop :=
  FD3D12ExplicitDescriptorHeap.HeapType h = D3D12_DESCRIPTOR_HEAP_TYPE_SAMPLER ∧
  FD3D12ExplicitDescriptorHeap.bExhaustiveSamplerDeduplication h = true ∧
  0 ≤ FD3D12ExplicitDescriptorHeap.NumAllocatedDescriptors h
    ≤ FD3D12ExplicitDescriptorHeap.MaxNumDescriptors h ∧
  FD3D12ExplicitDescriptorHeap.MaxNumDescriptors h < 2 ^ 31 ∧
  FD3D12ExplicitDescriptorHeap.NumWrittenSamplerDescriptors h
  = FD3D12ExplicitDescriptorHeap.NumAllocatedDescriptors h ∧
  length (FD3D12ExplicitDescriptorHeap.Descriptors h)
  = Z.to_nat (FD3D12ExplicitDescriptorHeap.MaxNumDescriptors h).

(** The arguments of a call as their C++ types and the [checkSlow] on the
    heap type restrict them: [NumDescriptors] is a [uint32], the type is
    one of the two the cache serves. *)
Definition CallArgsTyped (k : CacheCall) : Prop :=
  match k with
  | CallAllocateDeduplicated _ _ n T _ | CallAllocate _ n T _ =>
      0 ≤ n < 2 ^ 32 ∧
      (T = D3D12_DESCRIPTOR_HEAP_TYPE_CBV_SRV_UAV
       ∨ T = D3D12_DESCRIPTOR_HEAP_TYPE_SAMPLER)
  end.

(** A sampler heap of six descriptors whose shadow array holds five written
    handles (what a build with [EXPLICIT_DESCRIPTOR_CACHE_FULL_COMPARE]
    would have mirrored). *)
Definition ExampleShadowHeap : FD3D12ExplicitDescriptorHeap.t :=
  FD3D12ExplicitDescriptorHeap.set_Descriptors [7; 8; 9; 8; 9; 0]
    (FD3D12ExplicitDescriptorHeap.set_NumWrittenSamplerDescriptors 5
       (FD3D12ExplicitDescriptorHeap.set_NumAllocatedDescriptors 5
          (ExampleSamplerHeap 6))).

(** A sampler heap initialised from the empty pool of the examples. *)
Definition ExampleInitSamplerHeap
  : FD3D12ExplicitDescriptorHeap.t * FD3D12ExplicitDescriptorHeapCache.t * World :=
  ResultOf
    (FD3D12ExplicitDescriptorHeap.Init (ExampleHost 0 0) 16
       D3D12_DESCRIPTOR_HEAP_TYPE_SAMPLER FD3D12ExplicitDescriptorHeap.Constructor
       ExampleHeapCache World_initial)
    (FD3D12ExplicitDescriptorHeap.Constructor, ExampleHeapCache, World_initial).

(** The device copies of a trace with their destination, source handles
    and heap type. *)
Definition DeviceCopyEvents (tr : list Event)
  : list (Z * list Z * D3D12_DESCRIPTOR_HEAP_TYPE) :=
  omap (λ e, match e with
             | DeviceCopyDescriptors Dest Src T => Some (Dest, Src, T)
             | _ => None
             end) tr.

(** *** Accounting of the pool statistics *)

Global Instance Stat_eq_dec : EqDecision Stat.
Proof. solve_decision. Defined.

(** What one event adds to the counter statistic [s]. *)
Definition StatDelta (s : Stat) (e : Event) : Z :=
  match e with
  | INC_DWORD_STAT s' => if decide (s' = s) then 1 else 0
  | INC_DWORD_STAT_BY s' Amount => if decide (s' = s) then Amount else 0
  | DEC_DWORD_STAT s' => if decide (s' = s) then -1 else 0
  | DEC_DWORD_STAT_BY s' Amount => if decide (s' = s) then - Amount else 0
  | _ => 0
  end.

(** The net change a trace makes to the counter statistic [s]. *)
Definition StatChange (s : Stat) (tr : list Event) : Z :=
  Sum (StatDelta s <$> tr).

(** The pool keeps two pairs of statistics: one for entries of type
    [CBV_SRV_UAV], one for all others. *)
Definition HeapsStat (view : bool) : Stat :=
  if view then STAT_ExplicitViewDescriptorHeaps
  else STAT_ExplicitSamplerDescriptorHeaps.

Definition DescriptorsStat (view : bool) : Stat :=
  if view then STAT_ExplicitViewDescriptors
  else STAT_ExplicitSamplerDescriptors.

(** The sum of [f] over the entries of [l] on the [view] side. *)
Definition Pooled (f : FEntry → Z) (view : bool) (l : list FEntry) : Z :=
  Sum ((λ It, if decide (bool_decide (Type_ It = D3D12_DESCRIPTOR_HEAP_TYPE_CBV_SRV_UAV)
                         = view)
              then f It else 0) <$> l).

(** The number of heaps, and of descriptors, of the entries of [l] on the
    [view] side. *)
Definition PooledHeaps (view : bool) (l : list FEntry) : Z :=
  Pooled (λ _, 1) view l.

Definition PooledDescriptors (view : bool) (l : list FEntry) : Z :=
  Pooled NumDescriptors view l.

(** * Properties *)

(** Inversion of a monadic equation in hypothesis [H]. *)
Ltac bind_inv H :=
  repeat match type of H with
    | bindO ?m _ = Done _ =>
        let E := fresh "E" in
        destruct m as [?|?] eqn:E; cbn [bindO] in H; [|discriminate H]
    | match ?p with (_, _) => _ end = Done _ => destruct p
    end.

(** ** Machine integers *)

Lemma u32_small z : 0 ≤ z < 2 ^ 32 → u32 z = z.
Proof. intros. unfold u32. apply Z.mod_small. lia. Qed.

Lemma s32_small z : - 2 ^ 31 ≤ z < 2 ^ 31 → s32 z = z.
Proof. intros. unfold s32. rewrite Z.mod_small; lia. Qed.

Lemma lor_1_nonzero z : Z.lor z 1 ≠ 0.
Proof. intros H. apply Z.lor_eq_0_iff in H. lia. Qed.

(** ** Prefix sums *)

Lemma Sum_app l1 l2 : Sum (l1 ++ l2) = Sum l1 + Sum l2.
Proof. induction l1 as [|x l1 IH]; simpl; lia. Qed.

Lemma Sum_nonneg l : Forall (λ n, 0 ≤ n) l → 0 ≤ Sum l.
Proof. induction 1; simpl; lia. Qed.

Lemma Sum_take_le (l : list Z) i :
  Forall (λ n, 0 ≤ n) l → Sum (take i l) ≤ Sum l.
Proof.
  intros Hl. rewrite <- (take_drop i l) at 2. rewrite Sum_app.
  assert (0 ≤ Sum (drop i l)); [|lia].
  apply Sum_nonneg. by apply Forall_drop.
Qed.

Lemma Sum_take_mono (l : list Z) i j :
  Forall (λ n, 0 ≤ n) l → (i ≤ j)%nat → Sum (take i l) ≤ Sum (take j l).
Proof.
  intros Hl Hij. replace (take i l) with (take i (take j l)).
  - apply Sum_take_le. by apply Forall_take.
  - rewrite take_take. f_equal. lia.
Qed.

Lemma Sum_take_S (l : list Z) i n :
  l !! i = Some n → Sum (take (S i) l) = Sum (take i l) + n.
Proof.
  intros H. erewrite take_S_r by done. rewrite Sum_app. simpl. lia.
Qed.

(** ** FD3D12ExplicitDescriptorHeap::Allocate *)

Section HeapAllocate.

Import FD3D12ExplicitDescriptorHeap.

(** What [Allocate] does to the heap, whatever it returns. *)
Lemma Allocate_heap n h w r h' w' :
  Allocate n h w = Done (r, h', w') →
  h' = set_NumAllocatedDescriptors (s32 (NumAllocatedDescriptors h + s32 n)) h.
Proof.
  unfold Allocate, InterlockedAdd, InterlockedOr. intros H.
  repeat case_decide; simplify_eq; done.
Qed.

(** [Allocate] while the 32-bit arithmetic does not wrap. *)
Lemma Allocate_nowrap n h w :
  0 ≤ NumAllocatedDescriptors h → 0 ≤ n →
  NumAllocatedDescriptors h + n < 2 ^ 31 →
  let c := NumAllocatedDescriptors h in
  let h' := set_NumAllocatedDescriptors (c + n) h in
  (c + n ≤ MaxNumDescriptors h → Allocate n h w = Done (c, h', w)) ∧
  (MaxNumDescriptors h < c + n →
     (HeapType h = D3D12_DESCRIPTOR_HEAP_TYPE_SAMPLER →
      Allocate n h w = Halted FatalLog) ∧
     (HeapType h ≠ D3D12_DESCRIPTOR_HEAP_TYPE_SAMPLER →
      ∃ w', Allocate n h w = Done (-1, h', w'))).
Proof.
  intros Hc Hn Hlt. cbn zeta.
  unfold Allocate, InterlockedAdd, InterlockedOr.
  rewrite (s32_small n) by lia. rewrite s32_small by lia.
  rewrite u32_small by lia. cbn [MaxNumDescriptors HeapType set_NumAllocatedDescriptors].
  split; intros Hcmp.
  - rewrite decide_False by lia. done.
  - rewrite decide_True by lia. split; intros Hty.
    + by rewrite decide_True.
    + rewrite decide_False by done. repeat case_decide; eauto.
Qed.

(** ** Sequences of [Allocate] calls on one heap *)

Definition NoWrap (h : FD3D12ExplicitDescriptorHeap.t) (ns : list Z) : Prop :=
  0 ≤ NumAllocatedDescriptors h ∧ Forall (λ n, 0 ≤ n) ns ∧
  NumAllocatedDescriptors h + Sum ns < 2 ^ 31.

Lemma NoWrap_cons h n ns :
  NoWrap h (n :: ns) →
  0 ≤ NumAllocatedDescriptors h ∧ 0 ≤ n ∧ 0 ≤ Sum ns ∧
  NumAllocatedDescriptors h + n < 2 ^ 31 ∧
  NoWrap (set_NumAllocatedDescriptors (NumAllocatedDescriptors h + n) h) ns.
Proof.
  intros (Hc & Hns & Hlt). inversion Hns as [|?? Hn Hns']; subst.
  pose proof (Sum_nonneg _ Hns'). simpl in Hlt.
  unfold NoWrap. cbn [NumAllocatedDescriptors set_NumAllocatedDescriptors].
  repeat split; try done; lia.
Qed.

(** The step of [AllocateSeq] while nothing wraps. *)
Lemma AllocateSeq_cons n ns h w calls out :
  NoWrap h (n :: ns) →
  AllocateSeq (n :: ns) h w = (calls, out) →
  let c := NumAllocatedDescriptors h in
  let h' := set_NumAllocatedDescriptors (c + n) h in
  (MaxNumDescriptors h < c + n ∧
   HeapType h = D3D12_DESCRIPTOR_HEAP_TYPE_SAMPLER ∧
   calls = [] ∧ out = Halted FatalLog) ∨
  (∃ r w' calls',
     AllocateSeq ns h' w' = (calls', out) ∧
     calls = {| Requested := n; Returned := r; CursorAfter := c + n |} :: calls' ∧
     ((c + n ≤ MaxNumDescriptors h ∧ r = c) ∨
      (MaxNumDescriptors h < c + n ∧ r = -1 ∧
       HeapType h ≠ D3D12_DESCRIPTOR_HEAP_TYPE_SAMPLER))).
Proof.
  intros Hnw Hrun. destruct (NoWrap_cons _ _ _ Hnw) as (Hc & Hn & _ & Hlt & _).
  destruct (Allocate_nowrap n h w Hc Hn Hlt) as [Hfit Hover].
  cbn zeta. cbn [AllocateSeq] in Hrun.
  destruct (decide (NumAllocatedDescriptors h + n ≤ MaxNumDescriptors h)) as [Hle|Hgt].
  - rewrite (Hfit Hle) in Hrun.
    destruct (AllocateSeq ns _ w) as [calls' out'] eqn:Hrest.
    simplify_eq. right. eexists _, _, _. split; [exact Hrest|].
    split; [done|]. left. done.
  - destruct (Hover ltac:(lia)) as [Hsam Hview].
    destruct (decide (HeapType h = D3D12_DESCRIPTOR_HEAP_TYPE_SAMPLER)) as [Hty|Hty].
    + rewrite (Hsam Hty) in Hrun. simplify_eq. left. repeat split; [lia|done].
    + destruct (Hview Hty) as [w' Hw']. rewrite Hw' in Hrun.
      destruct (AllocateSeq ns _ w') as [calls' out'] eqn:Hrest.
      simplify_eq. right. eexists _, _, _. split; [exact Hrest|].
      split; [done|]. right. repeat split; [lia|done].
Qed.

(** Every returned call in closed form. *)
Lemma AllocateSeq_calls ns : ∀ h w calls out,
  NoWrap h ns →
  AllocateSeq ns h w = (calls, out) →
  ∀ i c, calls !! i = Some c →
    let before := NumAllocatedDescriptors h + Sum (take i ns) in
    let after := NumAllocatedDescriptors h + Sum (take (S i) ns) in
    ns !! i = Some (Requested c) ∧
    CursorAfter c = after ∧
    (after ≤ MaxNumDescriptors h → Returned c = before) ∧
    (MaxNumDescriptors h < after →
       Returned c = -1 ∧ HeapType h ≠ D3D12_DESCRIPTOR_HEAP_TYPE_SAMPLER).
Proof.
  induction ns as [|n ns IH]; intros h w calls out Hnw Hrun i c Hi.
  - simpl in Hrun. simplify_eq.
  - destruct (AllocateSeq_cons _ _ _ _ _ _ Hnw Hrun)
      as [(_ & _ & -> & _)|(r & w' & calls' & Hrest & -> & Hr)]; [done|].
    destruct (NoWrap_cons _ _ _ Hnw) as (_ & _ & _ & _ & Hnw').
    destruct i as [|i]; simpl in Hi.
    + simplify_eq. cbn. rewrite take_0. cbn.
      repeat split; try lia; intros; destruct Hr as [[??]|(?&?&?)]; try lia; done.
    + specialize (IH _ _ _ _ Hnw' Hrest i c Hi).
      cbn [NumAllocatedDescriptors set_NumAllocatedDescriptors
             MaxNumDescriptors HeapType] in IH.
      cbn zeta in IH |- *. destruct IH as (IH1 & IH2 & IH3 & IH4).
      assert (∀ k, Sum (take (S k) (n :: ns)) = n + Sum (take k ns)) as Hk by done.
      rewrite !Hk. repeat split.
      * done.
      * lia.
      * intros. rewrite IH3; lia.
      * apply IH4. lia.
      * apply IH4. lia.
Qed.

(** How a sequence ends. *)
Lemma AllocateSeq_outcome ns : ∀ h w calls out,
  NoWrap h ns →
  AllocateSeq ns h w = (calls, out) →
  (length calls = length ns ∧
   ∃ w', out = Done (set_NumAllocatedDescriptors
                       (NumAllocatedDescriptors h + Sum ns) h, w')) ∨
  (out = Halted FatalLog ∧
   HeapType h = D3D12_DESCRIPTOR_HEAP_TYPE_SAMPLER ∧
   (length calls < length ns)%nat ∧
   MaxNumDescriptors h
     < NumAllocatedDescriptors h + Sum (take (S (length calls)) ns)).
Proof.
  induction ns as [|n ns IH]; intros h w calls out Hnw Hrun.
  - simpl in Hrun. simplify_eq. left. split; [done|]. exists w.
    simpl. rewrite Z.add_0_r. by destruct h.
  - destruct (AllocateSeq_cons _ _ _ _ _ _ Hnw Hrun)
      as [(Hgt & Hty & -> & ->)|(r & w' & calls' & Hrest & -> & Hr)].
    + right. repeat split; [done|simpl; lia|]. simpl. lia.
    + destruct (NoWrap_cons _ _ _ Hnw) as (_ & _ & _ & _ & Hnw').
      destruct (IH _ _ _ _ Hnw' Hrest) as [(Hlen & w'' & ->)|(-> & Hty & Hlen & Hgt)];
        cbn [NumAllocatedDescriptors set_NumAllocatedDescriptors
               MaxNumDescriptors HeapType] in *.
      * left. split; [simpl; lia|]. exists w''. do 2 f_equal.
        unfold set_NumAllocatedDescriptors. simpl. f_equal. lia.
      * right. repeat split; [done|simpl; lia|].
        change (length (_ :: calls')) with (S (length calls')).
        change (Sum (take (S (S (length calls'))) (n :: ns)))
          with (n + Sum (take (S (length calls')) ns)). lia.
Qed.

(** The accepted counts fit between the cursor and the capacity. *)
Lemma AllocateSeq_accepted ns : ∀ h w calls out,
  NoWrap h ns →
  AllocateSeq ns h w = (calls, out) →
  AcceptedSum calls ≤ Z.max 0 (MaxNumDescriptors h - NumAllocatedDescriptors h).
Proof.
  induction ns as [|n ns IH]; intros h w calls out Hnw Hrun.
  - simpl in Hrun. simplify_eq. unfold AcceptedSum. simpl. lia.
  - destruct (AllocateSeq_cons _ _ _ _ _ _ Hnw Hrun)
      as [(Hgt & Hty & -> & ->)|(r & w' & calls' & Hrest & -> & Hr)].
    + unfold AcceptedSum. simpl. lia.
    + destruct (NoWrap_cons _ _ _ Hnw) as (Hc & Hn & _ & _ & Hnw').
      specialize (IH _ _ _ _ Hnw' Hrest).
      cbn [NumAllocatedDescriptors set_NumAllocatedDescriptors
             MaxNumDescriptors HeapType] in IH.
      unfold AcceptedSum in *. cbn [List.filter Returned].
      destruct Hr as [[Hle ->]|(Hgt & -> & _)].
      * rewrite bool_decide_eq_false_2 by (unfold INDEX_NONE; lia).
        cbn. unfold Sum in IH. lia.
      * rewrite bool_decide_eq_true_2 by done. cbn. unfold Sum in IH. lia.
Qed.

(** ** Overflow reporting *)

Lemma OverflowErrors_snoc tr s :
  OverflowErrors (tr ++ [ErrorViewHeapOverflow s]) = S (OverflowErrors tr).
Proof.
  unfold OverflowErrors. rewrite List.filter_app, length_app. simpl. lia.
Qed.

(** One call on a heap that is not a sampler heap. *)
Lemma Allocate_not_sampler n h w :
  HeapType h ≠ D3D12_DESCRIPTOR_HEAP_TYPE_SAMPLER →
  ∃ r h' w',
    Allocate n h w = Done (r, h', w') ∧
    HeapType h' = HeapType h ∧
    ((Trace w' = Trace w ∧
      (GD3D12ExplicitViewDescriptorHeapOverflowReported w ≠ 0 →
       GD3D12ExplicitViewDescriptorHeapOverflowReported w' ≠ 0)) ∨
     (GD3D12ExplicitViewDescriptorHeapOverflowReported w = 0 ∧
      GD3D12ExplicitViewDescriptorHeapOverflowReported w' ≠ 0 ∧
      ∃ s, Trace w' = Trace w ++ [ErrorViewHeapOverflow s])).
Proof.
  intros Hty. unfold Allocate, InterlockedAdd, InterlockedOr.
  cbn [HeapType MaxNumDescriptors set_NumAllocatedDescriptors].
  rewrite (decide_False (P := HeapType h = _)) by done.
  repeat case_decide; eexists _, _, _; (split; [reflexivity|]); (split; [done|]);
    cbn [Trace emit set_OverflowReported
           GD3D12ExplicitViewDescriptorHeapOverflowReported].
  - right. split; [done|]. split; [apply lor_1_nonzero|]. eauto.
  - left. split; [done|]. intros _. apply lor_1_nonzero.
  - left. done.
  - left. done.
Qed.

Lemma AllocateSeq_not_sampler ns : ∀ h w calls out,
  HeapType h ≠ D3D12_DESCRIPTOR_HEAP_TYPE_SAMPLER →
  AllocateSeq ns h w = (calls, out) →
  ∃ h' w',
    out = Done (h', w') ∧ length calls = length ns ∧
    (GD3D12ExplicitViewDescriptorHeapOverflowReported w ≠ 0 →
     Trace w' = Trace w) ∧
    (OverflowErrors (Trace w') ≤ OverflowErrors (Trace w) + 1)%nat.
Proof.
  induction ns as [|n ns IH]; intros h w calls out Hty Hrun.
  - simpl in Hrun. simplify_eq. eexists _, _.
    split; [done|]. split; [done|]. split; [done|lia].
  - cbn [AllocateSeq] in Hrun.
    destruct (Allocate_not_sampler n h w Hty) as (r & h1 & w1 & Hcall & Hty1 & Hw1).
    rewrite Hcall in Hrun.
    destruct (AllocateSeq ns h1 w1) as [calls' out'] eqn:Hrest. simplify_eq.
    destruct (IH h1 w1 _ _ ltac:(congruence) Hrest)
      as (h' & w' & -> & Hlen & Hset & Hcount).
    eexists _, _. split; [done|]. split; [simpl; lia|].
    destruct Hw1 as [[Htr Hflag]|(Hzero & Hflag & s & Htr)].
    + rewrite <- Htr. split; [|done]. intros Hw. apply Hset, Hflag, Hw.
    + split; [done|]. rewrite (Hset Hflag), Htr, OverflowErrors_snoc. lia.
Qed.

(** ** Doubles

    [SpecFloat] defines the sum and the order of binary64 numbers by
    programs on mantissas and exponents.  This section relates them to
    ordinary arithmetic on the values, counted in units of [2^-1074]
    ([Scaled]): a sum is the exact sum moved to a neighbouring point of
    the grid of doubles, and the order of finite doubles is the order of
    their values. *)

Section Doubles.

Import SpecFloat.

Lemma digits2_pos_log2 p : Z.pos (digits2_pos p) = Z.log2 (Z.pos p) + 1.
Proof.
  induction p as [p IH|p IH|]; cbn [digits2_pos].
  - rewrite Pos2Z.inj_succ, IH.
    change (Z.pos p~1) with (2 * Z.pos p + 1).
    rewrite Z.log2_succ_double by lia. lia.
  - rewrite Pos2Z.inj_succ, IH.
    change (Z.pos p~0) with (2 * Z.pos p).
    rewrite Z.log2_double by lia. lia.
  - reflexivity.
Qed.

Lemma log2_bounds a : 0 < a → 2 ^ Z.log2 a ≤ a < 2 ^ (Z.log2 a + 1).
Proof. intros H. pose proof (Z.log2_spec a H). rewrite <- Z.add_1_r in *. lia. Qed.

Lemma pow2_pos k : 0 < 2 ^ k ∨ k < 0.
Proof. destruct (Z_lt_le_dec k 0); [by right|left; by apply Z.pow_pos_nonneg]. Qed.

Lemma pow2_gt0 k : 0 ≤ k → 0 < 2 ^ k.
Proof. intros. by apply Z.pow_pos_nonneg. Qed.

Lemma pow2_le a b : a ≤ b → 0 ≤ a → 2 ^ a ≤ 2 ^ b.
Proof. intros. apply Z.pow_le_mono_r; lia. Qed.

Lemma pow2_lt a b : a < b → 0 ≤ a → 2 ^ a < 2 ^ b.
Proof. intros. apply Z.pow_lt_mono_r; lia. Qed.

Lemma pow2_split a b : 0 ≤ a → 0 ≤ b → 2 ^ (a + b) = 2 ^ a * 2 ^ b.
Proof. intros. by apply Z.pow_add_r. Qed.

(** A number below [2^b] has a logarithm below [b]. *)
Lemma log2_lt_pow a b : 0 < a → a < 2 ^ b → Z.log2 a < b.
Proof. intros Ha H. apply Z.log2_lt_pow2; lia. Qed.

Lemma log2_ge_pow a b : 0 ≤ b → 2 ^ b ≤ a → b ≤ Z.log2 a.
Proof. intros Hb H. apply Z.log2_le_pow2; [|done]. pose proof (pow2_gt0 b Hb). lia. Qed.

(** *** Valid binary64 numbers *)

Lemma bounded_spec m e :
  bounded 53 1024 m e = true ↔
  e = Z.max (Z.log2 (Z.pos m) + 1 + e - 53) (-1074) ∧ e ≤ 971.
Proof.
  unfold bounded, canonical_mantissa, fexp, emin.
  rewrite digits2_pos_log2.
  change (3 - 1024 - 53) with (-1074). change (1024 - 53) with 971.
  rewrite andb_true_iff, Z.eqb_eq, Z.leb_le. split; intros [H1 H2]; split; lia.
Qed.

Lemma bounded_facts m e :
  bounded 53 1024 m e = true →
  -1074 ≤ e ≤ 971 ∧ Z.pos m < 2 ^ 53 ∧ (-1074 < e → 2 ^ 52 ≤ Z.pos m).
Proof.
  intros [He Hmax]%bounded_spec.
  pose proof (log2_bounds (Z.pos m) ltac:(lia)) as [Hlo Hhi].
  pose proof (Z.log2_nonneg (Z.pos m)) as Hl.
  split; [lia|]. split.
  - assert (Z.log2 (Z.pos m) + 1 ≤ 53) by lia.
    eapply Z.lt_le_trans; [exact Hhi|]. apply pow2_le; lia.
  - intros Hsub. assert (Z.log2 (Z.pos m) = 52) as Hd by lia.
    rewrite Hd in Hlo. exact Hlo.
Qed.

(** *** Shifting right *)

Lemma iter_pos_nat {A} (f : A → A) p : ∀ x,
  iter_pos f p x = Nat.iter (Pos.to_nat p) f x.
Proof.
  assert (∀ n (x : A), Nat.iter n f (f x) = f (Nat.iter n f x)) as Hcomm.
  { induction n as [|n IH]; intros x; [done|].
    change (Nat.iter (S n) f (f x)) with (f (Nat.iter n f (f x))).
    by rewrite IH. }
  assert (∀ n m (x : A), Nat.iter n f (Nat.iter m f x) = Nat.iter (n + m) f x)
    as Hadd.
  { induction n as [|n IH]; intros m x; [done|].
    change (Nat.iter (S n) f (Nat.iter m f x))
      with (f (Nat.iter n f (Nat.iter m f x))).
    by rewrite IH. }
  induction p as [p IH|p IH|]; intros x; cbn [iter_pos].
  - rewrite !IH. rewrite !Hcomm, Hadd. rewrite Pos2Nat.inj_xI.
    change (f (Nat.iter (Pos.to_nat p + Pos.to_nat p) f x))
      with (Nat.iter (S (Pos.to_nat p + Pos.to_nat p)) f x).
    f_equal. lia.
  - rewrite !IH, Hadd. rewrite Pos2Nat.inj_xO. f_equal. lia.
  - done.
Qed.

Lemma shr_1_spec m r s :
  0 ≤ m →
  shr_1 {| shr_m := m; shr_r := r; shr_s := s |}
  = {| shr_m := m / 2; shr_r := Z.odd m; shr_s := r || s |}.
Proof.
  intros Hm. unfold shr_1.
  destruct m as [|[p|p|]|p]; try lia; cbn [Z.odd]; f_equal.
  - change (Z.pos p~1) with (2 * Z.pos p + 1). Z.div_mod_to_equations. lia.
  - change (Z.pos p~0) with (2 * Z.pos p). Z.div_mod_to_equations. lia.
Qed.

(** [k] steps of [shr_1] divide by [2^k]; the two sticky bits are clear
    exactly when the division is exact. *)
Lemma shr_iter_spec M : 0 ≤ M → ∀ k : nat,
  ∃ r s,
    Nat.iter k shr_1 {| shr_m := M; shr_r := false; shr_s := false |}
    = {| shr_m := M / 2 ^ Z.of_nat k; shr_r := r; shr_s := s |} ∧
    ((r = false ∧ s = false) ↔ M mod 2 ^ Z.of_nat k = 0).
Proof.
  intros HM. induction k as [|k (r & s & Hrun & Hbits)].
  - exists false, false. change (2 ^ Z.of_nat 0) with 1.
    change (Nat.iter 0 shr_1 ?x) with x.
    rewrite Z.div_1_r, Z.mod_1_r. done.
  - change (Nat.iter (S k) shr_1 ?x) with (shr_1 (Nat.iter k shr_1 x)).
    rewrite Hrun.
    pose proof (pow2_gt0 (Z.of_nat k) ltac:(lia)) as Hpos.
    rewrite shr_1_spec by (apply Z.div_pos; lia).
    exists (Z.odd (M / 2 ^ Z.of_nat k)), (r || s). split.
    + f_equal. rewrite Nat2Z.inj_succ, Z.pow_succ_r by lia.
      rewrite Z.div_div by lia. f_equal. lia.
    + rewrite Nat2Z.inj_succ, Z.pow_succ_r by lia.
      rewrite (Z.mul_comm 2), Z.rem_mul_r by lia.
      rewrite Zmod_odd. rewrite orb_false_iff.
      destruct (Z.odd (M / 2 ^ Z.of_nat k)).
      * split; [intros [? _]; done|].
        pose proof (Z.mod_pos_bound M (2 ^ Z.of_nat k) Hpos). lia.
      * rewrite Z.mul_0_r, Z.add_0_r. rewrite <- Hbits. tauto.
Qed.

Lemma shr_spec M e n :
  0 ≤ M → 0 < n →
  ∃ r s,
    shr {| shr_m := M; shr_r := false; shr_s := false |} e n
    = ({| shr_m := M / 2 ^ n; shr_r := r; shr_s := s |}, e + n) ∧
    ((r = false ∧ s = false) ↔ M mod 2 ^ n = 0).
Proof.
  intros HM Hn. destruct n as [|p|p]; try lia. unfold shr.
  rewrite iter_pos_nat.
  destruct (shr_iter_spec M HM (Pos.to_nat p)) as (r & s & Hrun & Hbits).
  rewrite positive_nat_Z in *. exists r, s. by rewrite Hrun.
Qed.

Lemma shr_nop mrs e n : n ≤ 0 → shr mrs e n = (mrs, e).
Proof. intros Hn. destruct n; try lia; done. Qed.

Lemma round_nearest_even_spec m r s :
  let l := loc_of_shr_record {| shr_m := m; shr_r := r; shr_s := s |} in
  (r = false ∧ s = false → round_nearest_even m l = m) ∧
  (round_nearest_even m l = m ∨ round_nearest_even m l = m + 1).
Proof.
  cbn zeta. destruct r, s; cbn; (split; [intros [? ?]; done|]); try tauto.
  destruct (Z.even m); tauto.
Qed.

Lemma iter_xO m d : Z.pos (Pos.iter xO m d) = Z.pos m * 2 ^ Z.pos d.
Proof.
  induction d as [|d IH] using Pos.peano_ind.
  - cbn [Pos.iter]. change (Z.pos m~0) with (2 * Z.pos m). change (2 ^ 1) with 2. lia.
  - rewrite Pos.iter_succ. change (Z.pos (Pos.iter xO m d)~0) with (2 * Z.pos (Pos.iter xO m d)).
    rewrite IH, Pos2Z.inj_succ, Z.pow_succ_r by lia. lia.
Qed.

Lemma shl_align_spec mx ex ex' :
  snd (shl_align mx ex ex') = Z.min ex ex' ∧
  Z.pos (fst (shl_align mx ex ex')) = Z.pos mx * 2 ^ (ex - Z.min ex ex').
Proof.
  unfold shl_align. destruct (ex' - ex) as [|d|d] eqn:Hd; cbn [fst snd].
  - replace (Z.min ex ex') with ex by lia. rewrite Z.sub_diag. change (2 ^ 0) with 1. lia.
  - replace (Z.min ex ex') with ex by lia. rewrite Z.sub_diag. change (2 ^ 0) with 1. lia.
  - replace (Z.min ex ex') with ex' by lia. split; [done|].
    rewrite iter_xO. f_equal. f_equal. lia.
Qed.

(** The canonical exponent of the magnitude [M * 2^ez]. *)
Lemma fexp_eq M ez :
  fexp 53 1024 (Z.pos (digits2_pos M) + ez)
  = Z.max (Z.log2 (Z.pos M) + 1 + ez - 53) (-1074).
Proof. unfold fexp, emin. rewrite digits2_pos_log2. lia. Qed.

(** A canonical mantissa at exponent [e] stays below [2^1024] exactly when
    [e] is at most 971. *)
Lemma canonical_overflow M e :
  -1074 ≤ e →
  e = Z.max (Z.log2 (Z.pos M) + 1 + e - 53) (-1074) →
  (e ≤ 971 → Z.pos M * 2 ^ (e + 1074) < 2 ^ 2098) ∧
  (971 < e → 2 ^ 2098 ≤ Z.pos M * 2 ^ (e + 1074)).
Proof.
  intros He Hcan.
  pose proof (log2_bounds (Z.pos M) ltac:(lia)) as [Hlo Hhi].
  pose proof (Z.log2_nonneg (Z.pos M)) as Hl.
  pose proof (pow2_gt0 (e + 1074) ltac:(lia)) as Hu.
  split; intros Hcmp.
  - assert (Z.pos M < 2 ^ 53) as HM.
    { eapply Z.lt_le_trans; [exact Hhi|]. apply pow2_le; lia. }
    replace 2098 with (53 + 2045) by lia. rewrite (pow2_split 53 2045) by lia.
    assert (2 ^ (e + 1074) ≤ 2 ^ 2045) by (apply pow2_le; lia).
    pose proof (pow2_gt0 53 ltac:(lia)). nia.
  - assert (Z.log2 (Z.pos M) = 52) as Hd by lia. rewrite Hd in Hlo.
    replace 2098 with (52 + 2046) by lia. rewrite (pow2_split 52 2046) by lia.
    assert (2 ^ 2046 ≤ 2 ^ (e + 1074)) by (apply pow2_le; lia).
    pose proof (pow2_gt0 52 ltac:(lia)). pose proof (pow2_gt0 2046 ltac:(lia)). nia.
Qed.

(** *** Rounding a magnitude *)

Lemma RoundsTo_finite s (p : positive) e :
  -1074 ≤ e →
  e = Z.max (Z.log2 (Z.pos p) + 1 + e - 53) (-1074) →
  RoundsTo (if e <=? 971 then S754_finite s p e else S754_infinity s)
    s (Z.pos p * 2 ^ (e + 1074)).
Proof.
  intros He Hcan. destruct (canonical_overflow p e He Hcan) as [Hfin Hinf].
  unfold RoundsTo. destruct (Z.leb_spec e 971) as [Hle|Hgt].
  - right. split; [by apply Hfin|]. exists p, e. split; [done|]. split; [|done].
    apply bounded_spec. done.
  - left. split; [by apply Hinf|done].
Qed.

(** A mantissa that is canonical at its exponent is kept as it is. *)
Lemma binary_round_aux_exact s M ez :
  -1074 ≤ ez →
  ez = Z.max (Z.log2 (Z.pos M) + 1 + ez - 53) (-1074) →
  RoundsTo (binary_round_aux 53 1024 s (Z.pos M) ez loc_Exact)
    s (Z.pos M * 2 ^ (ez + 1074)).
Proof.
  intros He Hcan. unfold binary_round_aux, shr_fexp.
  cbn [Zdigits2 shr_record_of_loc]. rewrite fexp_eq, <- Hcan, Z.sub_diag.
  cbn [shr shr_m loc_of_shr_record round_nearest_even Zdigits2 shr_record_of_loc].
  rewrite fexp_eq, <- Hcan, Z.sub_diag. cbn [shr shr_m].
  change (1024 - 53) with 971. by apply RoundsTo_finite.
Qed.

Lemma log2_52 m : 2 ^ 52 ≤ m < 2 ^ 53 → Z.log2 m = 52.
Proof. intros H. apply Z.log2_unique; [lia|]. exact H. Qed.

(** A mantissa with more than 53 bits is shifted right and rounded. *)
Lemma binary_round_aux_inexact s M ez :
  -1074 ≤ ez → 52 < Z.log2 (Z.pos M) →
  let n := Z.log2 (Z.pos M) - 52 in
  let m1 := Z.pos M / 2 ^ n in
  ∃ m2,
    (m2 = m1 ∨ (m2 = m1 + 1 ∧ Z.pos M mod 2 ^ n ≠ 0)) ∧
    RoundsTo (binary_round_aux 53 1024 s (Z.pos M) ez loc_Exact)
      s (m2 * 2 ^ (ez + n + 1074)).
Proof.
  intros He Hd n m1.
  pose proof (log2_bounds (Z.pos M) ltac:(lia)) as [Hlo Hhi].
  pose proof (pow2_gt0 n ltac:(lia)) as Hn.
  assert (2 ^ 52 ≤ m1 < 2 ^ 53) as Hm1.
  { unfold m1. split.
    - apply Z.div_le_lower_bound; [lia|].
      rewrite <- pow2_split by lia. replace (n + 52) with (Z.log2 (Z.pos M)) by lia.
      done.
    - apply Z.div_lt_upper_bound; [lia|].
      rewrite <- pow2_split by lia.
      replace (n + 53) with (Z.log2 (Z.pos M) + 1) by lia. done. }
  unfold binary_round_aux, shr_fexp. cbn [Zdigits2 shr_record_of_loc].
  rewrite fexp_eq.
  replace (Z.max (Z.log2 (Z.pos M) + 1 + ez - 53) (-1074) - ez) with n by lia.
  destruct (shr_spec (Z.pos M) ez n ltac:(lia) ltac:(lia)) as (r & s' & -> & Hbits).
  fold m1. cbn [shr_m].
  destruct (round_nearest_even_spec m1 r s') as [Hexact Hround]. cbn zeta in *.
  set (m2 := round_nearest_even m1 _) in *.
  assert (m2 = m1 ∨ (m2 = m1 + 1 ∧ Z.pos M mod 2 ^ n ≠ 0)) as Hm2.
  { destruct (decide (r = false ∧ s' = false)) as [Hb|Hb].
    - left. by apply Hexact.
    - destruct Hround as [H|H]; [by left|]. right. split; [done|].
      intros H0. apply Hb. by apply Hbits. }
  exists m2. split; [done|].
  assert (2 ^ 52 ≤ m2 ≤ 2 ^ 53) as Hr by lia.
  destruct m2 as [|p2|p2] eqn:Hp2; try lia.
  cbn [Zdigits2]. rewrite fexp_eq.
  destruct (decide (Z.pos p2 < 2 ^ 53)) as [Hlt|Hge].
  - rewrite (log2_52 (Z.pos p2)) by lia.
    replace (Z.max (52 + 1 + (ez + n) - 53) (-1074) - (ez + n)) with 0 by lia.
    cbn [shr shr_m]. change (1024 - 53) with 971.
    apply RoundsTo_finite; [lia|]. rewrite (log2_52 (Z.pos p2)) by lia. lia.
  - assert (Z.pos p2 = 2 ^ 53) as Hp by lia.
    assert (Z.log2 (Z.pos p2) = 53) as -> by (rewrite Hp; reflexivity).
    replace (Z.max (53 + 1 + (ez + n) - 53) (-1074) - (ez + n)) with 1 by lia.
    destruct (shr_spec (Z.pos p2) (ez + n) 1 ltac:(lia) ltac:(lia))
      as (r3 & s3 & -> & _).
    cbn [shr_m]. rewrite Hp. change (2 ^ 53 / 2 ^ 1) with (Z.pos (2 ^ 52)).
    change (1024 - 53) with 971.
    replace (2 ^ 53 * 2 ^ (ez + n + 1074))
      with (Z.pos (2 ^ 52) * 2 ^ (ez + n + 1 + 1074)).
    + apply RoundsTo_finite; [lia|].
      assert (Z.log2 (Z.pos (2 ^ 52)) = 52) as -> by reflexivity. lia.
    + replace (ez + n + 1 + 1074) with (1 + (ez + n + 1074)) by lia.
      rewrite pow2_split by lia.
      change (Z.pos (2 ^ 52)) with (2 ^ 52). change (2 ^ 53) with (2 ^ 52 * 2 ^ 1).
      lia.
Qed.

(** [binary_round] in units of [2^-1074]: the magnitude [A] becomes a
    neighbouring multiple of the unit in the last place [u], and stays as
    it is when it is such a multiple. *)
Lemma binary_round_RoundsTo s M ez :
  -1074 ≤ ez →
  let A := Z.pos M * 2 ^ (ez + 1074) in
  let u := 2 ^ Z.max (Z.log2 A - 52) 0 in
  ∃ R, (R = A / u * u ∨ (R = (A / u + 1) * u ∧ A mod u ≠ 0)) ∧
       RoundsTo (binary_round 53 1024 s M ez) s R.
Proof.
  intros He A u.
  assert (Z.log2 A = ez + 1074 + Z.log2 (Z.pos M)) as HlogA
    by (unfold A; apply Z.log2_mul_pow2; lia).
  assert (u = 2 ^ Z.max (Z.log2 A - 52) 0) as Hudef by done.
  assert (A = Z.pos M * 2 ^ (ez + 1074)) as HAdef by done.
  clearbody u A.
  pose proof (Z.log2_nonneg (Z.pos M)) as Hl.
  unfold binary_round.
  pose proof (shl_align_spec M ez (fexp 53 1024 (Z.pos (digits2_pos M) + ez)))
    as [Hez Hmz].
  destruct (shl_align M ez _) as [mz ez']. cbn [fst snd] in Hez, Hmz.
  rewrite fexp_eq in Hez, Hmz.
  destruct (decide (Z.log2 (Z.pos M) ≤ 52)) as [Hsmall|Hbig].
  - (* enough room: the mantissa is shifted left, nothing is lost *)
    set (E := Z.max (Z.log2 (Z.pos M) + 1 + ez - 53) (-1074)) in *.
    assert (E = Z.max (Z.log2 (Z.pos M) + 1 + ez - 53) (-1074)) as HE by done.
    clearbody E.
    assert (ez' = E) as -> by lia.
    rewrite Z.min_r in Hmz by lia.
    assert (Z.log2 (Z.pos mz) = ez - E + Z.log2 (Z.pos M)) as Hlogz
      by (rewrite Hmz; apply Z.log2_mul_pow2; lia).
    exists A. split.
    + left. assert (A = Z.pos mz * u) as HA.
      { rewrite HAdef, Hudef, Hmz, HlogA.
        replace (Z.max (ez + 1074 + Z.log2 (Z.pos M) - 52) 0) with (E + 1074) by lia.
        rewrite <- Z.mul_assoc, <- pow2_split by lia. f_equal. f_equal. lia. }
      rewrite HA at 2. rewrite Z.div_mul; [done|]. rewrite Hudef.
      pose proof (pow2_gt0 (Z.max (Z.log2 A - 52) 0) ltac:(lia)). lia.
    + assert (A = Z.pos mz * 2 ^ (E + 1074)) as ->.
      { rewrite HAdef, Hmz, <- Z.mul_assoc, <- pow2_split by lia.
        f_equal. f_equal. lia. }
      apply binary_round_aux_exact; [lia|]. rewrite Hlogz. lia.
  - (* more than 53 bits: the mantissa is shifted right and rounded *)
    assert (ez' = ez) as -> by lia.
    rewrite Z.min_l, Z.sub_diag in Hmz by lia.
    assert (mz = M) as -> by (change (2 ^ 0) with 1 in Hmz; lia).
    destruct (binary_round_aux_inexact s M ez He ltac:(lia)) as (m2 & Hm2 & Hr).
    cbn zeta in Hm2, Hr.
    set (n := Z.log2 (Z.pos M) - 52) in *.
    assert (0 < n) as Hnpos by (unfold n; lia).
    pose proof (pow2_gt0 n ltac:(lia)) as Hn.
    pose proof (pow2_gt0 (ez + 1074) ltac:(lia)) as Hc.
    assert (n = Z.log2 (Z.pos M) - 52) as Hndef by done. clearbody n.
    assert (u = 2 ^ n * 2 ^ (ez + 1074)) as Hu.
    { rewrite Hudef, HlogA, <- pow2_split by lia. f_equal. lia. }
    assert (A / u = Z.pos M / 2 ^ n) as Hdiv.
    { rewrite Hu, HAdef. apply Z.div_mul_cancel_r; lia. }
    assert (A mod u = (Z.pos M mod 2 ^ n) * 2 ^ (ez + 1074)) as Hmod.
    { rewrite Hu, HAdef. apply Z.mul_mod_distr_r; lia. }
    exists (m2 * 2 ^ (ez + n + 1074)). split; [|done].
    replace (2 ^ (ez + n + 1074)) with u
      by (rewrite Hu, <- pow2_split by lia; f_equal; lia).
    rewrite Hdiv, Hmod. destruct Hm2 as [->|[-> Hne]]; [by left|].
    right. split; [done|]. nia.
Qed.

(** *** Comparison *)

Lemma scale_lt (ma mb c p t : Z) :
  0 < c → 2 ≤ p → 0 < t → ma < 2 * t → t ≤ mb → ma * c < mb * (p * c).
Proof.
  intros Hc Hp Ht Hma Hmb.
  assert (ma * c < 2 * t * c) by (apply Z.mul_lt_mono_pos_r; lia).
  assert (2 * t ≤ mb * p) by nia.
  assert (2 * t * c ≤ mb * p * c) by (apply Z.mul_le_mono_nonneg_r; lia).
  lia.
Qed.

Lemma canonical_compare m1 e1 m2 e2 :
  bounded 53 1024 m1 e1 = true → bounded 53 1024 m2 e2 = true →
  match e1 ?= e2 with
  | Lt => Lt
  | Gt => Gt
  | Eq => Pos.compare_cont Eq m1 m2
  end
  = (Z.pos m1 * 2 ^ (e1 + 1074) ?= Z.pos m2 * 2 ^ (e2 + 1074)).
Proof.
  intros H1 H2.
  destruct (bounded_facts _ _ H1) as (He1 & Hm1 & Hn1).
  destruct (bounded_facts _ _ H2) as (He2 & Hm2 & Hn2).
  assert (∀ ma ea mb eb,
            -1074 ≤ ea → ea < eb → Z.pos ma < 2 ^ 53 → 2 ^ 52 ≤ Z.pos mb →
            Z.pos ma * 2 ^ (ea + 1074) < Z.pos mb * 2 ^ (eb + 1074)) as Hlt.
  { intros ma ea mb eb Hea Hab Hma Hmb.
    pose proof (pow2_gt0 (ea + 1074) ltac:(lia)) as Ha.
    pose proof (pow2_gt0 (eb + 1074) ltac:(lia)) as Hb.
    assert (2 ^ (eb + 1074) = 2 ^ (eb - ea) * 2 ^ (ea + 1074)) as ->
      by (rewrite <- pow2_split by lia; f_equal; lia).
    assert (2 ^ 1 ≤ 2 ^ (eb - ea)) as Hstep.
    { apply pow2_le; [clear -Hab; lia|done]. }
    change (2 ^ 1) with 2 in Hstep.
    change (2 ^ 53) with (2 * 2 ^ 52) in Hma.
    pose proof (pow2_gt0 52 ltac:(lia)) as Ht.
    by apply (scale_lt _ _ _ _ (2 ^ 52)). }
  destruct (Z.compare_spec e1 e2) as [->|Hc|Hc].
  - rewrite <- Zmult_compare_compat_r
      by (apply Z.lt_gt, pow2_gt0; lia).
    reflexivity.
  - symmetry. apply Z.compare_lt_iff. apply Hlt; lia.
  - symmetry. apply Z.compare_gt_iff. apply Hlt; lia.
Qed.

(** On finite doubles [<=] compares the values. *)
Lemma double_le_Scaled x y :
  IsDouble x → IsDouble y → IsFinite x = true → IsFinite y = true →
  double_le x y = (Scaled x <=? Scaled y).
Proof.
  unfold IsDouble, double_le, SFleb, SFcompare.
  intros Hx Hy Fx Fy.
  destruct x as [sx|sx| |sx mx ex], y as [sy|sy| |sy my ey]; try done;
    cbn [valid_binary Scaled] in *.
  - destruct sy; cbn [cond_Zopp].
    + pose proof (bounded_facts _ _ Hy) as (He & _).
      pose proof (pow2_gt0 (ey + 1074) ltac:(lia)).
      symmetry. apply Z.leb_gt. nia.
    + pose proof (bounded_facts _ _ Hy) as (He & _).
      pose proof (pow2_gt0 (ey + 1074) ltac:(lia)).
      symmetry. apply Z.leb_le. nia.
  - destruct sx; cbn [cond_Zopp].
    + pose proof (bounded_facts _ _ Hx) as (He & _).
      pose proof (pow2_gt0 (ex + 1074) ltac:(lia)).
      symmetry. apply Z.leb_le. nia.
    + pose proof (bounded_facts _ _ Hx) as (He & _).
      pose proof (pow2_gt0 (ex + 1074) ltac:(lia)).
      symmetry. apply Z.leb_gt. nia.
  - pose proof (bounded_facts _ _ Hx) as (Hex & _).
    pose proof (bounded_facts _ _ Hy) as (Hey & _).
    pose proof (pow2_gt0 (ex + 1074) ltac:(lia)).
    pose proof (pow2_gt0 (ey + 1074) ltac:(lia)).
    destruct sx, sy; cbn [cond_Zopp].
    + assert (match ex ?= ey with
              | Eq => CompOpp (Pos.compare_cont Eq mx my)
              | Lt => Gt
              | Gt => Lt
              end
              = CompOpp match ex ?= ey with
                        | Eq => Pos.compare_cont Eq mx my
                        | Lt => Lt
                        | Gt => Gt
                        end) as -> by (by destruct (ex ?= ey)).
      rewrite (canonical_compare _ _ _ _ Hx Hy).
      unfold Z.leb. rewrite Z.compare_opp.
      rewrite (Z.compare_antisym (Z.pos mx * _)).
      by destruct (Z.pos mx * 2 ^ (ex + 1074) ?= Z.pos my * 2 ^ (ey + 1074)).
    + symmetry. apply Z.leb_le. nia.
    + symmetry. apply Z.leb_gt. nia.
    + rewrite (canonical_compare _ _ _ _ Hx Hy). unfold Z.leb.
      by destruct (Z.pos mx * 2 ^ (ex + 1074) ?= Z.pos my * 2 ^ (ey + 1074)).
Qed.

(** *** Addition *)

(** A valid finite double is a multiple of its own unit in the last place
    and lies below [2^1024]. *)
Lemma valid_finite_facts s m e :
  bounded 53 1024 m e = true →
  let A := Z.pos m * 2 ^ (e + 1074) in
  let u := 2 ^ Z.max (Z.log2 A - 52) 0 in
  0 < A ∧ A < 2 ^ 2098 ∧ A / u * u = A ∧
  RoundsTo (S754_finite s m e) s A.
Proof.
  intros Hb A u.
  pose proof Hb as [Hcan Hmax]%bounded_spec.
  pose proof (bounded_facts _ _ Hb) as (He & Hm & _).
  pose proof (pow2_gt0 (e + 1074) ltac:(lia)) as Hc.
  assert (0 < A) as HA by (unfold A; lia).
  destruct (canonical_overflow m e ltac:(lia) Hcan) as [Hfin _].
  assert (Z.log2 A = e + 1074 + Z.log2 (Z.pos m)) as HlogA
    by (unfold A; apply Z.log2_mul_pow2; lia).
  assert (u = 2 ^ (e + 1074)) as Hu by (unfold u; f_equal; lia).
  split; [done|]. split; [by apply Hfin|]. split.
  - rewrite Hu. unfold A. rewrite Z.div_mul by lia. done.
  - right. split; [by apply Hfin|]. by exists m, e.
Qed.

(** [double_add] on finite doubles, in units of [2^-1074]: an exact sum of
    zero gives a zero; otherwise the magnitude [A] of the exact sum
    becomes a neighbouring multiple of its unit in the last place [u], and
    is kept when it is such a multiple (or infinity when that reaches
    [2^1024]). *)
Lemma double_add_spec x y :
  IsDouble x → IsDouble y → IsFinite x = true → IsFinite y = true →
  let S := Scaled x + Scaled y in
  (S = 0 → ∃ z, double_add x y = S754_zero z) ∧
  (S ≠ 0 →
   let A := Z.abs S in
   let u := 2 ^ Z.max (Z.log2 A - 52) 0 in
   ∃ R, (R = A / u * u ∨ (R = (A / u + 1) * u ∧ A mod u ≠ 0)) ∧
        RoundsTo (double_add x y) (S <? 0) R).
Proof.
  unfold IsDouble, double_add. intros Hx Hy Fx Fy.
  assert (∀ s m e, bounded 53 1024 m e = true →
            let S := cond_Zopp s (Z.pos m * 2 ^ (e + 1074)) in
            S ≠ 0 ∧
            let A := Z.abs S in
            let u := 2 ^ Z.max (Z.log2 A - 52) 0 in
            ∃ R, (R = A / u * u ∨ (R = (A / u + 1) * u ∧ A mod u ≠ 0)) ∧
                 RoundsTo (S754_finite s m e) (S <? 0) R) as Hself.
  { intros s m e Hb. destruct (valid_finite_facts s m e Hb) as (HA & Hlt & Hdiv & Hr).
    cbn zeta in *.
    set (A := Z.pos m * 2 ^ (e + 1074)) in *.
    assert (Z.abs (cond_Zopp s A) = A) as Habs by (destruct s; cbn; lia).
    assert ((cond_Zopp s A <? 0) = s) as Hsign.
    { destruct s; cbn [cond_Zopp]; [apply Z.ltb_lt|apply Z.ltb_ge]; lia. }
    split; [destruct s; cbn; lia|].
    rewrite Habs, Hsign. exists A. split; [left; by rewrite Hdiv|done]. }
  destruct x as [sx|sx| |sx mx ex], y as [sy|sy| |sy my ey]; try done;
    cbn [valid_binary Scaled SFadd] in *.
  - (* zero + zero *)
    split; [|done]. intros _. destruct sx, sy; eauto.
  - (* zero + finite *)
    rewrite Z.add_0_l. destruct (Hself sy my ey Hy) as [Hne Hr]. split; [done|].
    intros _. exact Hr.
  - (* finite + zero *)
    rewrite Z.add_0_r. destruct (Hself sx mx ex Hx) as [Hne Hr]. split; [done|].
    intros _. exact Hr.
  - (* finite + finite *)
    pose proof (bounded_facts _ _ Hx) as (Hex & _).
    pose proof (bounded_facts _ _ Hy) as (Hey & _).
    set (ez := Z.min ex ey).
    assert (ez = Z.min ex ey) as Hez by done. clearbody ez.
    pose proof (shl_align_spec mx ex ez) as [_ HX].
    pose proof (shl_align_spec my ey ez) as [_ HY].
    rewrite Z.min_r in HX, HY by lia.
    set (X := Z.pos (fst (shl_align mx ex ez))) in *.
    set (Y := Z.pos (fst (shl_align my ey ez))) in *.
    pose proof (pow2_gt0 (ez + 1074) ltac:(lia)) as Hc.
    assert (Z.pos mx * 2 ^ (ex + 1074) = X * 2 ^ (ez + 1074)) as ->.
    { rewrite HX, <- Z.mul_assoc, <- pow2_split by lia. f_equal. f_equal. lia. }
    assert (Z.pos my * 2 ^ (ey + 1074) = Y * 2 ^ (ez + 1074)) as ->.
    { rewrite HY, <- Z.mul_assoc, <- pow2_split by lia. f_equal. f_equal. lia. }
    assert (cond_Zopp sx (X * 2 ^ (ez + 1074)) + cond_Zopp sy (Y * 2 ^ (ez + 1074))
            = (cond_Zopp sx X + cond_Zopp sy Y) * 2 ^ (ez + 1074)) as ->
      by (destruct sx, sy; cbn [cond_Zopp]; lia).
    clearbody X Y.
    destruct (cond_Zopp sx X + cond_Zopp sy Y) as [|M|M]; cbn [binary_normalize].
    + split; [eauto|]. intros Hne. by destruct Hne.
    + split; [lia|]. intros _.
      rewrite Z.abs_eq by lia.
      assert ((Z.pos M * 2 ^ (ez + 1074) <? 0) = false) as -> by (apply Z.ltb_ge; lia).
      apply binary_round_RoundsTo. lia.
    + split; [lia|]. intros _.
      assert (Z.abs (Z.neg M * 2 ^ (ez + 1074)) = Z.pos M * 2 ^ (ez + 1074)) as ->
        by lia.
      assert ((Z.neg M * 2 ^ (ez + 1074) <? 0) = true) as -> by (apply Z.ltb_lt; lia).
      apply binary_round_RoundsTo. lia.
Qed.

(** *** Order of a rounded sum *)

Lemma round_down_ge A u U c :
  0 < u → 0 ≤ c ≤ A → U ≤ A → U mod u = 0 →
  (c mod u = 0 ∨ c < U) → c ≤ A / u * u.
Proof.
  intros Hu Hc HU HUu Hgrid.
  assert (∀ d, d mod u = 0 → d ≤ A → d ≤ A / u * u) as Hmul.
  { intros d Hd HdA.
    rewrite (Z.div_mod d u), Hd, Z.add_0_r, (Z.mul_comm u) by lia.
    apply Z.mul_le_mono_nonneg_r; [lia|]. apply Z.div_le_mono; lia. }
  destruct Hgrid as [Hd|Hlt]; [apply Hmul; [done|lia]|].
  specialize (Hmul U HUu HU). lia.
Qed.

Lemma round_up_le A u c :
  0 < u → A ≤ c → c mod u = 0 → A mod u ≠ 0 → (A / u + 1) * u ≤ c.
Proof.
  intros Hu Hc Hcu HAu.
  pose proof (Z.div_mod c u ltac:(lia)) as Ec. rewrite Hcu, Z.add_0_r in Ec.
  pose proof (Z.div_mod A u ltac:(lia)) as EA.
  pose proof (Z.mod_pos_bound A u Hu) as Hr.
  destruct (Z_lt_le_dec (A / u) (c / u)) as [Hlt|Hge].
  - assert ((A / u + 1) * u ≤ c / u * u)
      by (apply Z.mul_le_mono_nonneg_r; lia).
    lia.
  - assert (u * (c / u) ≤ u * (A / u)) by (apply Z.mul_le_mono_nonneg_l; lia).
    lia.
Qed.

Lemma round_down_gt A u : 0 < u → A - u < A / u * u.
Proof.
  intros Hu. pose proof (Z.div_mod A u ltac:(lia)) as EA.
  pose proof (Z.mod_pos_bound A u Hu). lia.
Qed.

(** A double is a multiple of [2^k] unless it lies below [2^(k+52)]. *)
Lemma Scaled_grid c k :
  IsDouble c → 0 ≤ k →
  Scaled c mod 2 ^ k = 0 ∨ Z.abs (Scaled c) < 2 ^ (k + 52).
Proof.
  unfold IsDouble. intros Hc Hk.
  destruct c as [s|s| |s m e]; cbn [Scaled]; try (left; apply Z.mod_0_l;
    pose proof (pow2_gt0 k Hk); lia).
  cbn [valid_binary] in Hc.
  pose proof (bounded_facts _ _ Hc) as (He & Hm & _).
  pose proof (pow2_gt0 k Hk) as Hpk.
  destruct (Z_le_gt_dec k (e + 1074)) as [Hle|Hgt].
  - left.
    assert (cond_Zopp s (Z.pos m * 2 ^ (e + 1074))
            = cond_Zopp s (Z.pos m * 2 ^ (e + 1074 - k)) * 2 ^ k) as ->.
    { replace (e + 1074) with ((e + 1074 - k) + k) at 1 by lia.
      rewrite pow2_split by lia. destruct s; cbn [cond_Zopp]; lia. }
    apply Z.mod_mul. lia.
  - right.
    assert (Z.abs (cond_Zopp s (Z.pos m * 2 ^ (e + 1074)))
            = Z.pos m * 2 ^ (e + 1074)) as ->.
    { pose proof (pow2_gt0 (e + 1074) ltac:(lia)). destruct s; cbn [cond_Zopp]; lia. }
    pose proof (pow2_gt0 (e + 1074) ltac:(lia)) as Hpe.
    apply Z.lt_le_trans with (2 ^ 53 * 2 ^ (e + 1074)).
    + apply Z.mul_lt_mono_pos_r; lia.
    + rewrite <- pow2_split by lia. apply pow2_le; lia.
Qed.

Lemma Scaled_bound c : IsDouble c → Z.abs (Scaled c) < 2 ^ 2098.
Proof.
  unfold IsDouble. intros Hc.
  destruct c as [s|s| |s m e]; cbn [Scaled]; try (cbn; lia).
  cbn [valid_binary] in Hc.
  destruct (valid_finite_facts s m e Hc) as (HA & Hlt & _).
  destruct s; cbn [cond_Zopp]; lia.
Qed.

(** What [RoundsTo] says of the result as a double. *)
Lemma RoundsTo_cases r s R :
  RoundsTo r s R →
  r = S754_infinity s
  ∨ (IsDouble r ∧ IsFinite r = true ∧ 0 < R < 2 ^ 2098
     ∧ Scaled r = cond_Zopp s R).
Proof.
  intros [[_ ->]|[Hlt (m & e & -> & Hb & <-)]]; [by left|right].
  pose proof (bounded_facts _ _ Hb) as (He & _).
  pose proof (pow2_gt0 (e + 1074) ltac:(lia)).
  repeat split; try done. lia.
Qed.

(** The grid of the sum's magnitude: [2^k] with [k = max (log2 A - 52) 0]
    divides the first power of two not above [A], when [k] is positive. *)
Lemma grid_top A :
  0 < A →
  let k := Z.max (Z.log2 A - 52) 0 in
  0 ≤ k ∧ 0 < 2 ^ k ∧
  (k = 0 ∨ (2 ^ (k + 52) ≤ A ∧ 2 ^ (k + 52) mod 2 ^ k = 0)).
Proof.
  intros HA k. pose proof (log2_bounds A HA) as [Hlo _].
  assert (0 ≤ k) as Hk by lia.
  split; [done|]. split; [by apply pow2_gt0|].
  destruct (decide (k = 0)) as [|Hne]; [by left|right].
  assert (k + 52 = Z.log2 A) as E by lia.
  split; [by rewrite E|].
  rewrite (Z.add_comm k), pow2_split by lia. apply Z.mod_mul.
  pose proof (pow2_gt0 k Hk). lia.
Qed.

(** A sum that is at most a double stays at most that double after
    rounding: rounding is monotone and the double is its own rounding. *)
Lemma double_add_le_upper a b c :
  IsDouble a → IsDouble b → IsDouble c →
  IsFinite a = true → IsFinite b = true → IsFinite c = true →
  Scaled a + Scaled b ≤ Scaled c →
  double_le (double_add a b) c = true.
Proof.
  intros Ha Hb Hc Fa Fb Fc Hle.
  destruct (double_add_spec a b Ha Hb Fa Fb) as [Hz Hnz]. cbn zeta in *.
  pose proof (Scaled_bound c Hc) as Hcb.
  set (S := Scaled a + Scaled b) in *.
  destruct (decide (S = 0)) as [HS|HS].
  { destruct (Hz HS) as [z ->].
    rewrite double_le_Scaled; [|done..]. cbn [Scaled]. apply Z.leb_le. lia. }
  destruct (Hnz HS) as (R & HR & Hround). clear Hz Hnz.
  destruct (grid_top (Z.abs S) ltac:(lia)) as (Hk & Hu & Htop). cbn zeta in Htop.
  set (k := Z.max (Z.log2 (Z.abs S) - 52) 0) in *.
  pose proof (Scaled_grid c k Hc Hk) as Hgrid.
  set (u := 2 ^ k) in *.
  assert (u = 2 ^ k) as Hudef by done.
  assert (k = 0 → u = 1) as Hu1 by (intros ->; done).
  clearbody u. clearbody k.
  destruct (RoundsTo_cases _ _ _ Hround) as [Hinf|(Vr & Fr & HRb & HSr)].
  - (* the sum overflowed *)
    assert (2 ^ 2098 ≤ R) as Hbig.
    { destruct Hround as [[Hbig _]|[_ (m & e & E & _)]]; [done|congruence]. }
    destruct HR as [HR|[HR Hmod]].
    + destruct (Z.ltb_spec S 0) as [Hneg|Hpos].
      * rewrite Hinf. by destruct c.
      * exfalso. rewrite Z.abs_eq in HR by lia.
        pose proof (Z.div_mod S u ltac:(lia)).
        pose proof (Z.mod_pos_bound S u Hu). lia.
    + destruct (Z.ltb_spec S 0) as [Hneg|Hpos].
      * rewrite Hinf. by destruct c.
      * exfalso. rewrite Z.abs_eq in HR, Hmod, Htop by lia.
        assert (Scaled c mod u = 0) as Hcu.
        { destruct Htop as [->%Hu1|[Htop _]]; [apply Z.mod_1_r|].
          destruct Hgrid as [|Hgrid]; [done|]. lia. }
        pose proof (round_up_le S u (Scaled c) Hu Hle Hcu Hmod). lia.
  - rewrite double_le_Scaled; [|done..]. rewrite HSr. apply Z.leb_le.
    destruct (Z.ltb_spec S 0) as [Hneg|Hpos]; cbn [cond_Zopp].
    + (* negative sum: the magnitude shrinks at most to the grid below *)
      rewrite Z.abs_neq in HR, Htop by lia.
      destruct (Z_le_gt_dec 0 (Scaled c)) as [|Hcneg]; [lia|].
      assert (- Scaled c ≤ - S / u * u) as Hdown.
      { destruct Htop as [->%Hu1|[Htop Htopu]].
        - rewrite Z.div_1_r. lia.
        - apply (round_down_ge (- S) u (2 ^ (k + 52))); try done; try lia.
          destruct Hgrid as [Hcu|Hlt]; [left|right; lia].
          apply Z.mod_divide; [lia|].
          apply Z.divide_opp_r, Z.mod_divide; [lia|done]. }
      destruct HR as [->| [-> _]]; [lia|].
      assert (- S / u * u ≤ (- S / u + 1) * u) by lia. lia.
    + rewrite Z.abs_eq in HR, Htop by lia.
      destruct HR as [->|[-> Hmod]].
      * pose proof (Z.div_mod S u ltac:(lia)).
        pose proof (Z.mod_pos_bound S u Hu). lia.
      * assert (Scaled c mod u = 0) as Hcu.
        { destruct Htop as [->%Hu1|[Htop _]]; [apply Z.mod_1_r|].
          destruct Hgrid as [|Hgrid]; [done|]. lia. }
        apply (round_up_le S u (Scaled c) Hu Hle Hcu Hmod).
Qed.

(** Adding a positive double that is at least one unit in the last place
    of the sum gives a double above the first operand. *)
Lemma double_add_gt_lower a b :
  IsDouble a → IsDouble b → IsFinite a = true → IsFinite b = true →
  0 ≤ Scaled a → 0 < Scaled b →
  2 ^ Z.max (Z.log2 (Scaled a + Scaled b) - 52) 0 ≤ Scaled b →
  double_le (double_add a b) a = false.
Proof.
  intros Ha Hb Fa Fb Ha0 Hb0 Hulp.
  destruct (double_add_spec a b Ha Hb Fa Fb) as [_ Hnz]. cbn zeta in *.
  set (S := Scaled a + Scaled b) in *.
  assert (S = Scaled a + Scaled b) as HSdef by done. clearbody S.
  destruct (Hnz ltac:(lia)) as (R & HR & Hround). clear Hnz.
  rewrite Z.abs_eq in HR by lia.
  assert ((S <? 0) = false) as Hsign by (apply Z.ltb_ge; lia).
  rewrite Hsign in Hround.
  destruct (grid_top S ltac:(lia)) as (Hk & Hu & _).
  set (u := 2 ^ Z.max (Z.log2 S - 52) 0) in *. clearbody u.
  pose proof (round_down_gt S u Hu) as Hdown.
  destruct (RoundsTo_cases _ _ _ Hround) as [Hinf|(Vr & Fr & HRb & HSr)].
  - rewrite Hinf. by destruct a.
  - rewrite double_le_Scaled; [|done..]. rewrite HSr. cbn [cond_Zopp].
    apply Z.leb_gt.
    destruct HR as [->|[-> _]]; [lia|].
    assert (S / u * u ≤ (S / u + 1) * u) by lia. lia.
Qed.

(** *** The values of doubles as rationals *)

Lemma DoubleValue_lt x y :
  (DoubleValue x < DoubleValue y)%Q ↔ Scaled x < Scaled y.
Proof.
  unfold DoubleValue, Qlt. cbn [Qnum Qden].
  split; intros H.
  - eapply Z.mul_lt_mono_pos_r; [|exact H]. done.
  - apply Z.mul_lt_mono_pos_r; done.
Qed.

Lemma DoubleValue_le x y :
  (DoubleValue x <= DoubleValue y)%Q ↔ Scaled x ≤ Scaled y.
Proof.
  unfold DoubleValue, Qle. cbn [Qnum Qden].
  split; intros H.
  - eapply Z.mul_le_mono_pos_r; [|exact H]. done.
  - apply Z.mul_le_mono_pos_r; done.
Qed.

Lemma pos_pow2_1074 : Z.pos (2 ^ 1074)%positive = 2 ^ 1074.
Proof. by rewrite Pos2Z.inj_pow. Qed.

Lemma DoubleValue_plus_lt x n y :
  (DoubleValue x + inject_Z n < DoubleValue y)%Q
  ↔ Scaled x + n * 2 ^ 1074 < Scaled y.
Proof.
  rewrite <- pos_pow2_1074.
  unfold DoubleValue, Qlt, Qplus, inject_Z. cbn [Qnum Qden].
  generalize (2 ^ 1074)%positive. intros D.
  rewrite Pos.mul_1_r, Z.mul_1_r.
  split; intros H.
  - eapply Z.mul_lt_mono_pos_r; [|exact H]. done.
  - apply Z.mul_lt_mono_pos_r; done.
Qed.

Lemma DoubleValue_lt_Z x n :
  (DoubleValue x < inject_Z n)%Q ↔ Scaled x < n * 2 ^ 1074.
Proof.
  rewrite <- pos_pow2_1074.
  unfold DoubleValue, Qlt, inject_Z. cbn [Qnum Qden].
  by rewrite Z.mul_1_r.
Qed.

Lemma DoubleValue_nonneg x : (0 <= DoubleValue x)%Q ↔ 0 ≤ Scaled x.
Proof.
  unfold DoubleValue, Qle. cbn [Qnum Qden]. rewrite Z.mul_1_r. lia.
Qed.

(** Whole numbers below [2^53] are doubles. *)
Lemma DoubleOfZ_exact z :
  Z.abs z < 2 ^ 53 →
  IsDouble (DoubleOfZ z) ∧ IsFinite (DoubleOfZ z) = true
  ∧ Scaled (DoubleOfZ z) = z * 2 ^ 1074.
Proof.
  intros Hz. unfold DoubleOfZ.
  assert (∀ s M, Z.pos M < 2 ^ 53 →
            let r := binary_round 53 1024 s M 0 in
            IsDouble r ∧ IsFinite r = true
            ∧ Scaled r = cond_Zopp s (Z.pos M * 2 ^ 1074)) as Hround.
  { intros s M HM.
    destruct (binary_round_RoundsTo s M 0 ltac:(lia)) as (R & HR & Hr).
    cbn zeta in *. change (0 + 1074) with 1074 in *.
    set (A := Z.pos M * 2 ^ 1074) in *.
    assert (A = Z.pos M * 2 ^ 1074) as HA by done. clearbody A.
    assert (Z.log2 A = 1074 + Z.log2 (Z.pos M)) as Hlog
      by (rewrite HA; apply Z.log2_mul_pow2; lia).
    assert (Z.log2 (Z.pos M) < 53) as HlM by (apply log2_lt_pow; lia).
    pose proof (Z.log2_nonneg (Z.pos M)) as HlM0.
    set (k := Z.max (Z.log2 A - 52) 0) in *.
    assert (0 ≤ k ≤ 1074) as Hk by lia.
    assert (A mod 2 ^ k = 0) as Hmod.
    { rewrite HA. replace 1074 with ((1074 - k) + k) by lia.
      rewrite pow2_split, Z.mul_assoc by lia. apply Z.mod_mul.
      pose proof (pow2_gt0 k ltac:(lia)). lia. }
    clearbody k. pose proof (pow2_gt0 k ltac:(lia)) as Hpk.
    assert (R = A) as ->.
    { destruct HR as [->|[_ ?]]; [|done].
      pose proof (Z.div_mod A (2 ^ k) ltac:(lia)). lia. }
    destruct (RoundsTo_cases _ _ _ Hr) as [Hinf|(Vr & Fr & HRb & HSr)]; [|done].
    exfalso. destruct Hr as [[Hbig _]|[_ (m & e & E & _)]]; [|congruence].
    assert (A < 2 ^ 53 * 2 ^ 1074) by (rewrite HA; apply Z.mul_lt_mono_pos_r; lia).
    rewrite <- pow2_split in * by lia.
    assert (2 ^ (53 + 1074) < 2 ^ 2098) by (apply pow2_lt; lia). lia. }
  destruct z as [|M|M]; cbn [binary_normalize].
  - done.
  - destruct (Hround false M ltac:(lia)) as (? & ? & ->). cbn [cond_Zopp]. done.
  - destruct (Hround true M ltac:(lia)) as (? & ? & ->). cbn [cond_Zopp].
    split; [done|]. split; [done|]. lia.
Qed.

End Doubles.

(** ** The claims about [Allocate] *)

(** C1 (amended).  On a freshly initialised heap, for every sequence of
    [Allocate] calls whose counts total less than [2^31] (so that the signed
    32-bit cursor does not wrap):
    - the counts of the calls that returned an offset sum to at most
      [MaxNumDescriptors];
    - a call returns the sum of the earlier counts when the sum including
      its own count fits the capacity; when that sum exceeds the capacity
      the call returns [-1], and the heap is not a sampler heap;
    - the sequence stops early only on a sampler heap, by the fatal log, at
      a call whose cumulative sum exceeds the capacity;
    - the ranges of the calls that returned an offset lie inside
      [0, MaxNumDescriptors) in call order, hence are pairwise disjoint;
    - the cursor never decreases. *)
Theorem Allocate_capacity_invariant (ns : list Z) (h : t) (w : World)
    (calls : list AllocateCall) (out : Outcome (t * World)) :
  NumAllocatedDescriptors h = 0 →
  0 ≤ MaxNumDescriptors h →
  Forall (λ n, 0 ≤ n) ns →
  Sum ns < 2 ^ 31 →
  AllocateSeq ns h w = (calls, out) →
  AcceptedSum calls ≤ MaxNumDescriptors h ∧
  (∀ i c, calls !! i = Some c →
     ns !! i = Some (Requested c) ∧
     (Sum (take (S i) ns) ≤ MaxNumDescriptors h →
      Returned c = Sum (take i ns)) ∧
     (MaxNumDescriptors h < Sum (take (S i) ns) →
      Returned c = -1 ∧ HeapType h ≠ D3D12_DESCRIPTOR_HEAP_TYPE_SAMPLER)) ∧
  ((length calls = length ns ∧ ∃ h' w', out = Done (h', w')) ∨
   (out = Halted FatalLog ∧
    HeapType h = D3D12_DESCRIPTOR_HEAP_TYPE_SAMPLER ∧
    MaxNumDescriptors h < Sum (take (S (length calls)) ns))) ∧
  (∀ i j ci cj, (i < j)%nat →
     calls !! i = Some ci → calls !! j = Some cj →
     Returned ci ≠ -1 → Returned cj ≠ -1 →
     0 ≤ Returned ci ∧
     Returned ci + Requested ci ≤ Returned cj ∧
     Returned cj + Requested cj ≤ MaxNumDescriptors h) ∧
  (∀ i j ci cj, (i ≤ j)%nat →
     calls !! i = Some ci → calls !! j = Some cj →
     NumAllocatedDescriptors h ≤ CursorAfter ci ≤ CursorAfter cj).
Proof.
  intros Hzero Hmax Hns Hsum Hrun.
  assert (NoWrap h ns) as Hnw by (unfold NoWrap; rewrite Hzero; auto with lia).
  pose proof (AllocateSeq_calls ns h w calls out Hnw Hrun) as Hcalls.
  rewrite Hzero in Hcalls. cbn zeta in Hcalls.
  assert (∀ i c n, calls !! i = Some c → ns !! i = Some n →
            0 ≤ Sum (take i ns) ∧ 0 ≤ n ∧
            Sum (take (S i) ns) = Sum (take i ns) + n) as Hpre.
  { intros i c n _ Hn. split; [apply Sum_nonneg; by apply Forall_take|].
    split; [by eapply (Forall_lookup_1 _ ns)|by apply Sum_take_S]. }
  split; [|split; [|split; [|split]]].
  - pose proof (AllocateSeq_accepted ns h w calls out Hnw Hrun) as H.
    rewrite Hzero in H. lia.
  - intros i c Hc. destruct (Hcalls i c Hc) as (H1 & _ & H3 & H4).
    split; [done|]. split; intros; [rewrite H3|apply H4]; lia.
  - destruct (AllocateSeq_outcome ns h w calls out Hnw Hrun)
      as [(Hlen & w' & ->)|(-> & Hty & _ & Hgt)].
    + left. eauto.
    + right. rewrite Hzero in Hgt. split; [done|]. split; [done|lia].
  - intros i j ci cj Hij Hi Hj Hri Hrj.
    destruct (Hcalls i ci Hi) as (Hni & _ & Hfit_i & Hover_i).
    destruct (Hcalls j cj Hj) as (Hnj & _ & Hfit_j & Hover_j).
    destruct (Hpre _ _ _ Hi Hni) as (Hpi & Hri0 & HSi).
    destruct (Hpre _ _ _ Hj Hnj) as (Hpj & Hrj0 & HSj).
    assert (Sum (take (S i) ns) ≤ Sum (take j ns))
      by (apply Sum_take_mono; [done|lia]).
    destruct (decide (0 + Sum (take (S i) ns) ≤ MaxNumDescriptors h));
      [|destruct Hover_i; [lia|done]].
    destruct (decide (0 + Sum (take (S j) ns) ≤ MaxNumDescriptors h));
      [|destruct Hover_j; [lia|done]].
    rewrite Hfit_i, Hfit_j by done. lia.
  - intros i j ci cj Hij Hi Hj.
    destruct (Hcalls i ci Hi) as (Hni & -> & _).
    destruct (Hcalls j cj Hj) as (Hnj & -> & _).
    destruct (Hpre _ _ _ Hi Hni) as (Hpi & Hri0 & HSi).
    assert (Sum (take (S i) ns) ≤ Sum (take (S j) ns))
      by (apply Sum_take_mono; [done|lia]).
    lia.
Qed.

Lemma Allocate_capacity_invariant_witness :
  let run := AllocateSeq [4; 8; 8; 2] (ExampleViewHeap 16) World_initial in
  Returned <$> run.1 = [0; 4; -1; -1] ∧
  AcceptedSum run.1 ≤ 16.
Proof.
  split; [reflexivity|].
  refine (proj1 (Allocate_capacity_invariant [4; 8; 8; 2] (ExampleViewHeap 16)
                   World_initial _ _ _ _ _ _ (surjective_pairing _))).
  - reflexivity.
  - simpl. lia.
  - repeat constructor; lia.
  - simpl. lia.
Defined.

(** C1 as stated fails when the 32-bit arithmetic wraps: on a view heap of
    16 descriptors the calls [Allocate(8)], [Allocate(2^32 - 8)],
    [Allocate(8)] all return an offset; the accepted counts sum to more than
    the capacity, the first and the third call get the same range [0, 8),
    and the cursor goes from 8 back to 0.  And on a sampler heap of 16
    descriptors [Allocate(17)] does not return [-1]: the process stops at
    the fatal log. *)
Lemma Allocate_capacity_counterexample :
  (∃ calls out,
     AllocateSeq [8; 2 ^ 32 - 8; 8] (ExampleViewHeap 16) World_initial
       = (calls, out) ∧
     Returned <$> calls = [0; 8; 0] ∧
     CursorAfter <$> calls = [8; 0; 8] ∧
     MaxNumDescriptors (ExampleViewHeap 16) < AcceptedSum calls) ∧
  Allocate 17 (ExampleSamplerHeap 16) World_initial = Halted FatalLog.
Proof.
  split; [|reflexivity].
  eexists _, _. split; [vm_compute; reflexivity|].
  split; [reflexivity|]. split; [reflexivity|]. vm_compute. reflexivity.
Qed.

(** C5 (amended).  When [Allocate] detects an overflow
    ([Result + InNumDescriptors > MaxNumDescriptors] in 32-bit arithmetic),
    a sampler heap takes the fatal path; any other heap returns [-1] without
    halting, and logs the error exactly when its capacity is at least
    [GD3D12ExplicitViewDescriptorHeapSize] and the process-wide flag
    [GD3D12ExplicitViewDescriptorHeapOverflowReported] is still 0; the flag
    is set whenever the capacity test passes.  Hence over any sequence of
    calls on such a heap at most one error is logged, and none when the flag
    was set before (by this heap or by another one). *)
Theorem Allocate_overflow_report (h : t) (w : World) :
  (∀ n, MaxNumDescriptors h < u32 (NumAllocatedDescriptors h + n) →
     (HeapType h = D3D12_DESCRIPTOR_HEAP_TYPE_SAMPLER →
      Allocate n h w = Halted FatalLog) ∧
     (HeapType h ≠ D3D12_DESCRIPTOR_HEAP_TYPE_SAMPLER →
      ∃ h' w',
        Allocate n h w = Done (-1, h', w') ∧
        (u32 (GD3D12ExplicitViewDescriptorHeapSize w) ≤ MaxNumDescriptors h →
         GD3D12ExplicitViewDescriptorHeapOverflowReported w' ≠ 0 ∧
         (GD3D12ExplicitViewDescriptorHeapOverflowReported w = 0 →
          Trace w' = Trace w ++ [ErrorViewHeapOverflow (u32 (MaxNumDescriptors h * 2))]) ∧
         (GD3D12ExplicitViewDescriptorHeapOverflowReported w ≠ 0 →
          Trace w' = Trace w)) ∧
        (MaxNumDescriptors h < u32 (GD3D12ExplicitViewDescriptorHeapSize w) →
         w' = w))) ∧
  (∀ ns calls out,
     HeapType h ≠ D3D12_DESCRIPTOR_HEAP_TYPE_SAMPLER →
     AllocateSeq ns h w = (calls, out) →
     ∃ h' w',
       out = Done (h', w') ∧ length calls = length ns ∧
       (OverflowErrors (Trace w') ≤ OverflowErrors (Trace w) + 1)%nat ∧
       (GD3D12ExplicitViewDescriptorHeapOverflowReported w ≠ 0 →
        Trace w' = Trace w)).
Proof.
  split.
  - intros n Hover. unfold Allocate, InterlockedAdd, InterlockedOr.
    cbn [HeapType MaxNumDescriptors set_NumAllocatedDescriptors].
    rewrite (decide_True (P := MaxNumDescriptors h < _)) by done.
    split; intros Hty.
    + by rewrite decide_True.
    + rewrite (decide_False (P := HeapType h = _)) by done.
      repeat case_decide; eexists _, _; (split; [reflexivity|]);
        cbn [Trace emit set_OverflowReported
               GD3D12ExplicitViewDescriptorHeapOverflowReported];
        (split; [intros ?|intros ?; try lia]).
      * split; [apply lor_1_nonzero|]. split; [done|]. intros; lia.
      * split; [apply lor_1_nonzero|]. split; [intros; lia|done].
      * lia.
      * done.
  - intros ns calls out Hty Hrun.
    destruct (AllocateSeq_not_sampler ns h w calls out Hty Hrun)
      as (h' & w' & -> & Hlen & Hset & Hcount).
    eexists _, _. split; [done|]. split; [done|]. split; [done|]. exact Hset.
Qed.

Lemma Allocate_overflow_report_witness :
  (∃ h' w',
     Allocate 300000 (ExampleViewHeap 262144) World_initial = Done (-1, h', w') ∧
     GD3D12ExplicitViewDescriptorHeapOverflowReported w' ≠ 0) ∧
  Allocate 17 (ExampleSamplerHeap 16) World_initial = Halted FatalLog ∧
  (∃ h' w',
     (AllocateSeq [200000; 200000; 200000] (ExampleViewHeap 262144) World_initial).2
       = Done (h', w') ∧
     (OverflowErrors (Trace w') ≤ 1)%nat).
Proof.
  split; [|split].
  - destruct (proj1 (Allocate_overflow_report (ExampleViewHeap 262144) World_initial)
                300000 ltac:(vm_compute; reflexivity)) as [_ Hview].
    destruct (Hview ltac:(discriminate)) as (h' & w' & Hcall & Hrep & _).
    exists h', w'. split; [exact Hcall|].
    apply Hrep. vm_compute. discriminate.
  - apply (proj1 (Allocate_overflow_report (ExampleSamplerHeap 16) World_initial)
             17 ltac:(vm_compute; reflexivity)). reflexivity.
  - destruct (proj2 (Allocate_overflow_report (ExampleViewHeap 262144) World_initial)
                [200000; 200000; 200000] _ _ ltac:(discriminate)
                (surjective_pairing _)) as (h' & w' & Hout & _ & Hcount & _).
    exists h', w'. split; [exact Hout|exact Hcount].
Defined.

(** C5 as stated fails in two ways.  A view heap smaller than
    [GD3D12ExplicitViewDescriptorHeapSize] overflows twice and nothing is
    logged; and once one heap has logged the error, the overflow of a second
    heap of the same process is not logged. *)
Lemma Allocate_overflow_report_counterexample :
  (∃ calls h' w',
     AllocateSeq [17; 17] (ExampleViewHeap 16) World_initial
       = (calls, Done (h', w')) ∧
     Returned <$> calls = [-1; -1] ∧
     OverflowErrors (Trace w') = 0%nat) ∧
  (∃ calls1 h1 w1 calls2 h2 w2,
     AllocateSeq [300000] (ExampleViewHeap 262144) World_initial
       = (calls1, Done (h1, w1)) ∧
     AllocateSeq [300000] (ExampleViewHeap 262144) w1
       = (calls2, Done (h2, w2)) ∧
     Returned <$> calls2 = [-1] ∧
     Trace w2 = Trace w1).
Proof.
  split.
  - eexists _, _, _. split; [vm_compute; reflexivity|]. split; reflexivity.
  - eexists _, _, _, _, _, _. split; [vm_compute; reflexivity|].
    split; [vm_compute; reflexivity|]. split; reflexivity.
Qed.

(** C10 (amended).  While the 32-bit cursor does not wrap (the counts, all
    positive, total less than [2^31] together with the cursor), a failed
    [Allocate] still advances the cursor by the requested count, and every
    later [Allocate] on that heap returns [-1] as well, whether or not its
    count would have fit before the failed call; the cursor is never
    decremented. *)
Theorem Allocate_failure_is_sticky (n : Z) (ns : list Z) (h h1 : t)
    (w w1 : World) (calls : list AllocateCall) (out : Outcome (t * World)) :
  0 ≤ NumAllocatedDescriptors h →
  0 < n →
  Forall (λ m, 0 < m) ns →
  NumAllocatedDescriptors h + n + Sum ns < 2 ^ 31 →
  Allocate n h w = Done (-1, h1, w1) →
  AllocateSeq ns h1 w1 = (calls, out) →
  NumAllocatedDescriptors h1 = NumAllocatedDescriptors h + n ∧
  length calls = length ns ∧
  (∃ h2 w2, out = Done (h2, w2)) ∧
  Forall (λ c, Returned c = -1 ∧ NumAllocatedDescriptors h1 < CursorAfter c) calls.
Proof.
  intros Hc Hn Hns Hlt Hfail Hrun.
  assert (Forall (λ m, 0 ≤ m) ns) as Hns0
    by (eapply Forall_impl; [exact Hns|]; simpl; lia).
  pose proof (Sum_nonneg _ Hns0) as Hsum.
  destruct (Allocate_nowrap n h w Hc ltac:(lia) ltac:(lia)) as [Hfit Hover].
  cbn zeta in Hfit, Hover.
  destruct (decide (NumAllocatedDescriptors h + n ≤ MaxNumDescriptors h)) as [Hle|Hgt].
  { rewrite (Hfit Hle) in Hfail. simplify_eq. lia. }
  destruct (proj2 (Hover ltac:(lia))) as [w' Hw'].
  { intros Hty. rewrite (proj1 (Hover ltac:(lia)) Hty) in Hfail. done. }
  rewrite Hw' in Hfail. simplify_eq.
  cbn [NumAllocatedDescriptors set_NumAllocatedDescriptors].
  split; [done|].
  set (h1 := set_NumAllocatedDescriptors (NumAllocatedDescriptors h + n) h) in *.
  assert (NoWrap h1 ns) as Hnw
    by (unfold NoWrap, h1; cbn [NumAllocatedDescriptors set_NumAllocatedDescriptors];
        auto with lia).
  destruct (AllocateSeq_outcome ns h1 w1 calls out Hnw Hrun)
    as [(Hlen & w2 & ->)|(-> & Hty & _ & _)].
  - split; [done|]. split; [eauto|].
    apply Forall_lookup_2. intros i c Hi.
    destruct (AllocateSeq_calls ns h1 w1 calls _ Hnw Hrun i c Hi)
      as (Hni & Hafter & _ & Hover').
    cbn zeta in Hafter, Hover'.
    unfold h1 in Hafter, Hover'.
    cbn [NumAllocatedDescriptors set_NumAllocatedDescriptors MaxNumDescriptors HeapType]
      in Hafter, Hover'.
    assert (0 ≤ Sum (take i ns)) by (apply Sum_nonneg; by apply Forall_take).
    assert (0 < Requested c) by (by eapply (Forall_lookup_1 _ ns)).
    pose proof (Sum_take_S ns i _ Hni).
    split; [apply Hover'|]; lia.
  - exfalso. unfold h1 in Hty. cbn [HeapType set_NumAllocatedDescriptors] in Hty.
    rewrite (proj1 (Hover ltac:(lia)) Hty) in Hw'. done.
Qed.

Lemma Allocate_failure_is_sticky_witness :
  ∃ h1 w1,
    Allocate 17 (ExampleViewHeap 16) World_initial = Done (-1, h1, w1) ∧
    Forall (λ c, Returned c = -1 ∧ NumAllocatedDescriptors h1 < CursorAfter c)
      (AllocateSeq [1; 4] h1 w1).1.
Proof.
  eexists _, _. split; [vm_compute; reflexivity|].
  match goal with
  | |- Forall _ (AllocateSeq ?ns ?h1 ?w1).1 =>
      destruct (AllocateSeq ns h1 w1) as [calls out] eqn:Hrun;
      refine (proj2 (proj2 (proj2
        (Allocate_failure_is_sticky 17 ns (ExampleViewHeap 16) h1
           World_initial w1 calls out _ _ _ _ _ Hrun))))
  end.
  - simpl. lia.
  - lia.
  - repeat constructor; lia.
  - simpl. lia.
  - vm_compute. reflexivity.
Defined.

(** C10 as stated fails when the 32-bit arithmetic wraps: on a view heap of
    16 descriptors [Allocate(17)] returns [-1], and the next call,
    [Allocate(2^32 - 17)], returns the offset 17. *)
Lemma Allocate_failure_is_sticky_counterexample :
  ∃ h1 w1 calls out,
    Allocate 17 (ExampleViewHeap 16) World_initial = Done (-1, h1, w1) ∧
    0 < 2 ^ 32 - 17 ∧
    AllocateSeq [2 ^ 32 - 17] h1 w1 = (calls, out) ∧
    Returned <$> calls = [17].
Proof.
  eexists _, _, _, _. split; [vm_compute; reflexivity|].
  split; [done|]. split; [vm_compute; reflexivity|]. reflexivity.
Qed.

End HeapAllocate.

(** ** FD3D12ExplicitDescriptorHeapCache *)

Section HeapCache.

Import FD3D12ExplicitDescriptorHeapCache.

(** *** [RemoveAtSwap] *)

Lemma RemoveAtSwap_snoc {A} (l : list A) (y : A) (i : nat) :
  RemoveAtSwap (l ++ [y]) i =
  if decide (i < length l)%nat then <[i := y]> l else l.
Proof.
  unfold RemoveAtSwap. rewrite last_snoc, removelast_last, length_app.
  simpl. replace (pred (length l + 1)) with (length l) by lia. done.
Qed.

Lemma RemoveAtSwap_split {A} (l : list A) (i : nat) (x : A) :
  l !! i = Some x →
  take i (RemoveAtSwap l i) = take i l ∧
  drop i (RemoveAtSwap l i) ≡ₚ drop (S i) l ∧
  S (length (RemoveAtSwap l i)) = length l.
Proof.
  destruct l as [|y l _] using rev_ind; [done|]. intros Hi.
  rewrite RemoveAtSwap_snoc. pose proof (lookup_lt_Some _ _ _ Hi) as Hlen.
  rewrite length_app in Hlen |- *. simpl in Hlen |- *.
  case_decide as Hlt.
  - rewrite take_insert_ge, take_app_le by lia.
    split; [done|]. rewrite length_insert. split; [|lia].
    rewrite drop_app_le by lia.
    rewrite lookup_app_l in Hi by done.
    rewrite <- (take_drop_middle l i x Hi) at 1.
    rewrite insert_app_r_alt by (rewrite length_take; lia).
    rewrite length_take, Nat.min_l by lia. rewrite Nat.sub_diag. simpl.
    rewrite drop_app_length' by (rewrite length_take; lia).
    by rewrite Permutation_cons_append.
  - assert (i = length l) as -> by lia.
    rewrite take_app_length. split; [by rewrite firstn_all|]. split; [|lia].
    rewrite drop_all, drop_ge; [done|]. rewrite length_app. simpl. lia.
Qed.

Lemma RemoveAtSwap_perm {A} (l : list A) (i : nat) (x : A) :
  l !! i = Some x → RemoveAtSwap l i ≡ₚ delete i l.
Proof.
  intros Hi. destruct (RemoveAtSwap_split l i x Hi) as (Ht & Hd & _).
  rewrite <- (take_drop i (RemoveAtSwap l i)), Ht, Hd.
  by rewrite delete_take_drop.
Qed.

(** *** Reading the trace *)

Lemma DeferredDeletes_emit e w :
  DeferredDeletes (Trace (emit e w)) =
  DeferredDeletes (Trace w)
  ++ match e with DeferredDeleteHeap p => [p] | _ => [] end.
Proof.
  unfold DeferredDeletes. cbn [emit Trace]. rewrite omap_app.
  f_equal. by destruct e.
Qed.

Lemma HeapReleases_emit e w :
  HeapReleases (Trace (emit e w)) =
  HeapReleases (Trace w)
  ++ match e with HeapRelease p => [p] | _ => [] end.
Proof.
  unfold HeapReleases. cbn [emit Trace]. rewrite omap_app.
  f_equal. by destruct e.
Qed.

Lemma DecStats_trace It w :
  DeferredDeletes (Trace (DecStats It w)) = DeferredDeletes (Trace w) ∧
  HeapReleases (Trace (DecStats It w)) = HeapReleases (Trace w).
Proof.
  unfold DecStats. case_decide;
    rewrite !DeferredDeletes_emit, !HeapReleases_emit, !app_nil_r; done.
Qed.

(** *** [ReleaseStaleEntries] *)

(** The loop runs to its end: what is left are the entries that are not
    stale, and the heap of every stale entry went to [DeferredDelete]. *)
Lemma ReleaseStaleEntries_loop_spec CF CT MF MS n : ∀ idx l w l' w',
  (length l - idx ≤ n)%nat →
  ReleaseStaleEntries_loop n CF CT MF MS idx l w = (l', w') →
  l' ≡ₚ take idx l ++ filter (λ It, ¬ IsStale CF CT MF MS It) (drop idx l) ∧
  DeferredDeletes (Trace w') ≡ₚ
    DeferredDeletes (Trace w)
    ++ (Heap <$> filter (λ It, IsStale CF CT MF MS It) (drop idx l)) ∧
  HeapReleases (Trace w') = HeapReleases (Trace w).
Proof.
  assert (∀ idx (l : list FEntry), l !! idx = None →
            take idx l = l ∧ drop idx l = []) as Hend.
  { intros idx l H. apply lookup_ge_None in H.
    split; [by apply take_ge|by apply drop_ge]. }
  induction n as [|n IH]; intros idx l w l' w' Hn Hrun.
  - simpl in Hrun. simplify_eq.
    destruct (Hend idx l' ltac:(apply lookup_ge_None; lia)) as [-> ->].
    simpl. by rewrite !app_nil_r.
  - cbn [ReleaseStaleEntries_loop] in Hrun.
    destruct (l !! idx) as [It|] eqn:Hidx.
    + rewrite (drop_S l It idx Hidx).
      destruct (IsStale CF CT MF MS It) eqn:Hstale.
      * destruct (RemoveAtSwap_split l idx It Hidx) as (Htake & Hdrop & Hlen).
        apply IH in Hrun; [|lia].
        destruct Hrun as (Hl' & Hdel & Hrel).
        rewrite filter_cons_False by (rewrite Hstale; cbn; tauto).
        rewrite filter_cons_True by (by rewrite Hstale).
        rewrite Htake, Hdrop in Hl'. rewrite Hdrop in Hdel.
        rewrite DeferredDeletes_emit in Hdel. rewrite HeapReleases_emit in Hrel.
        destruct (DecStats_trace It w) as [Hd Hr]. rewrite Hd in Hdel.
        rewrite Hr, app_nil_r in Hrel. split; [done|]. split; [|done].
        rewrite Hdel, fmap_cons. by rewrite <- app_assoc.
      * apply IH in Hrun; [|lia].
        destruct Hrun as (Hl' & Hdel & Hrel).
        rewrite filter_cons_True by (rewrite Hstale; cbn; tauto).
        rewrite filter_cons_False by (rewrite Hstale; cbn; tauto).
        rewrite (take_S_r l idx It Hidx), <- app_assoc in Hl'. done.
    + simplify_eq. destruct (Hend idx l' Hidx) as [-> ->].
      simpl. by rewrite !app_nil_r.
Qed.

(** More iterations than [Num() - EntryIndex] change nothing: the loop has
    ended by then. *)
Lemma ReleaseStaleEntries_loop_fuel CF CT MF MS n : ∀ idx l w,
  (length l - idx ≤ n)%nat →
  ReleaseStaleEntries_loop (S n) CF CT MF MS idx l w
  = ReleaseStaleEntries_loop n CF CT MF MS idx l w.
Proof.
  induction n as [|n IH]; intros idx l w Hn.
  - cbn. rewrite (proj2 (lookup_ge_None l idx)); [done|lia].
  - change (ReleaseStaleEntries_loop (S (S n)) CF CT MF MS idx l w)
      with (match l !! idx with
            | None => (l, w)
            | Some It =>
                if IsStale CF CT MF MS It
                then ReleaseStaleEntries_loop (S n) CF CT MF MS idx
                       (RemoveAtSwap l idx)
                       (emit (DeferredDeleteHeap (Heap It)) (DecStats It w))
                else ReleaseStaleEntries_loop (S n) CF CT MF MS (S idx) l w
            end).
    change (ReleaseStaleEntries_loop (S n) CF CT MF MS idx l w)
      with (match l !! idx with
            | None => (l, w)
            | Some It =>
                if IsStale CF CT MF MS It
                then ReleaseStaleEntries_loop n CF CT MF MS idx
                       (RemoveAtSwap l idx)
                       (emit (DeferredDeleteHeap (Heap It)) (DecStats It w))
                else ReleaseStaleEntries_loop n CF CT MF MS (S idx) l w
            end).
    destruct (l !! idx) as [It|] eqn:Hidx; [|done].
    destruct (IsStale CF CT MF MS It).
    + destruct (RemoveAtSwap_split l idx It Hidx) as (_ & _ & Hlen).
      apply IH. lia.
    + apply IH. lia.
Qed.

Lemma ReleaseStaleEntries_spec host MF MS c w c' w' :
  ReleaseStaleEntries host MF MS c w = (c', w') →
  let stale := IsStale (GetNextFenceToSignal host) (Seconds host) MF MS in
  FreeList c' ≡ₚ filter (λ It, ¬ stale It) (FreeList c) ∧
  NumAllocatedEntries c' = NumAllocatedEntries c ∧
  DeferredDeletes (Trace w') ≡ₚ
    DeferredDeletes (Trace w) ++ (Heap <$> filter (λ It, stale It) (FreeList c)) ∧
  HeapReleases (Trace w') = HeapReleases (Trace w).
Proof.
  unfold ReleaseStaleEntries. intros Hrun.
  destruct (ReleaseStaleEntries_loop _ _ _ _ _ _ _ _) as [l1 w1] eqn:Hloop.
  simplify_eq. cbn [FreeList NumAllocatedEntries].
  apply ReleaseStaleEntries_loop_spec in Hloop; [|lia].
  rewrite take_0, drop_0 in Hloop. destruct Hloop as (? & ? & ?). done.
Qed.

(** Entries unused for more than [MaxAgeInFrames] frames satisfy the test
    of the loop, and so do entries whose time of last use lies
    [MaxAgeInSeconds] or more before the clock, all three being finite
    doubles: the sum is rounded, but not beyond the clock, which is a
    double itself. *)
Lemma IsStale_older CF CT MF MS It :
  0 ≤ LastUsedFrame It → 0 ≤ MF → CF < 2 ^ 64 →
  LastUsedFrame It + MF < CF
  ∨ (FiniteDouble (LastUsedTime It) ∧ FiniteDouble MS ∧ FiniteDouble CT ∧
     Scaled (LastUsedTime It) + Scaled MS ≤ Scaled CT) →
  IsStale CF CT MF MS It = true.
Proof.
  intros H0 HMF HCF [Hframe|([Vt Ft] & [Vm Fm] & [Vc Fc] & Htime)];
    unfold IsStale.
  - rewrite bool_decide_eq_true_2; [done|].
    unfold u64. rewrite Z.mod_small; lia.
  - rewrite (double_add_le_upper _ _ _ Vt Vm Vc Ft Fm Fc Htime).
    by rewrite orb_true_r.
Qed.

(** The age limit of [AllocateHeap], 5 seconds, as a double. *)
Lemma Double_5 :
  FiniteDouble (DoubleOfZ 5) ∧ Scaled (DoubleOfZ 5) = 5 * 2 ^ 1074.
Proof.
  destruct (DoubleOfZ_exact 5) as (V & F & E); [|done].
  change (Z.abs 5) with 5. change 5 with (2 ^ 2 + 1) at 1.
  assert (2 ^ 2 < 2 ^ 53) by (apply pow2_lt; lia).
  assert (2 * 2 ^ 2 ≤ 2 ^ 53); [|lia].
  change (2 * 2 ^ 2) with (2 ^ 3). apply pow2_le; lia.
Qed.

(** Entries last used more than 5 seconds before the clock are stale for
    [AllocateHeap]. *)
Lemma IsStale_older_5 CF CT It :
  FiniteDouble (LastUsedTime It) → FiniteDouble CT →
  (DoubleValue (LastUsedTime It) + 5 < DoubleValue CT)%Q →
  IsStale CF CT 100 (DoubleOfZ 5) It = true.
Proof.
  intros [Vt Ft] [Vc Fc] Hlt. destruct Double_5 as [[V5 F5] E5].
  change 5%Q with (inject_Z 5) in Hlt. apply DoubleValue_plus_lt in Hlt.
  unfold IsStale.
  rewrite (double_add_le_upper _ _ _ Vt V5 Vc Ft F5 Fc); [|lia].
  by rewrite orb_true_r.
Qed.

(** *** [AllocateHeap] *)

Lemma FindCompatible_Some T N l : ∀ k i It,
  FindCompatible T N k l = Some (i, It) →
  (k ≤ i)%nat ∧ l !! (i - k)%nat = Some It ∧ Compatible T N It ∧
  ∀ j It', (j < i - k)%nat → l !! j = Some It' → ¬ Compatible T N It'.
Proof.
  induction l as [|x l IH]; intros k i It Hfind; [done|].
  cbn [FindCompatible] in Hfind. case_decide as Hx.
  - simplify_eq. rewrite Nat.sub_diag.
    split; [lia|]. split; [done|]. split; [done|]. intros; lia.
  - destruct (IH _ _ _ Hfind) as (Hk & Hi & Hc & Hfirst).
    replace (i - k)%nat with (S (i - S k)) by lia.
    split; [lia|]. split; [done|]. split; [done|].
    intros [|j] It' Hj Hl; simpl in Hl; [by simplify_eq|].
    eapply Hfirst; [|done]. lia.
Qed.

Lemma FindCompatible_None T N l : ∀ k,
  FindCompatible T N k l = None ↔ Forall (λ It, ¬ Compatible T N It) l.
Proof.
  induction l as [|x l IH]; intros k; [by split; [constructor|]|].
  cbn [FindCompatible]. rewrite Forall_cons. case_decide as Hx.
  - split; [done|tauto].
  - rewrite IH. tauto.
Qed.

(** A request served from the free list. *)
Lemma AllocateHeap_hit host T n c w i It :
  FindCompatible T (AlignedNumDescriptors T n) 0 (FreeList c) = Some (i, It) →
  AllocateHeap host T n c w =
  Done (It,
        {| FreeList := RemoveAtSwap (FreeList c) i;
           NumAllocatedEntries := u32 (NumAllocatedEntries c + 1) |},
        w).
Proof. intros H. unfold AllocateHeap. cbn [FreeList NumAllocatedEntries]. by rewrite H. Qed.

(** A request that finds nothing in the free list. *)
Lemma AllocateHeap_miss host T n c w :
  FindCompatible T (AlignedNumDescriptors T n) 0 (FreeList c) = None →
  let N := AlignedNumDescriptors T n in
  ∃ c1 w1,
    ReleaseStaleEntries host 100 (DoubleOfZ 5)
      {| FreeList := FreeList c;
         NumAllocatedEntries := u32 (NumAllocatedEntries c + 1) |} w = (c1, w1) ∧
    (CreateDescriptorHeap host (HeapDesc host T N) = None →
     AllocateHeap host T n c w = Halted VerifyD3D12ResultFailed) ∧
    (∀ p, CreateDescriptorHeap host (HeapDesc host T N) = Some p →
       ∃ w2,
         AllocateHeap host T n c w = Done (CreatedEntry p T N, c1, w2) ∧
         Trace w2 = Trace w1 ++ CreatedHeapEvents host p T N).
Proof.
  intros Hfind. cbn zeta. unfold AllocateHeap. cbn [FreeList NumAllocatedEntries].
  rewrite Hfind.
  destruct (ReleaseStaleEntries _ _ _ _ _) as [c1 w1] eqn:Hpurge.
  exists c1, w1. split; [done|].
  fold (HeapDesc host T (AlignedNumDescriptors T n)).
  split.
  - intros ->. done.
  - intros p ->. eexists. split; [reflexivity|].
    unfold CreatedHeapEvents. case_decide; cbn [Trace emit];
      by rewrite <- !app_assoc.
Qed.

Lemma FindCompatible_Exists T N l :
  Exists (Compatible T N) l → ∃ i It, FindCompatible T N 0 l = Some (i, It).
Proof.
  intros Hex. destruct (FindCompatible T N 0 l) as [[i It]|] eqn:Hfind; [eauto|].
  apply FindCompatible_None in Hfind.
  apply Exists_exists in Hex as (It & Hin & Hc).
  rewrite Forall_forall in Hfind. destruct (Hfind It Hin Hc).
Qed.

Lemma ReleaseStaleEntries_loop_trace CF CT MF MS n : ∀ idx l w l' w',
  ReleaseStaleEntries_loop n CF CT MF MS idx l w = (l', w') →
  ∃ evs, Trace w' = Trace w ++ evs.
Proof.
  induction n as [|n IH]; intros idx l w l' w' Hrun; simpl in Hrun.
  - simplify_eq. exists []. by rewrite app_nil_r.
  - destruct (l !! idx) as [It|]; [|simplify_eq; exists []; by rewrite app_nil_r].
    destruct (IsStale _ _ _ _ It); [|by eapply IH].
    apply IH in Hrun as [evs ->].
    unfold DecStats. case_decide; cbn [Trace emit]; rewrite <- !app_assoc; eauto.
Qed.

Lemma created_events_trace host p T N (tr : list Event) :
  DeferredDeletes (tr ++ CreatedHeapEvents host p T N) = DeferredDeletes tr ∧
  HeapReleases (tr ++ CreatedHeapEvents host p T N) = HeapReleases tr ∧
  CreateDescriptorHeapCall (HeapDesc host T N) ∈ tr ++ CreatedHeapEvents host p T N.
Proof.
  unfold DeferredDeletes, HeapReleases, CreatedHeapEvents.
  rewrite !omap_app. case_decide; simpl; rewrite !app_nil_r;
    (split; [done|split; [done|]]); set_solver.
Qed.

(** *** The power of two *)

Lemma RoundUpToPowerOfTwo_spec n :
  0 ≤ n →
  0 ≤ Z.log2_up n ∧ RoundUpToPowerOfTwo n = 2 ^ Z.log2_up n ∧
  n ≤ 2 ^ Z.log2_up n ∧
  ∀ j, 0 ≤ j → n ≤ 2 ^ j → 2 ^ Z.log2_up n ≤ 2 ^ j.
Proof.
  intros Hn. pose proof (Z.log2_up_nonneg n) as Hk.
  split; [done|]. split; [done|].
  destruct (decide (1 < n)) as [H1|H1].
  - destruct (Z.log2_up_spec n H1) as [Hlo Hhi]. split; [done|].
    intros j Hj Hle. apply Z.pow_le_mono_r; [lia|].
    destruct (decide (Z.log2_up n ≤ j)) as [|Hgt]; [done|].
    assert (2 ^ j ≤ 2 ^ Z.pred (Z.log2_up n)) by (apply Z.pow_le_mono_r; lia).
    lia.
  - rewrite Z.log2_up_eqn0 by lia. simpl. split; [lia|].
    intros j Hj _. pose proof (Z.pow_pos_nonneg 2 j). lia.
Qed.

Lemma AlignedNumDescriptors_eq T n :
  0 ≤ n ≤ 2 ^ 31 →
  AlignedNumDescriptors T n = Z.min (2 ^ Z.log2_up n) (MaxDescriptors T) ∧
  0 < AlignedNumDescriptors T n.
Proof.
  intros [Hn Hmax]. destruct (RoundUpToPowerOfTwo_spec n Hn) as (Hk & Heq & Hle & Hmin).
  pose proof (Hmin 31 ltac:(lia) Hmax) as Hup.
  pose proof (Z.pow_pos_nonneg 2 (Z.log2_up n) ltac:(lia) Hk) as Hpos.
  unfold AlignedNumDescriptors, Clamp. rewrite Heq.
  assert (0 < MaxDescriptors T) as HT
    by (unfold MaxDescriptors; case_decide; done).
  assert (MaxDescriptors T < 2 ^ 32) as HT'
    by (unfold MaxDescriptors; case_decide; done).
  rewrite u32_small by lia. lia.
Qed.

(** *** [Init] of a descriptor heap *)

(** [Init] takes over the entry [AllocateHeap] returns. *)
Lemma Heap_Init_from_entry host n T h cache w e cache' w' :
  FD3D12ExplicitDescriptorHeap.D3D12Heap h = nullptr →
  AllocateHeap host T n cache w = Done (e, cache', w') →
  GetCPUDescriptorHandleForHeapStart host (Heap e) ≠ 0 →
  ∃ h',
    FD3D12ExplicitDescriptorHeap.Init host n T h cache w = Done (h', cache', w') ∧
    FD3D12ExplicitDescriptorHeap.MaxNumDescriptors h' = NumDescriptors e ∧
    FD3D12ExplicitDescriptorHeap.HeapCacheEntry h' = e ∧
    FD3D12ExplicitDescriptorHeap.D3D12Heap h' = Heap e ∧
    FD3D12ExplicitDescriptorHeap.HeapType h' = T ∧
    FD3D12ExplicitDescriptorHeap.NumAllocatedDescriptors h'
      = FD3D12ExplicitDescriptorHeap.NumAllocatedDescriptors h.
Proof.
  intros Hnull Hrun Hcpu.
  unfold FD3D12ExplicitDescriptorHeap.Init.
  rewrite bool_decide_eq_true_2 by done. cbn [check bindO].
  rewrite Hrun. cbn [bindO]. rewrite bool_decide_eq_true_2 by done.
  cbn [check bindO]. eexists. split; [reflexivity|]. done.
Qed.

(** Every entry [AllocateHeap] returns has the requested type and at least
    the aligned number of descriptors. *)
Lemma AllocateHeap_entry host T n cache w e cache' w' :
  AllocateHeap host T n cache w = Done (e, cache', w') →
  Type_ e = T ∧ AlignedNumDescriptors T n ≤ NumDescriptors e.
Proof.
  intros Hrun.
  destruct (FindCompatible T (AlignedNumDescriptors T n) 0 (FreeList cache))
    as [[i It]|] eqn:Hfind.
  - rewrite (AllocateHeap_hit _ _ _ _ _ _ _ Hfind) in Hrun. simplify_eq.
    by destruct (FindCompatible_Some _ _ _ _ _ _ Hfind) as (_ & _ & [??] & _).
  - destruct (AllocateHeap_miss host T n cache w Hfind) as (c1 & w1 & _ & Hfail & Hok).
    destruct (CreateDescriptorHeap host (HeapDesc host T (AlignedNumDescriptors T n)))
      as [p|] eqn:Hcreate.
    + destruct (Hok p eq_refl) as (w2 & Hrun' & _).
      rewrite Hrun' in Hrun. simplify_eq. simpl. split; [done|lia].
    + rewrite (Hfail eq_refl) in Hrun. done.
Qed.

(** *** The claims about the heap cache *)

(** C2.  For a request of at most [2^31] descriptors, [AllocateHeap] works
    with the request rounded up to the next power of two and clamped to the
    maximum of the heap type: [D3D12_MAX_SHADER_VISIBLE_SAMPLER_HEAP_SIZE]
    for sampler heaps, the tier-1 maximum otherwise.  Every entry it returns
    has the requested type and at least that capacity, and a heap it creates
    has exactly that capacity.  A request for 70,000 view descriptors gives
    131,072 and a request for 3,000 sampler descriptors gives 2,048. *)
Theorem AllocateHeap_aligned_request (host : Host)
    (T : D3D12_DESCRIPTOR_HEAP_TYPE) (n : Z) (c : t) (w : World) :
  0 ≤ n ≤ 2 ^ 31 →
  let N := AlignedNumDescriptors T n in
  (∃ k, 0 ≤ k ∧ n ≤ 2 ^ k ∧ (∀ j, 0 ≤ j → n ≤ 2 ^ j → 2 ^ k ≤ 2 ^ j) ∧
        N = Z.min (2 ^ k)
              (if decide (T = D3D12_DESCRIPTOR_HEAP_TYPE_SAMPLER)
               then D3D12_MAX_SHADER_VISIBLE_SAMPLER_HEAP_SIZE
               else D3D12_MAX_SHADER_VISIBLE_DESCRIPTOR_HEAP_SIZE_TIER_1)) ∧
  (∀ e c' w', AllocateHeap host T n c w = Done (e, c', w') →
     Type_ e = T ∧ N ≤ NumDescriptors e) ∧
  (Forall (λ It, ¬ Compatible T N It) (FreeList c) →
   ∀ p, CreateDescriptorHeap host (HeapDesc host T N) = Some p →
     ∃ c' w',
       AllocateHeap host T n c w = Done (CreatedEntry p T N, c', w') ∧
       CreateDescriptorHeapCall (HeapDesc host T N) ∈ Trace w') ∧
  AlignedNumDescriptors D3D12_DESCRIPTOR_HEAP_TYPE_CBV_SRV_UAV 70000 = 131072 ∧
  AlignedNumDescriptors D3D12_DESCRIPTOR_HEAP_TYPE_SAMPLER 3000 = 2048.
Proof.
  intros Hn N.
  destruct (RoundUpToPowerOfTwo_spec n (proj1 Hn)) as (Hk & _ & Hle & Hmin).
  destruct (AlignedNumDescriptors_eq T n Hn) as [HN _].
  split; [|split; [|split; [|split]]].
  - exists (Z.log2_up n). by repeat split.
  - intros e c' w' Hrun. by eapply AllocateHeap_entry.
  - intros Hnone p Hcreate. apply (FindCompatible_None T N _ 0%nat) in Hnone.
    destruct (AllocateHeap_miss host T n c w Hnone) as (c1 & w1 & _ & _ & Hok).
    destruct (Hok p Hcreate) as (w2 & Hrun & Htr).
    exists c1, w2. split; [done|]. rewrite Htr.
    apply created_events_trace.
  - by vm_compute.
  - by vm_compute.
Qed.

Lemma AllocateHeap_aligned_request_witness :
  (∃ c' w',
     AllocateHeap (ExampleHost 0 0) D3D12_DESCRIPTOR_HEAP_TYPE_CBV_SRV_UAV 70000
       {| FreeList := []; NumAllocatedEntries := 0 |} World_initial
     = Done (CreatedEntry (4096 + 131072) D3D12_DESCRIPTOR_HEAP_TYPE_CBV_SRV_UAV 131072,
             c', w')) ∧
  (∃ c' w',
     AllocateHeap (ExampleHost 0 0) D3D12_DESCRIPTOR_HEAP_TYPE_SAMPLER 3000
       {| FreeList := []; NumAllocatedEntries := 0 |} World_initial
     = Done (CreatedEntry (4096 + 2048) D3D12_DESCRIPTOR_HEAP_TYPE_SAMPLER 2048,
             c', w')).
Proof.
  split.
  - destruct (AllocateHeap_aligned_request (ExampleHost 0 0)
                D3D12_DESCRIPTOR_HEAP_TYPE_CBV_SRV_UAV 70000
                {| FreeList := []; NumAllocatedEntries := 0 |} World_initial
                ltac:(lia)) as (_ & _ & Hmiss & _).
    destruct (Hmiss ltac:(constructor) (4096 + 131072) eq_refl)
      as (c' & w' & Hrun & _).
    exists c', w'. exact Hrun.
  - destruct (AllocateHeap_aligned_request (ExampleHost 0 0)
                D3D12_DESCRIPTOR_HEAP_TYPE_SAMPLER 3000
                {| FreeList := []; NumAllocatedEntries := 0 |} World_initial
                ltac:(lia)) as (_ & _ & Hmiss & _).
    destruct (Hmiss ltac:(constructor) (4096 + 2048) eq_refl)
      as (c' & w' & Hrun & _).
    exists c', w'. exact Hrun.
Defined.

(** C6.  Free-list entries that were unused for more than 100 frames or for
    more than 5 seconds (the time of last use and the clock being finite
    doubles, compared as the numbers they are) are stale for
    [AllocateHeap], whose test adds and compares in double arithmetic.  A
    call that finds a
    compatible entry in the free list purges nothing: the world, and with it
    the list of deferred deletions, is unchanged and only the returned entry
    leaves the free list.  A call that finds none and creates a heap first
    removes exactly the stale entries and hands the heap of each to
    [DeferredDelete]; no heap is released on the spot. *)
Theorem AllocateHeap_purges_only_on_miss (host : Host)
    (T : D3D12_DESCRIPTOR_HEAP_TYPE) (n : Z) (c : t) (w : World) :
  let N := AlignedNumDescriptors T n in
  let stale :=
    IsStale (GetNextFenceToSignal host) (Seconds host) 100 (DoubleOfZ 5) in
  (∀ It, 0 ≤ LastUsedFrame It → GetNextFenceToSignal host < 2 ^ 64 →
     LastUsedFrame It + 100 < GetNextFenceToSignal host
     ∨ (FiniteDouble (LastUsedTime It) ∧ FiniteDouble (Seconds host) ∧
        (DoubleValue (LastUsedTime It) + 5 < DoubleValue (Seconds host))%Q) →
     stale It = true) ∧
  (Exists (Compatible T N) (FreeList c) →
   ∃ i It c',
     FreeList c !! i = Some It ∧
     AllocateHeap host T n c w = Done (It, c', w) ∧
     FreeList c' ≡ₚ delete i (FreeList c)) ∧
  (Forall (λ It, ¬ Compatible T N It) (FreeList c) →
   ∀ p, CreateDescriptorHeap host (HeapDesc host T N) = Some p →
     ∃ c' w',
       AllocateHeap host T n c w = Done (CreatedEntry p T N, c', w') ∧
       FreeList c' ≡ₚ filter (λ It, ¬ stale It) (FreeList c) ∧
       DeferredDeletes (Trace w') ≡ₚ
         DeferredDeletes (Trace w)
         ++ (Heap <$> filter (λ It, stale It) (FreeList c)) ∧
       HeapReleases (Trace w') = HeapReleases (Trace w)).
Proof.
  intros N stale. split; [|split].
  - intros It H0 HCF [Hframe|(Ft & Fc & Htime)].
    + apply IsStale_older; [done|lia|done|by left].
    + by apply IsStale_older_5.
  - intros Hex. destruct (FindCompatible_Exists _ _ _ Hex) as (i & It & Hfind).
    destruct (FindCompatible_Some _ _ _ _ _ _ Hfind) as (_ & Hi & _).
    rewrite Nat.sub_0_r in Hi.
    eexists i, It, _. split; [done|].
    split; [by apply AllocateHeap_hit|].
    cbn [FreeList]. by eapply RemoveAtSwap_perm.
  - intros Hnone p Hcreate. apply (FindCompatible_None T N _ 0%nat) in Hnone.
    destruct (AllocateHeap_miss host T n c w Hnone) as (c1 & w1 & Hpurge & _ & Hok).
    destruct (Hok p Hcreate) as (w2 & Hrun & Htr).
    apply ReleaseStaleEntries_spec in Hpurge.
    cbn [FreeList NumAllocatedEntries] in Hpurge.
    destruct Hpurge as (Hlist & _ & Hdel & Hrel).
    exists c1, w2. split; [done|]. split; [done|]. rewrite Htr.
    destruct (created_events_trace host p T (AlignedNumDescriptors T n) (Trace w1))
      as (Hd & Hr & _).
    rewrite Hd, Hr. done.
Qed.

Lemma AllocateHeap_purges_only_on_miss_witness :
  let host := ExampleHost 500 60 in
  let old := ExampleEntry 7001 D3D12_DESCRIPTOR_HEAP_TYPE_CBV_SRV_UAV 1024 100 58 in
  let recent := ExampleEntry 7002 D3D12_DESCRIPTOR_HEAP_TYPE_CBV_SRV_UAV 2048 450 58 in
  let aged := ExampleEntry 7003 D3D12_DESCRIPTOR_HEAP_TYPE_CBV_SRV_UAV 512 450 50 in
  let c := {| FreeList := [old; recent]; NumAllocatedEntries := 1 |} in
  IsStale 500 (DoubleOfZ 60) 100 (DoubleOfZ 5) old = true ∧
  IsStale 500 (DoubleOfZ 60) 100 (DoubleOfZ 5) aged = true ∧
  (∃ i It c',
     FreeList c !! i = Some It ∧
     AllocateHeap host D3D12_DESCRIPTOR_HEAP_TYPE_CBV_SRV_UAV 2000 c World_initial
     = Done (It, c', World_initial) ∧
     FreeList c' ≡ₚ delete i (FreeList c)) ∧
  (∃ c' w',
     AllocateHeap host D3D12_DESCRIPTOR_HEAP_TYPE_SAMPLER 64 c World_initial
     = Done (CreatedEntry (4096 + 64) D3D12_DESCRIPTOR_HEAP_TYPE_SAMPLER 64, c', w') ∧
     DeferredDeletes (Trace w') ≡ₚ [7001] ∧
     HeapReleases (Trace w') = []).
Proof.
  intros host old recent aged c. split; [|split; [|split]].
  - apply (proj1 (AllocateHeap_purges_only_on_miss host
                    D3D12_DESCRIPTOR_HEAP_TYPE_SAMPLER 64 c World_initial) old).
    + cbn. lia.
    + cbn. lia.
    + left. cbn. lia.
  - apply (proj1 (AllocateHeap_purges_only_on_miss host
                    D3D12_DESCRIPTOR_HEAP_TYPE_SAMPLER 64 c World_initial) aged).
    + cbn. lia.
    + cbn. lia.
    + right. split; [split; vm_compute; reflexivity|].
      split; [split; vm_compute; reflexivity|].
      vm_compute. reflexivity.
  - apply (proj1 (proj2 (AllocateHeap_purges_only_on_miss host
                           D3D12_DESCRIPTOR_HEAP_TYPE_CBV_SRV_UAV 2000 c World_initial))).
    apply Exists_cons_tl, Exists_cons_hd. split; [reflexivity|].
    vm_compute. discriminate.
  - destruct (proj2 (proj2 (AllocateHeap_purges_only_on_miss host
                D3D12_DESCRIPTOR_HEAP_TYPE_SAMPLER 64 c World_initial))
                ltac:(repeat constructor; intros [? _]; discriminate)
                (4096 + 64) eq_refl) as (c' & w' & Hrun & _ & Hdel & Hrel).
    exists c', w'. split; [exact Hrun|]. split; [exact Hdel|exact Hrel].
Defined.

(** C8.  [AllocateHeap] returns an entry of the free list, creating nothing,
    exactly when some entry of the free list has the requested type and at
    least the aligned count of descriptors.  It then returns the first such
    entry and removes it by [RemoveAtSwap]: the other entries stay, and the
    last entry takes the place of the removed one.  [Init] of the descriptor
    heap takes the capacity from the entry it receives, which is at least
    the aligned count. *)
Theorem AllocateHeap_reuses_free_list (host : Host)
    (T : D3D12_DESCRIPTOR_HEAP_TYPE) (n : Z) (c : t) (w : World) :
  let N := AlignedNumDescriptors T n in
  let c_hit i :=
    {| FreeList := RemoveAtSwap (FreeList c) i;
       NumAllocatedEntries := u32 (NumAllocatedEntries c + 1) |} in
  ((∃ i It, FreeList c !! i = Some It ∧ Compatible T N It) ↔
   (∃ i It, FreeList c !! i = Some It ∧
            AllocateHeap host T n c w = Done (It, c_hit i, w))) ∧
  (∀ i It, FreeList c !! i = Some It → Compatible T N It →
     (∀ j It', (j < i)%nat → FreeList c !! j = Some It' → ¬ Compatible T N It') →
     AllocateHeap host T n c w = Done (It, c_hit i, w) ∧
     FreeList (c_hit i) ≡ₚ delete i (FreeList c) ∧
     ((i < pred (length (FreeList c)))%nat →
      FreeList (c_hit i) !! i = last (FreeList c))) ∧
  (∀ h e c' w',
     FD3D12ExplicitDescriptorHeap.D3D12Heap h = nullptr →
     AllocateHeap host T n c w = Done (e, c', w') →
     GetCPUDescriptorHandleForHeapStart host (Heap e) ≠ 0 →
     ∃ h',
       FD3D12ExplicitDescriptorHeap.Init host n T h c w = Done (h', c', w') ∧
       FD3D12ExplicitDescriptorHeap.MaxNumDescriptors h' = NumDescriptors e ∧
       FD3D12ExplicitDescriptorHeap.HeapCacheEntry h' = e ∧
       N ≤ FD3D12ExplicitDescriptorHeap.MaxNumDescriptors h').
Proof.
  intros N c_hit.
  assert (∀ i It, FreeList c !! i = Some It → Compatible T N It →
            (∀ j It', (j < i)%nat → FreeList c !! j = Some It' → ¬ Compatible T N It') →
            FindCompatible T N 0 (FreeList c) = Some (i, It)) as Hfirst.
  { intros i It Hi Hc Hmin.
    destruct (FindCompatible T N 0 (FreeList c)) as [[i' It']|] eqn:Hfind.
    - destruct (FindCompatible_Some _ _ _ _ _ _ Hfind) as (_ & Hi' & Hc' & Hmin').
      rewrite Nat.sub_0_r in Hi', Hmin'.
      destruct (Nat.lt_trichotomy i i') as [Hlt|[->|Hlt]].
      + destruct (Hmin' i It Hlt Hi Hc).
      + by simplify_eq.
      + destruct (Hmin i' It' Hlt Hi' Hc').
    - apply FindCompatible_None in Hfind. rewrite Forall_lookup in Hfind.
      destruct (Hfind i It Hi Hc). }
  split; [|split].
  - split.
    + intros (i & It & Hi & Hc).
      destruct (FindCompatible_Exists T N (FreeList c)) as (i' & It' & Hfind).
      { apply Exists_exists. exists It. split; [|done]. by eapply list_elem_of_lookup_2. }
      destruct (FindCompatible_Some _ _ _ _ _ _ Hfind) as (_ & Hi' & _).
      rewrite Nat.sub_0_r in Hi'.
      exists i', It'. split; [done|]. by apply AllocateHeap_hit.
    + intros (i & It & Hi & Hrun).
      destruct (FindCompatible T N 0 (FreeList c)) as [[i' It']|] eqn:Hfind.
      * rewrite (AllocateHeap_hit _ _ _ _ _ _ _ Hfind) in Hrun. simplify_eq.
        destruct (FindCompatible_Some _ _ _ _ _ _ Hfind) as (_ & _ & Hc & _).
        eauto.
      * exfalso.
        destruct (AllocateHeap_miss host T n c w Hfind)
          as (c1 & w1 & Hpurge & Hfail & Hok).
        destruct (CreateDescriptorHeap host (HeapDesc host T N)) as [p|] eqn:Hcreate.
        -- destruct (Hok p Hcreate) as (w2 & Hrun' & Htr).
           rewrite Hrun' in Hrun. simplify_eq.
           unfold ReleaseStaleEntries in Hpurge.
           destruct (ReleaseStaleEntries_loop _ _ _ _ _ _ _ _) as [l1 w1'] eqn:Hloop.
           apply ReleaseStaleEntries_loop_trace in Hloop as [evs Hevs].
           simplify_eq. rewrite Hevs in Htr.
           apply (f_equal length) in Htr. rewrite !length_app in Htr.
           unfold CreatedHeapEvents in Htr. rewrite length_app in Htr.
           simpl in Htr. lia.
        -- rewrite (Hfail Hcreate) in Hrun. done.
  - intros i It Hi Hc Hmin. split; [by apply AllocateHeap_hit, Hfirst|].
    cbn [c_hit FreeList]. split; [by eapply RemoveAtSwap_perm|].
    intros Hlt. destruct (FreeList c) as [|y l _] using rev_ind; [done|].
    rewrite RemoveAtSwap_snoc, last_snoc.
    rewrite length_app in Hlt. simpl in Hlt.
    rewrite decide_True by lia. apply list_lookup_insert_eq. lia.
  - intros h e c' w' Hnull Hrun Hcpu.
    destruct (Heap_Init_from_entry _ _ _ _ _ _ _ _ _ Hnull Hrun Hcpu)
      as (h' & Hinit & Hmax & Hentry & _).
    exists h'. split; [done|]. split; [done|]. split; [done|].
    rewrite Hmax. by eapply AllocateHeap_entry.
Qed.

Lemma AllocateHeap_reuses_free_list_witness :
  let host := ExampleHost 20 2 in
  let c :=
    {| FreeList :=
         [ExampleEntry 7001 D3D12_DESCRIPTOR_HEAP_TYPE_SAMPLER 2048 10 1;
          ExampleEntry 7002 D3D12_DESCRIPTOR_HEAP_TYPE_CBV_SRV_UAV 4096 10 1;
          ExampleEntry 7003 D3D12_DESCRIPTOR_HEAP_TYPE_CBV_SRV_UAV 512 10 1;
          ExampleEntry 7004 D3D12_DESCRIPTOR_HEAP_TYPE_CBV_SRV_UAV 8192 10 1];
       NumAllocatedEntries := 0 |} in
  let c' :=
    {| FreeList := RemoveAtSwap (FreeList c) 1;
       NumAllocatedEntries := u32 (NumAllocatedEntries c + 1) |} in
  let e := ExampleEntry 7002 D3D12_DESCRIPTOR_HEAP_TYPE_CBV_SRV_UAV 4096 10 1 in
  AllocateHeap host D3D12_DESCRIPTOR_HEAP_TYPE_CBV_SRV_UAV 1000 c World_initial
  = Done (e, c', World_initial) ∧
  ∃ h',
    FD3D12ExplicitDescriptorHeap.Init host 1000
      D3D12_DESCRIPTOR_HEAP_TYPE_CBV_SRV_UAV
      FD3D12ExplicitDescriptorHeap.Constructor c World_initial
    = Done (h', c', World_initial) ∧
    FD3D12ExplicitDescriptorHeap.MaxNumDescriptors h' = 4096.
Proof.
  intros host c c' e.
  destruct (AllocateHeap_reuses_free_list host
              D3D12_DESCRIPTOR_HEAP_TYPE_CBV_SRV_UAV 1000 c World_initial)
    as (_ & Hhit & Hinit).
  assert (AllocateHeap host D3D12_DESCRIPTOR_HEAP_TYPE_CBV_SRV_UAV 1000 c
            World_initial = Done (e, c', World_initial)) as Hrun.
  { refine (proj1 (Hhit 1%nat e eq_refl _ _)).
    - split; [reflexivity|]. vm_compute. discriminate.
    - intros [|[|]] It' Hj Hl; [|lia|lia]. simpl in Hl.
      injection Hl as <-. intros [Hty _]. discriminate. }
  split; [exact Hrun|].
  destruct (Hinit FD3D12ExplicitDescriptorHeap.Constructor e c' World_initial
              eq_refl Hrun ltac:(vm_compute; discriminate))
    as (h' & Hh' & Hmax & _).
  exists h'. split; [exact Hh'|exact Hmax].
Defined.

(** C9.  The destructor of the heap cache stops at its [check] when
    [NumAllocatedEntries] is not zero.  When it is zero the check passes and
    the destructor releases the heap of every entry of the free list, in
    order, and empties the list. *)
Theorem HeapCache_Destructor_check (c : t) (w : World) :
  (NumAllocatedEntries c ≠ 0 → Destructor c w = Halted CheckFailed) ∧
  (NumAllocatedEntries c = 0 →
   ∃ c' w',
     Destructor c w = Done (c', w') ∧
     FreeList c' = [] ∧
     HeapReleases (Trace w') = HeapReleases (Trace w) ++ (Heap <$> FreeList c) ∧
     DeferredDeletes (Trace w') = DeferredDeletes (Trace w)).
Proof.
  unfold Destructor. split; intros Hn.
  - by rewrite bool_decide_eq_false_2.
  - rewrite bool_decide_eq_true_2 by done. cbn [check bindO].
    eexists _, _. split; [reflexivity|]. split; [done|].
    generalize (FreeList c) as l. intros l. revert w.
    induction l as [|It l IH]; intros w; simpl.
    + by rewrite app_nil_r.
    + destruct (IH (emit (HeapRelease (Heap It)) (DecStats It w))) as [-> ->].
      rewrite HeapReleases_emit, DeferredDeletes_emit, app_nil_r.
      destruct (DecStats_trace It w) as [-> ->]. by rewrite <- app_assoc.
Qed.

Lemma HeapCache_Destructor_check_witness :
  Destructor {| FreeList := []; NumAllocatedEntries := 2 |} World_initial
    = Halted CheckFailed ∧
  ∃ c' w',
    Destructor
      {| FreeList :=
           [ExampleEntry 7001 D3D12_DESCRIPTOR_HEAP_TYPE_SAMPLER 2048 10 1;
            ExampleEntry 7002 D3D12_DESCRIPTOR_HEAP_TYPE_CBV_SRV_UAV 4096 10 1];
         NumAllocatedEntries := 0 |} World_initial = Done (c', w') ∧
    HeapReleases (Trace w') = [7001; 7002].
Proof.
  split.
  - apply (HeapCache_Destructor_check
             {| FreeList := []; NumAllocatedEntries := 2 |} World_initial).
    cbn. discriminate.
  - destruct (proj2 (HeapCache_Destructor_check
                       {| FreeList :=
                            [ExampleEntry 7001 D3D12_DESCRIPTOR_HEAP_TYPE_SAMPLER 2048 10 1;
                             ExampleEntry 7002 D3D12_DESCRIPTOR_HEAP_TYPE_CBV_SRV_UAV 4096 10 1];
                          NumAllocatedEntries := 0 |} World_initial) eq_refl)
      as (c' & w' & Hrun & _ & Hrel & _).
    exists c', w'. split; [exact Hrun|exact Hrel].
Defined.

End HeapCache.

(** ** FD3D12ExplicitDescriptorCache::Init *)

Section CacheInit.

Import FD3D12ExplicitDescriptorCache.

Lemma IsView_view : IsView D3D12_DESCRIPTOR_HEAP_TYPE_CBV_SRV_UAV = true.
Proof. reflexivity. Qed.

Lemma IsView_sampler : IsView D3D12_DESCRIPTOR_HEAP_TYPE_SAMPLER = false.
Proof. reflexivity. Qed.

(** [AllocateHeap] returns when the driver creates the heap it needs. *)
Lemma AllocateHeap_returns host T n cache w :
  (∀ d, is_Some (CreateDescriptorHeap host d)) →
  ∃ e cache' w',
    FD3D12ExplicitDescriptorHeapCache.AllocateHeap host T n cache w
    = Done (e, cache', w').
Proof.
  intros Hcreate.
  destruct (FD3D12ExplicitDescriptorHeapCache.FindCompatible T
              (FD3D12ExplicitDescriptorHeapCache.AlignedNumDescriptors T n) 0
              (FD3D12ExplicitDescriptorHeapCache.FreeList cache))
    as [[i It]|] eqn:Hfind.
  - rewrite (AllocateHeap_hit _ _ _ _ _ _ _ Hfind). eauto.
  - destruct (AllocateHeap_miss host T n cache w Hfind) as (c1 & w1 & _ & _ & Hok).
    destruct (Hcreate (HeapDesc host T
                (FD3D12ExplicitDescriptorHeapCache.AlignedNumDescriptors T n)))
      as [p Hp].
    destruct (Hok p Hp) as (w2 & -> & _). eauto.
Qed.

(** [Init] of a heap returns on a heap that was not initialised before, when
    the driver creates heaps and hands out non-null CPU handles. *)
Lemma Heap_Init_returns host n T h cache w :
  FD3D12ExplicitDescriptorHeap.D3D12Heap h = nullptr →
  (∀ d, is_Some (CreateDescriptorHeap host d)) →
  (∀ p, GetCPUDescriptorHandleForHeapStart host p ≠ 0) →
  ∃ h' cache' w',
    FD3D12ExplicitDescriptorHeap.Init host n T h cache w = Done (h', cache', w').
Proof.
  intros Hnull Hcreate Hcpu.
  destruct (AllocateHeap_returns host T n cache w Hcreate) as (e & cache' & w' & Hrun).
  destruct (Heap_Init_from_entry _ _ _ _ _ _ _ _ _ Hnull Hrun (Hcpu _))
    as (h' & -> & _). eauto.
Qed.

(** C7 (amended).  [Init] initialises the view heap with
    [NumConstantDescriptors + NumViewDescriptors] descriptors (a 32-bit sum)
    when resource views are not bindless, and with [NumConstantDescriptors]
    alone when they are; the view heap is left unallocated only when that
    total is 0.  The sampler heap is left unallocated when samplers are
    bindless and is initialised with [NumSamplerDescriptors] otherwise.
    [Init] returns when both heaps were not initialised before and the
    driver creates heaps with non-null CPU handles. *)
Theorem Cache_Init_heap_requests (host : Host)
    (NumConstantDescriptors NumViewDescriptors NumSamplerDescriptors : Z)
    (BindlessConfig : Z) (c : t)
    (cache : FD3D12ExplicitDescriptorHeapCache.t) (w : World) :
  let bViews :=
    PLATFORM_SUPPORTS_BINDLESS_RENDERING host
    && AreResourcesBindless host BindlessConfig in
  let bSamplers :=
    PLATFORM_SUPPORTS_BINDLESS_RENDERING host
    && AreSamplersBindless host BindlessConfig in
  let Total :=
    u32 (NumConstantDescriptors + (if bViews then 0 else NumViewDescriptors)) in
  (∀ c' cache' w',
     Init host NumConstantDescriptors NumViewDescriptors NumSamplerDescriptors
       BindlessConfig c cache w = Done (c', cache', w') →
     (Total = 0 → ViewHeap c' = ViewHeap c) ∧
     (Total ≠ 0 →
      ∃ cache1 w1,
        FD3D12ExplicitDescriptorHeap.Init host Total
          D3D12_DESCRIPTOR_HEAP_TYPE_CBV_SRV_UAV (ViewHeap c) cache w
        = Done (ViewHeap c', cache1, w1)) ∧
     (bSamplers = true → SamplerHeap c' = SamplerHeap c) ∧
     (bSamplers = false →
      ∃ cache1 w1,
        FD3D12ExplicitDescriptorHeap.Init host NumSamplerDescriptors
          D3D12_DESCRIPTOR_HEAP_TYPE_SAMPLER (SamplerHeap c) cache1 w1
        = Done (SamplerHeap c', cache', w'))) ∧
  (FD3D12ExplicitDescriptorHeap.D3D12Heap (ViewHeap c) = nullptr →
   FD3D12ExplicitDescriptorHeap.D3D12Heap (SamplerHeap c) = nullptr →
   (∀ d, is_Some (CreateDescriptorHeap host d)) →
   (∀ p, GetCPUDescriptorHandleForHeapStart host p ≠ 0) →
   ∃ c' cache' w',
     Init host NumConstantDescriptors NumViewDescriptors NumSamplerDescriptors
       BindlessConfig c cache w = Done (c', cache', w')).
Proof.
  intros bViews bSamplers Total.
  assert (∀ b : bool, (if b then bBindlessViews
            (if b
             then {| ViewHeap := ViewHeap c; SamplerHeap := SamplerHeap c;
                     WorkerData := WorkerData c;
                     BindlessConfiguration := BindlessConfig;
                     bBindlessViews := AreResourcesBindless host BindlessConfig;
                     bBindlessSamplers := AreSamplersBindless host BindlessConfig |}
             else c) else false)
          = b && AreResourcesBindless host BindlessConfig) as HV
    by (by intros []).
  assert (∀ b : bool, (if b then bBindlessSamplers
            (if b
             then {| ViewHeap := ViewHeap c; SamplerHeap := SamplerHeap c;
                     WorkerData := WorkerData c;
                     BindlessConfiguration := BindlessConfig;
                     bBindlessViews := AreResourcesBindless host BindlessConfig;
                     bBindlessSamplers := AreSamplersBindless host BindlessConfig |}
             else c) else false)
          = b && AreSamplersBindless host BindlessConfig) as HS
    by (by intros []).
  unfold Init. rewrite HV, HS. fold bViews bSamplers Total.
  set (c0 := if PLATFORM_SUPPORTS_BINDLESS_RENDERING host then _ else c).
  assert (ViewHeap c0 = ViewHeap c ∧ SamplerHeap c0 = SamplerHeap c) as [HcV HcS]
    by (unfold c0; by destruct (PLATFORM_SUPPORTS_BINDLESS_RENDERING host)).
  rewrite !HcV. split.
  - intros c' cache' w' Hrun.
    destruct (decide (Total ≠ 0)) as [Hne|Heq].
    + destruct (FD3D12ExplicitDescriptorHeap.Init host Total _ (ViewHeap c) cache w)
        as [[[hv cache1] w1]|] eqn:Hview; [|done].
      cbn [bindO] in Hrun. cbn [set_HeapOf SamplerHeap] in Hrun.
      rewrite IsView_view in Hrun. rewrite HcS in Hrun.
      destruct bSamplers; cbn [negb] in Hrun.
      * simplify_eq. cbn [ViewHeap SamplerHeap].
        split; [done|]. split; [eauto|]. split; [done|done].
      * destruct (FD3D12ExplicitDescriptorHeap.Init host NumSamplerDescriptors _
                    (SamplerHeap c) cache1 w1) as [[[hs cache2] w2]|] eqn:Hsamp; [|done].
        cbn [bindO] in Hrun. simplify_eq. cbn [set_HeapOf ViewHeap SamplerHeap].
        rewrite ?IsView_view, ?IsView_sampler.
        split; [done|]. split; [eauto|]. split; [done|eauto].
    + cbn [bindO] in Hrun. rewrite HcS in Hrun.
      destruct bSamplers; cbn [negb] in Hrun.
      * simplify_eq. rewrite HcV, HcS. split; [done|]. split; [done|]. done.
      * destruct (FD3D12ExplicitDescriptorHeap.Init host NumSamplerDescriptors _
                    (SamplerHeap c) cache w) as [[[hs cache2] w2]|] eqn:Hsamp; [|done].
        cbn [bindO] in Hrun. simplify_eq. cbn [set_HeapOf ViewHeap SamplerHeap].
        rewrite ?IsView_view, ?IsView_sampler.
        split; [done|]. split; [done|]. split; [done|eauto].
  - intros HnullV HnullS Hcreate Hcpu.
    assert (∃ c1 cache1 w1,
              (if decide (Total ≠ 0)
               then '(h, cache0, w0) ←!
                      FD3D12ExplicitDescriptorHeap.Init host Total
                        D3D12_DESCRIPTOR_HEAP_TYPE_CBV_SRV_UAV (ViewHeap c) cache w;
                    Done (set_HeapOf D3D12_DESCRIPTOR_HEAP_TYPE_CBV_SRV_UAV h c0,
                          cache0, w0)
               else Done (c0, cache, w)) = Done (c1, cache1, w1)
              ∧ SamplerHeap c1 = SamplerHeap c) as (c1 & cache1 & w1 & -> & Hc1).
    { case_decide; [|eauto 10].
      destruct (Heap_Init_returns host Total D3D12_DESCRIPTOR_HEAP_TYPE_CBV_SRV_UAV
                  (ViewHeap c) cache w HnullV Hcreate Hcpu) as (h & ca & wa & ->).
      cbn [bindO]. eexists _, _, _. split; [done|].
      cbn [set_HeapOf SamplerHeap]. by rewrite IsView_view. }
    cbn [bindO]. rewrite Hc1. destruct bSamplers; cbn [negb]; [eauto|].
    destruct (Heap_Init_returns host NumSamplerDescriptors
                D3D12_DESCRIPTOR_HEAP_TYPE_SAMPLER
                (SamplerHeap c) cache1 w1 HnullS Hcreate Hcpu) as (h & ca & wa & ->).
    cbn [bindO]. eauto.
Qed.

Lemma Cache_Init_heap_requests_witness :
  ∃ c' cache' w',
    Init (ExampleHost 0 0) 8 100 16 0 (ExampleCache 2) ExampleHeapCache World_initial
    = Done (c', cache', w') ∧
    ∃ cache1 w1,
      FD3D12ExplicitDescriptorHeap.Init (ExampleHost 0 0) 108
        D3D12_DESCRIPTOR_HEAP_TYPE_CBV_SRV_UAV
        (ViewHeap (ExampleCache 2)) ExampleHeapCache World_initial
      = Done (ViewHeap c', cache1, w1).
Proof.
  destruct (Cache_Init_heap_requests (ExampleHost 0 0) 8 100 16 0 (ExampleCache 2)
              ExampleHeapCache World_initial) as [Hsizes Hreturns].
  destruct Hreturns as (c' & cache' & w' & Hrun).
  - reflexivity.
  - reflexivity.
  - intros d. by eexists.
  - intros p. cbn. lia.
  - exists c', cache', w'. split; [exact Hrun|].
    apply (Hsizes c' cache' w' Hrun). vm_compute. discriminate.
Defined.

(** C7 as stated fails for resource views: with bindless resource views
    (and samplers) and 8 constant descriptors, [Init] allocates a view heap
    of 8 descriptors. *)
Lemma Cache_Init_heap_requests_counterexample :
  AreResourcesBindless (ExampleHost 0 0) 3 = true ∧
  ∃ c' cache' w',
    ExampleInitCache 2 8 100 16 3 = Done (c', cache', w') ∧
    FD3D12ExplicitDescriptorHeap.D3D12Heap (ViewHeap c') ≠ nullptr ∧
    FD3D12ExplicitDescriptorHeap.MaxNumDescriptors (ViewHeap c') = 8 ∧
    FD3D12ExplicitDescriptorHeap.D3D12Heap (SamplerHeap c') = nullptr.
Proof.
  split; [reflexivity|].
  eexists _, _, _. split; [vm_compute; reflexivity|].
  split; [|split; reflexivity]. cbn. discriminate.
Qed.

End CacheInit.

(** ** FD3D12ExplicitDescriptorCache: allocation and deduplication *)

Section CacheDedup.

Import FD3D12ExplicitDescriptorCache.

Lemma TArray_at_Done {A} (l : list A) (i : Z) (x : A) :
  TArray_at l i = Done x ↔ 0 ≤ i ∧ l !! Z.to_nat i = Some x.
Proof.
  unfold TArray_at. case_decide; [|split; [done|lia]].
  destruct (l !! Z.to_nat i); split.
  - intros. by simplify_eq.
  - intros [_ ?]. by simplify_eq.
  - done.
  - intros [_ ?]. done.
Qed.

(** *** The maps of the workers *)

Lemma MapAt_MapOf T j c d :
  WorkerData c !! j = Some d → MapAt (IsView T) j c = Some (MapOf T d).
Proof. intros H. unfold MapAt, MapOf. rewrite H. done. Qed.

Lemma MapAt_set_HeapOf v j T h c : MapAt v j (set_HeapOf T h c) = MapAt v j c.
Proof. done. Qed.

Lemma MapAt_reserved v j i r d c :
  WorkerData c !! i = Some d →
  MapAt v j (set_WorkerData (<[i := set_ReservedViewDescriptors r d]> (WorkerData c)) c)
  = MapAt v j c.
Proof.
  intros Hd. unfold MapAt. cbn [WorkerData set_WorkerData].
  destruct (decide (i = j)) as [->|Hne].
  - rewrite list_lookup_insert_eq by (by eapply lookup_lt_Some). by rewrite Hd.
  - by rewrite list_lookup_insert_ne.
Qed.

Lemma MapAt_update_MapOf v j T W f c :
  MapAt v j (update_MapOf T W f c) =
  if decide (v = IsView T ∧ j = Z.to_nat (s32 W))
  then f <$> MapAt v j c else MapAt v j c.
Proof.
  unfold MapAt, update_MapOf. cbn [WorkerData set_WorkerData].
  rewrite list_lookup_alter.
  destruct (decide (Z.to_nat (s32 W) = j)) as [<-|Hne].
  - destruct (WorkerData c !! Z.to_nat (s32 W)) as [d|]; [|by case_decide].
    unfold set_MapOf, MapOf. cbn.
    case_decide as Hv; [destruct Hv as [-> _]; by destruct (IsView T)|].
    destruct v, (IsView T) eqn:?; try done; destruct Hv; done.
  - rewrite decide_False; [done|]. intros [_ ->]. done.
Qed.

Lemma update_MapOf_id T W f c :
  (∀ d, WorkerData c !! Z.to_nat (s32 W) = Some d → f (MapOf T d) = MapOf T d) →
  update_MapOf T W f c = c.
Proof.
  intros Hf. unfold update_MapOf. destruct c as [vh sh wd cfg bv bs].
  unfold set_WorkerData.
  cbn [WorkerData ViewHeap SamplerHeap BindlessConfiguration
         bBindlessViews bBindlessSamplers] in *.
  f_equal. apply list_eq. intros j. rewrite list_lookup_alter.
  case_decide as Hj; [subst j|done].
  destruct (wd !! Z.to_nat (s32 W)) as [d|] eqn:Hd; [|done].
  cbn. f_equal. rewrite (Hf d eq_refl).
  destruct d. unfold set_MapOf, MapOf. cbn. by destruct (IsView T).
Qed.

(** [Allocate] leaves every map alone. *)
Lemma Allocate_MapAt Ds n T W c w r c' w' :
  Allocate Ds n T W c w = Done (r, c', w') →
  ∀ v j, MapAt v j c' = MapAt v j c.
Proof.
  intros Hrun v j. unfold Allocate in Hrun.
  match type of Hrun with
  | bindO ?B _ = _ =>
      assert (∀ idx c1 w1, B = Done (idx, c1, w1) → MapAt v j c1 = MapAt v j c)
        as Hfirst
  end.
  { intros idx c1 w1 HB. destruct (IsView T).
    - bind_inv HB. apply TArray_at_Done in E as [_ Hd].
      case_decide.
      + bind_inv HB. simplify_eq. rewrite MapAt_set_HeapOf. by apply MapAt_reserved.
      + simplify_eq. by apply MapAt_reserved.
    - bind_inv HB. simplify_eq. by rewrite MapAt_set_HeapOf. }
  bind_inv Hrun. rewrite <- (Hfirst _ _ _ eq_refl).
  case_decide; [by simplify_eq|].
  bind_inv Hrun. simplify_eq. by rewrite MapAt_set_HeapOf.
Qed.

(** *** [AllocateDeduplicated] *)

Variable HashBuffer : list Z → Z.

(** A call that returns either found the table in the map of the worker,
    with an offset that is not [INDEX_NONE], and changed nothing; or it did
    not, and it stored the offset it returns under the fingerprint. *)
Lemma AllocateDeduplicated_effect Vs Ds n T W c w r c' w' :
  AllocateDeduplicated HashBuffer Vs Ds n T W c w = Done (r, c', w') →
  ∃ d vs hs,
    TArray_at (WorkerData c) (s32 W) = Done d ∧
    read_buffer Vs n = Done vs ∧ read_buffer Ds n = Done hs ∧
    let K := TableKey HashBuffer vs hs in
    ((MapOf T d !! K = Some r ∧ r ≠ INDEX_NONE ∧ c' = c ∧ w' = w) ∨
     ((MapOf T d !! K = None ∨ MapOf T d !! K = Some INDEX_NONE) ∧
      ∀ v j, MapAt v j c' =
             if decide (v = IsView T ∧ j = Z.to_nat (s32 W))
             then Some (<[K := r]> (MapOf T d)) else MapAt v j c)).
Proof.
  intros Hrun. unfold AllocateDeduplicated in Hrun.
  destruct (TArray_at (WorkerData c) (s32 W)) as [d|] eqn:Hd; [|done].
  destruct (read_buffer Vs n) as [vs|] eqn:Hvs; [|done].
  destruct (read_buffer Ds n) as [hs|] eqn:Hhs; [|done].
  cbn [bindO] in Hrun. exists d, vs, hs. do 3 (split; [done|]).
  cbn zeta. set (K := TableKey HashBuffer vs hs) in *.
  apply TArray_at_Done in Hd as [HW Hd].
  pose proof (MapAt_MapOf T _ _ _ Hd) as Hslot.
  unfold EXPLICIT_DESCRIPTOR_CACHE_FULL_COMPARE in Hrun.
  set (c0 := update_MapOf T W _ c) in Hrun.
  assert (∀ x v j,
            MapAt v j (update_MapOf T W (insert K x) c0) =
            if decide (v = IsView T ∧ j = Z.to_nat (s32 W))
            then Some (<[K := x]> (MapOf T d)) else MapAt v j c) as Hstore.
  { intros x v j. unfold c0. rewrite !MapAt_update_MapOf.
    destruct (decide (v = IsView T ∧ j = Z.to_nat (s32 W))) as [[-> ->]|Hv]; [|done].
    rewrite Hslot. cbn.
    f_equal. unfold FindOrAdd. destruct (MapOf T d !! K) eqn:HK; cbn.
    - done.
    - by rewrite insert_insert_eq. }
  assert (∀ v j, MapAt v j c0 = match MapAt v j c with _ => MapAt v j c0 end)
    as _ by done.
  destruct (MapOf T d !! K) as [x|] eqn:HK.
  - assert (FindOrAdd (MapOf T d) K INDEX_NONE = (MapOf T d, x)) as HF
      by (unfold FindOrAdd; by rewrite HK).
    rewrite HF in Hrun. cbn [snd] in Hrun.
    destruct (decide (x ≠ INDEX_NONE)) as [Hx|Hx].
    + cbn [bindO] in Hrun. simplify_eq. left.
      split; [done|]. split; [done|]. split; [|done].
      apply update_MapOf_id. intros d' Hd'. simplify_eq.
      unfold FindOrAdd. by rewrite HK.
    + assert (x = INDEX_NONE) as -> by (destruct (decide (x = INDEX_NONE)); done).
      right. split; [by right|].
      cbn [bindO] in Hrun. bind_inv Hrun. case_decide.
      * simplify_eq. apply Hstore.
      * bind_inv Hrun. simplify_eq. intros v j.
        rewrite MapAt_update_MapOf.
        rewrite (Allocate_MapAt _ _ _ _ _ _ _ _ _ E0).
        rewrite <- MapAt_update_MapOf. apply Hstore.
  - assert (FindOrAdd (MapOf T d) K INDEX_NONE
            = (<[K := INDEX_NONE]> (MapOf T d), INDEX_NONE)) as HF
      by (unfold FindOrAdd; by rewrite HK).
    rewrite HF in Hrun. cbn [snd] in Hrun.
    rewrite decide_False in Hrun by (intros H; by apply H).
    right. split; [by left|].
    cbn [bindO] in Hrun. bind_inv Hrun. case_decide.
    + simplify_eq. apply Hstore.
    + bind_inv Hrun. simplify_eq. intros v j.
      rewrite MapAt_update_MapOf.
      rewrite (Allocate_MapAt _ _ _ _ _ _ _ _ _ E0).
      rewrite <- MapAt_update_MapOf. apply Hstore.
Qed.

(** After a call that returned [r], the worker has the table at [r]. *)
Lemma AllocateDeduplicated_Cached Vs Ds n T W c w r c' w' :
  AllocateDeduplicated HashBuffer Vs Ds n T W c w = Done (r, c', w') →
  ∃ vs hs,
    read_buffer Vs n = Done vs ∧ read_buffer Ds n = Done hs ∧
    Cached T W (TableKey HashBuffer vs hs) r c'.
Proof.
  intros Hrun.
  destruct (AllocateDeduplicated_effect _ _ _ _ _ _ _ _ _ _ Hrun)
    as (d & vs & hs & Hd & Hvs & Hhs & Heff).
  exists vs, hs. do 2 (split; [done|]).
  apply TArray_at_Done in Hd as [HW Hd]. split; [done|].
  cbn zeta in Heff. destruct Heff as [(HK & _ & -> & _)|[_ Hmaps]].
  - exists (MapOf T d). split; [by apply MapAt_MapOf|done].
  - eexists. rewrite Hmaps, decide_True by done. split; [done|].
    apply lookup_insert_eq.
Qed.

(** An offset that is cached and is not [INDEX_NONE] stays cached. *)
Lemma RunCall_Cached T W K r k c w r' c' w' :
  Cached T W K r c → r ≠ INDEX_NONE →
  RunCall HashBuffer k c w = Done (r', c', w') →
  Cached T W K r c'.
Proof.
  intros (HW & m & Hm & HK) Hr Hrun. split; [done|].
  destruct k as [Vs Ds n T' W'|Ds n T' W']; cbn [RunCall] in Hrun.
  - destruct (AllocateDeduplicated_effect _ _ _ _ _ _ _ _ _ _ Hrun)
      as (d & vs & hs & Hd & _ & _ & Heff).
    cbn zeta in Heff. destruct Heff as [(_ & _ & -> & _)|[HK' Hmaps]]; [eauto|].
    rewrite Hmaps. case_decide as Hslot; [|eauto].
    destruct Hslot as [HT HWW]. apply TArray_at_Done in Hd as [_ Hd].
    rewrite HT, HWW, (MapAt_MapOf T' _ _ _ Hd) in Hm. simplify_eq.
    eexists. split; [done|]. rewrite lookup_insert_ne; [done|].
    intros <-. destruct HK' as [HK'|HK']; rewrite HK' in HK; by simplify_eq.
  - exists m. by rewrite (Allocate_MapAt _ _ _ _ _ _ _ _ _ Hrun).
Qed.

Lemma RunCalls_Cached T W K r ks : ∀ c w rs c' w',
  Cached T W K r c → r ≠ INDEX_NONE →
  RunCalls HashBuffer ks c w = Done (rs, c', w') →
  Cached T W K r c'.
Proof.
  induction ks as [|k ks IH]; intros c w rs c' w' Hc Hr Hrun.
  - cbn in Hrun. by simplify_eq.
  - cbn [RunCalls] in Hrun. bind_inv Hrun. simplify_eq.
    eapply IH; [|done|done]. by eapply RunCall_Cached.
Qed.

(** A call for a table the worker has cached returns the cached offset and
    changes nothing. *)
Lemma AllocateDeduplicated_hit Vs Ds n T W c w vs hs r :
  read_buffer Vs n = Done vs → read_buffer Ds n = Done hs →
  Cached T W (TableKey HashBuffer vs hs) r c → r ≠ INDEX_NONE →
  AllocateDeduplicated HashBuffer Vs Ds n T W c w = Done (r, c, w).
Proof.
  intros Hvs Hhs (HW & m & Hm & HK) Hr.
  unfold Cached, MapAt in Hm.
  destruct (WorkerData c !! Z.to_nat (s32 W)) as [d|] eqn:Hd; [|done].
  cbn in Hm. simplify_eq.
  change (MapOf T d !! TableKey HashBuffer vs hs = Some r) in HK.
  unfold AllocateDeduplicated.
  rewrite (proj2 (TArray_at_Done _ _ _) (conj HW Hd)), Hvs, Hhs. cbn [bindO].
  unfold EXPLICIT_DESCRIPTOR_CACHE_FULL_COMPARE.
  assert (FindOrAdd (MapOf T d) (TableKey HashBuffer vs hs) INDEX_NONE
          = (MapOf T d, r)) as HF by (unfold FindOrAdd; by rewrite HK).
  rewrite HF. cbn [snd]. rewrite decide_True by done. cbn [bindO].
  do 2 f_equal. f_equal. apply update_MapOf_id. intros d' Hd'. simplify_eq.
  unfold FindOrAdd. by rewrite HK.
Qed.

(** C3.  When a call of [AllocateDeduplicated] has returned an offset [r]
    (not the failure value), a later call of the same worker for the same
    heap type with the same descriptor versions, descriptor handles and
    count returns [r] again, whatever calls of [AllocateDeduplicated] and
    [Allocate] were made in between; the later call leaves the descriptor
    cache (both heaps with their cursors, and every map) and the world (so
    no device copy is made) as they were.  The map of the worker for the
    heap type holds [r] under the fingerprint, the XOR of the hash of the
    version bytes and the hash of the handle bytes. *)
Theorem AllocateDeduplicated_returns_cached_offset
    (DescriptorVersions Descriptors : list Z) (NumDescriptors_ : Z)
    (HeapType : D3D12_DESCRIPTOR_HEAP_TYPE) (WorkerIndex : Z)
    (between : list CacheCall) (c c1 c2 : t) (w w1 w2 : World)
    (r : Z) (rs : list Z) :
  AllocateDeduplicated HashBuffer DescriptorVersions Descriptors NumDescriptors_
    HeapType WorkerIndex c w = Done (r, c1, w1) →
  r ≠ INDEX_NONE →
  RunCalls HashBuffer between c1 w1 = Done (rs, c2, w2) →
  AllocateDeduplicated HashBuffer DescriptorVersions Descriptors NumDescriptors_
    HeapType WorkerIndex c2 w2 = Done (r, c2, w2) ∧
  ∃ vs hs,
    read_buffer DescriptorVersions NumDescriptors_ = Done vs ∧
    read_buffer Descriptors NumDescriptors_ = Done hs ∧
    Cached HeapType WorkerIndex
      (Z.lxor (HashBuffer (array_bytes 4 vs)) (HashBuffer (array_bytes 8 hs)))
      r c2.
Proof.
  intros Hfirst Hr Hbetween.
  destruct (AllocateDeduplicated_Cached _ _ _ _ _ _ _ _ _ _ Hfirst)
    as (vs & hs & Hvs & Hhs & Hcached).
  pose proof (RunCalls_Cached _ _ _ _ _ _ _ _ _ _ Hcached Hr Hbetween) as Hlater.
  split.
  - by eapply AllocateDeduplicated_hit.
  - exists vs, hs. by do 2 (split; [done|]).
Qed.

End CacheDedup.

Lemma AllocateDeduplicated_returns_cached_offset_witness :
  let later := ResultOf ExampleLater ([], ExampleSession.1, ExampleSession.2) in
  FD3D12ExplicitDescriptorCache.AllocateDeduplicated ExampleHash
    [1; 1] [4096; 8192] 2 D3D12_DESCRIPTOR_HEAP_TYPE_SAMPLER 0 later.1.2 later.2
  = Done (0, later.1.2, later.2).
Proof.
  set (first := ResultOf ExampleFirstCall (0, ExampleSession.1, ExampleSession.2)).
  intros later.
  apply (AllocateDeduplicated_returns_cached_offset ExampleHash
           [1; 1] [4096; 8192] 2 D3D12_DESCRIPTOR_HEAP_TYPE_SAMPLER 0
           ExampleBetween ExampleSession.1 first.1.2 later.1.2
           ExampleSession.2 first.2 later.2 0 later.1.1).
  - vm_compute. reflexivity.
  - discriminate.
  - vm_compute. reflexivity.
Defined.

(** ** The exhaustive search for sampler tables *)

Section SamplerSearch.

Import FD3D12ExplicitDescriptorCache.

(** The search only reports an offset whose run ends strictly before the
    number of written descriptors. *)
Lemma ExhaustiveSearch_loop_bound k : ∀ i Ds n End h r,
  ExhaustiveSearch_loop k i Ds n End h = Done r → r ≠ INDEX_NONE →
  i ≤ r ∧ r + s32 n < End.
Proof.
  induction k as [|k IH]; intros i Ds n End h r Hrun Hr; cbn in Hrun.
  - by simplify_eq.
  - case_decide; [|by simplify_eq]. bind_inv Hrun.
    match type of Hrun with (if ?b then _ else _) = _ => destruct b end.
    + simplify_eq. lia.
    + apply IH in Hrun; [lia|done].
Qed.

(** More iterations than [SearchEndPos - NumDescriptors - SearchIndex]
    change nothing: the loop test has failed by then. *)
Lemma ExhaustiveSearch_loop_fuel Ds n End h k : ∀ i,
  (Z.to_nat (End - s32 n - i) ≤ k)%nat →
  ExhaustiveSearch_loop (S k) i Ds n End h = ExhaustiveSearch_loop k i Ds n End h.
Proof.
  induction k as [|k IH]; intros i Hk.
  - cbn. rewrite decide_False; [done|lia].
  - change (ExhaustiveSearch_loop (S (S k)) i Ds n End h)
      with (if decide (i + s32 n < End) then
              b ←! FD3D12ExplicitDescriptorHeap.CompareDescriptors i Ds n h;
              if b : bool then Done i
              else ExhaustiveSearch_loop (S k) (i + 1) Ds n End h
            else Done INDEX_NONE).
    change (ExhaustiveSearch_loop (S k) i Ds n End h)
      with (if decide (i + s32 n < End) then
              b ←! FD3D12ExplicitDescriptorHeap.CompareDescriptors i Ds n h;
              if b : bool then Done i
              else ExhaustiveSearch_loop k (i + 1) Ds n End h
            else Done INDEX_NONE).
    case_decide; [|done].
    destruct (FD3D12ExplicitDescriptorHeap.CompareDescriptors i Ds n h) as [[]|];
      cbn [bindO]; [done| |done].
    apply IH. lia.
Qed.

Lemma ExhaustiveSearch_bound Ds n h r :
  ExhaustiveSearch Ds n h = Done r → r ≠ INDEX_NONE →
  0 ≤ r ∧
  r + s32 n < FD3D12ExplicitDescriptorHeap.NumWrittenSamplerDescriptors h.
Proof. apply ExhaustiveSearch_loop_bound. Qed.

(** With the default [EXPLICIT_DESCRIPTOR_CACHE_FULL_COMPARE], no
    allocation call writes the shadow copy of the handles. *)
Lemma Heap_Allocate_Descriptors n h w r h' w' :
  FD3D12ExplicitDescriptorHeap.Allocate n h w = Done (r, h', w') →
  FD3D12ExplicitDescriptorHeap.Descriptors h'
  = FD3D12ExplicitDescriptorHeap.Descriptors h.
Proof. intros H. by rewrite (Allocate_heap _ _ _ _ _ _ H). Qed.

Lemma Shadows_set_HeapOf T h c :
  FD3D12ExplicitDescriptorHeap.Descriptors h
  = FD3D12ExplicitDescriptorHeap.Descriptors (HeapOf T c) →
  Shadows (set_HeapOf T h c) = Shadows c.
Proof.
  unfold Shadows, set_HeapOf, HeapOf. cbn [ViewHeap SamplerHeap].
  destruct (IsView T); by intros ->.
Qed.

Lemma Allocate_Shadows Ds n T W c w r c' w' :
  Allocate Ds n T W c w = Done (r, c', w') → Shadows c' = Shadows c.
Proof.
  intros Hrun. unfold Allocate in Hrun.
  match type of Hrun with
  | bindO ?B _ = _ =>
      assert (∀ idx c1 w1, B = Done (idx, c1, w1) → Shadows c1 = Shadows c)
        as Hfirst
  end.
  { intros idx c1 w1 HB. destruct (IsView T) eqn:HT.
    - bind_inv HB. case_decide.
      + bind_inv HB. simplify_eq.
        rewrite Shadows_set_HeapOf; [done|]. by eapply Heap_Allocate_Descriptors.
      + by simplify_eq.
    - bind_inv HB. simplify_eq.
      rewrite Shadows_set_HeapOf; [done|]. by eapply Heap_Allocate_Descriptors. }
  bind_inv Hrun. rewrite <- (Hfirst _ _ _ eq_refl).
  case_decide; [by simplify_eq|].
  unfold FD3D12ExplicitDescriptorHeap.CopyDescriptors,
    EXPLICIT_DESCRIPTOR_CACHE_FULL_COMPARE in Hrun.
  bind_inv Hrun. bind_inv E0. simplify_eq. apply Shadows_set_HeapOf.
  by destruct (_ && _).
Qed.

Lemma AllocateDeduplicated_Shadows HashBuffer Vs Ds n T W c w r c' w' :
  AllocateDeduplicated HashBuffer Vs Ds n T W c w = Done (r, c', w') →
  Shadows c' = Shadows c.
Proof.
  intros Hrun.
  unfold AllocateDeduplicated, EXPLICIT_DESCRIPTOR_CACHE_FULL_COMPARE in Hrun.
  bind_inv Hrun.
  match type of Hrun with (if ?b then _ else _) = _ => destruct b end;
    [by simplify_eq|].
  bind_inv Hrun. case_decide; [by simplify_eq|].
  bind_inv Hrun. simplify_eq.
  match goal with
  | E : Allocate _ _ _ _ _ _ = _ |- _ => apply Allocate_Shadows in E
  end.
  done.
Qed.

Lemma RunCalls_Shadows HashBuffer ks : ∀ c w rs c' w',
  RunCalls HashBuffer ks c w = Done (rs, c', w') → Shadows c' = Shadows c.
Proof.
  induction ks as [|k ks IH]; intros c w rs c' w' Hrun; cbn [RunCalls] in Hrun.
  - by simplify_eq.
  - bind_inv Hrun. simplify_eq.
    match goal with
    | E : RunCalls _ _ _ _ = _ |- _ => apply IH in E; rewrite E
    end.
    match goal with
    | E : RunCall _ ?k _ _ = _ |- _ => destruct k; cbn [RunCall] in E
    end.
    + by eapply AllocateDeduplicated_Shadows.
    + by eapply Allocate_Shadows.
Qed.

(** The search reports only offsets at which the comparison succeeded. *)
Lemma ExhaustiveSearch_loop_found k : ∀ i Ds n End h r,
  ExhaustiveSearch_loop k i Ds n End h = Done r → r ≠ INDEX_NONE →
  FD3D12ExplicitDescriptorHeap.CompareDescriptors r Ds n h = Done true.
Proof.
  induction k as [|k IH]; intros i Ds n End h r Hrun Hr; cbn in Hrun.
  - by simplify_eq.
  - case_decide; [|by simplify_eq]. bind_inv Hrun.
    match type of Hrun with (if ?b then _ else _) = _ => destruct b end.
    + by simplify_eq.
    + by eapply IH.
Qed.

(** A comparison with a shadow copy that holds only zeros succeeds only for
    handles that are all zero. *)
Lemma CompareDescriptors_loop_zero Shadow Base Ds k : ∀ i,
  Forall (λ x, x = 0) Shadow →
  FD3D12ExplicitDescriptorHeap.CompareDescriptors_loop k i Base Ds Shadow
  = Done true →
  ∀ j, 0 ≤ j < Z.of_nat k → read_at Ds (i + j) = Done 0.
Proof.
  induction k as [|k IH]; intros i Hzero Hrun j Hj; [lia|].
  cbn [FD3D12ExplicitDescriptorHeap.CompareDescriptors_loop] in Hrun.
  bind_inv Hrun. case_decide as Hne; [done|].
  match goal with
  | E : TArray_at _ _ = Done ?a |- _ =>
      apply TArray_at_Done in E as [_ E];
      pose proof (Forall_lookup_1 _ _ _ _ Hzero E) as Ha; cbn in Ha
  end.
  destruct (decide (j = 0)) as [->|Hj0].
  - rewrite Z.add_0_r.
    match goal with E : read_at Ds i = Done ?b |- _ => rewrite E end.
    f_equal. destruct (decide (a = a0)); [congruence|done].
  - replace (i + j) with ((i + 1) + (j - 1)) by lia.
    apply (IH (i + 1) Hzero Hrun). lia.
Qed.

(** With the default [EXPLICIT_DESCRIPTOR_CACHE_FULL_COMPARE]: after any run
    of calls on a sampler heap whose shadow copy holds zeros, as [Init]
    leaves it, the exhaustive search finds a table only if all the
    requested handles are zero. *)
Lemma ExhaustiveSearch_finds_only_null_tables HashBuffer ks c w rs c' w' Ds n r :
  Forall (λ x, x = 0) (FD3D12ExplicitDescriptorHeap.Descriptors (SamplerHeap c)) →
  RunCalls HashBuffer ks c w = Done (rs, c', w') →
  ExhaustiveSearch Ds n (SamplerHeap c') = Done r → r ≠ INDEX_NONE →
  ∀ j, 0 ≤ j < Z.of_nat (Z.to_nat n) → read_at Ds j = Done 0.
Proof.
  intros Hzero Hrun Hsearch Hr j Hj.
  apply RunCalls_Shadows in Hrun. unfold Shadows in Hrun.
  assert (FD3D12ExplicitDescriptorHeap.Descriptors (SamplerHeap c')
          = FD3D12ExplicitDescriptorHeap.Descriptors (SamplerHeap c)) as Heq
    by congruence.
  apply ExhaustiveSearch_loop_found in Hsearch; [|done].
  unfold FD3D12ExplicitDescriptorHeap.CompareDescriptors in Hsearch.
  rewrite Heq in Hsearch.
  apply (CompareDescriptors_loop_zero _ _ _ _ 0 Hzero Hsearch j Hj).
Qed.

(** C4 (what the code does instead).  Two workers share a sampler heap with
    exhaustive deduplication enabled.  Worker 0 gets offset 0 for the table
    [4096; 8192] and offset 2 for the table [12288].  Worker 1 then asks for
    the table [4096; 8192], which lies in the written part of the heap at
    offset 0: it gets the new offset 3 and the table is copied to the heap
    a second time.  The same happens when worker 1 asks right after the
    first call of worker 0.  The shadow copy the search compares with still
    holds the zeros [Init] put there. *)
Theorem AllocateDeduplicated_sampler_tables_not_shared :
  let c := ExampleSession.1 in
  let w := ExampleSession.2 in
  let S := D3D12_DESCRIPTOR_HEAP_TYPE_SAMPLER in
  FD3D12ExplicitDescriptorHeap.bExhaustiveSamplerDeduplication (SamplerHeap c) = true ∧
  length (WorkerData c) = 2%nat ∧
  (∃ c' w',
     RunCalls ExampleHash
       [CallAllocateDeduplicated [1; 1] [4096; 8192] 2 S 0;
        CallAllocateDeduplicated [1] [12288] 1 S 0;
        CallAllocateDeduplicated [1; 1] [4096; 8192] 2 S 1] c w
     = Done ([0; 2; 3], c', w') ∧
     DeviceCopies (Trace w') = [[4096; 8192]; [12288]; [4096; 8192]] ∧
     FD3D12ExplicitDescriptorHeap.NumWrittenSamplerDescriptors (SamplerHeap c') = 5 ∧
     FD3D12ExplicitDescriptorHeap.Descriptors (SamplerHeap c') = replicate 16 0) ∧
  (∃ c' w',
     RunCalls ExampleHash
       [CallAllocateDeduplicated [1; 1] [4096; 8192] 2 S 0;
        CallAllocateDeduplicated [1; 1] [4096; 8192] 2 S 1] c w
     = Done ([0; 2], c', w') ∧
     DeviceCopies (Trace w') = [[4096; 8192]; [4096; 8192]]).
Proof.
  cbn zeta. split; [reflexivity|]. split; [reflexivity|]. split.
  - eexists _, _. split; [vm_compute; reflexivity|].
    split; [reflexivity|]. split; reflexivity.
  - eexists _, _. split; [vm_compute; reflexivity|]. reflexivity.
Qed.

End SamplerSearch.

(** * Further properties of the code *)

(** ** [CompareDescriptors] and the exhaustive search *)

Section SearchSpec.

Import FD3D12ExplicitDescriptorHeap.

(** The loop of [CompareDescriptors] while every index is in range: the
    answer is whether the two runs of handles are equal. *)
Lemma CompareDescriptors_loop_spec Base In Shadow k : ∀ i,
  0 ≤ Base → 0 ≤ i →
  Base + i + Z.of_nat k ≤ Z.of_nat (length Shadow) →
  Base + i + Z.of_nat k ≤ 2 ^ 31 →
  i + Z.of_nat k ≤ Z.of_nat (length In) →
  CompareDescriptors_loop k i Base In Shadow
  = Done (bool_decide (take k (drop (Z.to_nat (Base + i)) Shadow)
                       = take k (drop (Z.to_nat i) In))).
Proof.
  induction k as [|k IH]; intros i HB Hi Hs H31 Hin.
  - cbn. by rewrite bool_decide_eq_true_2.
  - cbn [CompareDescriptors_loop].
    destruct (lookup_lt_is_Some_2 Shadow (Z.to_nat (Base + i))) as [a Ha]; [lia|].
    destruct (lookup_lt_is_Some_2 In (Z.to_nat i)) as [b Hb]; [lia|].
    rewrite s32_small by lia.
    assert (TArray_at Shadow (Base + i) = Done a) as ->
      by (apply TArray_at_Done; split; [lia|done]).
    unfold read_at. rewrite Hb. cbn [bindO].
    rewrite (drop_S _ _ _ Ha), (drop_S _ _ _ Hb). cbn [take].
    case_decide as Hab.
    + rewrite bool_decide_eq_false_2; [done|]. intros Heq. by simplify_eq.
    + assert (a = b) as -> by (destruct (decide (a = b)); [done|by destruct Hab]).
      rewrite (IH (i + 1)) by lia.
      replace (Z.to_nat (Base + (i + 1))) with (S (Z.to_nat (Base + i))) by lia.
      replace (Z.to_nat (i + 1)) with (S (Z.to_nat i)) by lia.
      f_equal. apply bool_decide_ext. split; [by intros ->|].
      intros Heq. by simplify_eq.
Qed.

Lemma CompareDescriptors_spec Base In n h :
  0 ≤ Base → 0 ≤ n →
  Base + n ≤ Z.of_nat (length (Descriptors h)) →
  Base + n ≤ 2 ^ 31 →
  n ≤ Z.of_nat (length In) →
  CompareDescriptors Base In n h
  = Done (bool_decide (ShadowSlice h Base n = take (Z.to_nat n) In)).
Proof.
  intros. unfold CompareDescriptors, ShadowSlice.
  rewrite CompareDescriptors_loop_spec by lia.
  rewrite Z.add_0_r. done.
Qed.

Import FD3D12ExplicitDescriptorCache.

(** The search loop while the shadow array covers the written range: it
    returns the first index from [i] on whose table lies strictly before
    [SearchEndPos] and equals the request, or [INDEX_NONE] if there is
    none. *)
Lemma ExhaustiveSearch_loop_first Ds n End h k : ∀ i,
  0 ≤ i → 0 ≤ n < 2 ^ 31 →
  End ≤ Z.of_nat (length (Descriptors h)) → End ≤ 2 ^ 31 →
  n ≤ Z.of_nat (length Ds) →
  End - n - i ≤ Z.of_nat k →
  ∃ r, ExhaustiveSearch_loop k i Ds n End h = Done r ∧
    ((r = INDEX_NONE ∧
      ∀ j, i ≤ j → j + n < End → ShadowSlice h j n ≠ take (Z.to_nat n) Ds)
     ∨ (i ≤ r ∧ r + n < End ∧ ShadowSlice h r n = take (Z.to_nat n) Ds ∧
        ∀ j, i ≤ j < r → ShadowSlice h j n ≠ take (Z.to_nat n) Ds)).
Proof.
  induction k as [|k IH]; intros i Hi Hn Hlen H31 HDs Hk.
  - exists INDEX_NONE. split; [done|]. left. split; [done|]. intros; lia.
  - cbn [ExhaustiveSearch_loop]. rewrite (s32_small n) by lia.
    case_decide as Hlt.
    + rewrite CompareDescriptors_spec by lia. cbn [bindO].
      case_bool_decide as Heq.
      * exists i. split; [done|]. right. repeat split; try done; try lia.
      * destruct (IH (i + 1)) as (r & Hr & Hspec); try lia.
        exists r. split; [done|].
        destruct Hspec as [[-> Hnone]|(Hir & Hrn & Hm & Hmin)].
        -- left. split; [done|]. intros j Hj Hjn.
           destruct (decide (j = i)) as [->|]; [done|]. apply Hnone; lia.
        -- right. split; [lia|]. split; [done|]. split; [done|].
           intros j Hj. destruct (decide (j = i)) as [->|]; [done|].
           apply Hmin; lia.
    + exists INDEX_NONE. split; [done|]. left. split; [done|]. intros; lia.
Qed.

Lemma ExhaustiveSearch_first Ds n h :
  0 ≤ n < 2 ^ 31 →
  NumWrittenSamplerDescriptors h ≤ Z.of_nat (length (Descriptors h)) →
  NumWrittenSamplerDescriptors h ≤ 2 ^ 31 →
  n ≤ Z.of_nat (length Ds) →
  ∃ r, ExhaustiveSearch Ds n h = Done r ∧
    ((r = INDEX_NONE ∧
      ∀ j, 0 ≤ j → j + n < NumWrittenSamplerDescriptors h →
        ShadowSlice h j n ≠ take (Z.to_nat n) Ds)
     ∨ (0 ≤ r ∧ r + n < NumWrittenSamplerDescriptors h ∧
        ShadowSlice h r n = take (Z.to_nat n) Ds ∧
        ∀ j, 0 ≤ j < r → ShadowSlice h j n ≠ take (Z.to_nat n) Ds)).
Proof.
  intros Hn Hlen H31 HDs. unfold ExhaustiveSearch. cbn zeta.
  apply ExhaustiveSearch_loop_first; try lia.
  rewrite (s32_small n) by lia. lia.
Qed.

(** X1. [CompareDescriptors] decides equality of tables: when the [n]
    shadow slots from [BaseIndex] on exist and the caller's buffer holds
    [n] handles, the call returns, and it returns true exactly when the
    shadow slots hold the caller's first [n] handles. *)
Theorem CompareDescriptors_decides_equality BaseIndex In n h :
  0 ≤ BaseIndex → 0 ≤ n →
  BaseIndex + n ≤ Z.of_nat (length (Descriptors h)) →
  BaseIndex + n ≤ 2 ^ 31 →
  n ≤ Z.of_nat (length In) →
  ∃ b, CompareDescriptors BaseIndex In n h = Done b ∧
       (b = true ↔ ShadowSlice h BaseIndex n = take (Z.to_nat n) In).
Proof.
  intros. eexists. split; [by apply CompareDescriptors_spec|].
  apply bool_decide_eq_true.
Qed.

Lemma CompareDescriptors_decides_equality_witness :
  ∃ b, CompareDescriptors 3 [8; 9; 10] 2 ExampleShadowHeap = Done b ∧
       (b = true ↔ ShadowSlice ExampleShadowHeap 3 2 = take (Z.to_nat 2) [8; 9; 10]).
Proof.
  apply (CompareDescriptors_decides_equality 3 [8; 9; 10] 2 ExampleShadowHeap).
  - lia.
  - lia.
  - cbn. lia.
  - lia.
  - cbn. lia.
Defined.

(** X2. The exhaustive sampler search returns the first match: when the
    shadow array covers the written range, the search returns; a result
    other than [INDEX_NONE] is an index whose table equals the request,
    lies strictly before the written count, and has no matching index
    before it; [INDEX_NONE] means that no index whose table lies strictly
    before the written count matches. *)
Theorem ExhaustiveSearch_returns_first_match Ds n h :
  0 ≤ n < 2 ^ 31 →
  NumWrittenSamplerDescriptors h ≤ Z.of_nat (length (Descriptors h)) →
  NumWrittenSamplerDescriptors h ≤ 2 ^ 31 →
  n ≤ Z.of_nat (length Ds) →
  ∃ r, ExhaustiveSearch Ds n h = Done r ∧
    (r = INDEX_NONE →
      ∀ j, 0 ≤ j → j + n < NumWrittenSamplerDescriptors h →
        ShadowSlice h j n ≠ take (Z.to_nat n) Ds) ∧
    (r ≠ INDEX_NONE →
      0 ≤ r ∧ r + n < NumWrittenSamplerDescriptors h ∧
      ShadowSlice h r n = take (Z.to_nat n) Ds ∧
      ∀ j, 0 ≤ j < r → ShadowSlice h j n ≠ take (Z.to_nat n) Ds).
Proof.
  intros Hn Hlen H31 HDs.
  destruct (ExhaustiveSearch_first Ds n h Hn Hlen H31 HDs) as (r & Hr & Hspec).
  exists r. split; [done|].
  destruct Hspec as [[-> Hnone]|(H0 & Hrn & Hm & Hmin)].
  - split; [done|]. intros Hne. by destruct Hne.
  - split; [|done]. intros ->. unfold INDEX_NONE in H0. lia.
Qed.

Lemma ExhaustiveSearch_returns_first_match_witness :
  ∃ r, ExhaustiveSearch [8; 9] 2 ExampleShadowHeap = Done r ∧
    (r = INDEX_NONE →
      ∀ j, 0 ≤ j → j + 2 < NumWrittenSamplerDescriptors ExampleShadowHeap →
        ShadowSlice ExampleShadowHeap j 2 ≠ take (Z.to_nat 2) [8; 9]) ∧
    (r ≠ INDEX_NONE →
      0 ≤ r ∧ r + 2 < NumWrittenSamplerDescriptors ExampleShadowHeap ∧
      ShadowSlice ExampleShadowHeap r 2 = take (Z.to_nat 2) [8; 9] ∧
      ∀ j, 0 ≤ j < r → ShadowSlice ExampleShadowHeap j 2 ≠ take (Z.to_nat 2) [8; 9]).
Proof.
  apply (ExhaustiveSearch_returns_first_match [8; 9] 2 ExampleShadowHeap).
  - lia.
  - cbn. lia.
  - cbn. lia.
  - cbn. lia.
Defined.

End SearchSpec.

(** ** The sampler heap across calls *)

Section SamplerInvariant.

Import FD3D12ExplicitDescriptorCache.

Lemma s32_wrap z : 2 ^ 31 ≤ z < 2 ^ 32 + 2 ^ 31 → s32 z = z - 2 ^ 32.
Proof.
  intros. unfold s32.
  replace (z + 2 ^ 31) with ((z - 2 ^ 32 + 2 ^ 31) + 1 * 2 ^ 32) by lia.
  rewrite Z_mod_plus_full. rewrite Z.mod_small; lia.
Qed.

Lemma u32_wrap z : 2 ^ 32 ≤ z < 2 ^ 33 → u32 z = z - 2 ^ 32.
Proof.
  intros. unfold u32.
  replace z with ((z - 2 ^ 32) + 1 * 2 ^ 32) at 1 by lia.
  rewrite Z_mod_plus_full. rewrite Z.mod_small; lia.
Qed.

(** [FD3D12ExplicitDescriptorHeap::Allocate] on a sampler heap whose cursor
    is inside the heap, for any [uint32] count. *)
Lemma Heap_Allocate_sampler n h w :
  SamplerHeapInv h → 0 ≤ n < 2 ^ 32 →
  let c := FD3D12ExplicitDescriptorHeap.NumAllocatedDescriptors h in
  let c' := s32 (c + s32 n) in
  (FD3D12ExplicitDescriptorHeap.Allocate n h w = Halted FatalLog ∧
   (n < 2 ^ 31 → FD3D12ExplicitDescriptorHeap.MaxNumDescriptors h < c + n))
  ∨ (FD3D12ExplicitDescriptorHeap.Allocate n h w
     = Done (c, FD3D12ExplicitDescriptorHeap.set_NumAllocatedDescriptors c' h, w) ∧
     0 ≤ c' ≤ FD3D12ExplicitDescriptorHeap.MaxNumDescriptors h ∧
     s32 (c + s32 n) = c' ∧
     (n < 2 ^ 31 →
      c' = c + n)).
Proof.
  intros (Hty & Hex & Hc & Hmax & Hw & Hlen) Hn. cbn zeta.
  unfold FD3D12ExplicitDescriptorHeap.Allocate, InterlockedAdd.
  cbn [FD3D12ExplicitDescriptorHeap.MaxNumDescriptors
       FD3D12ExplicitDescriptorHeap.HeapType
       FD3D12ExplicitDescriptorHeap.set_NumAllocatedDescriptors].
  rewrite Hty.
  destruct (decide (n < 2 ^ 31)) as [Hsmall|Hbig].
  - rewrite (s32_small n) by lia. rewrite u32_small by lia.
    case_decide as Hcmp.
    + left. rewrite decide_True by done. split; [done|lia].
    + right. rewrite s32_small by lia. repeat split; try done; lia.
  - rewrite (s32_wrap n) by lia.
    destruct (decide (FD3D12ExplicitDescriptorHeap.NumAllocatedDescriptors h + n
                      < 2 ^ 32)) as [Hlt|Hge].
    + rewrite u32_small by lia. rewrite decide_True by lia.
      left. rewrite decide_True by done. split; [done|lia].
    + rewrite u32_wrap by lia. rewrite decide_False by lia.
      right. rewrite s32_small by lia. repeat split; try done; lia.
Qed.

Lemma SamplerHeap_update_MapOf T W f c :
  SamplerHeap (update_MapOf T W f c) = SamplerHeap c.
Proof. done. Qed.

Lemma SamplerHeapInv_cursor c' h :
  SamplerHeapInv h →
  0 ≤ c' ≤ FD3D12ExplicitDescriptorHeap.MaxNumDescriptors h →
  SamplerHeapInv
    (FD3D12ExplicitDescriptorHeap.set_NumWrittenSamplerDescriptors c'
       (FD3D12ExplicitDescriptorHeap.set_NumAllocatedDescriptors c' h)).
Proof.
  intros (Hty & Hex & Hc & Hmax & Hw & Hlen) Hc'.
  unfold SamplerHeapInv. cbn. done.
Qed.

(** [FD3D12ExplicitDescriptorCache::Allocate] of a view table leaves the
    sampler heap alone. *)
Lemma Cache_Allocate_view_SamplerHeap Ds n W c w r c' w' :
  Allocate Ds n D3D12_DESCRIPTOR_HEAP_TYPE_CBV_SRV_UAV W c w = Done (r, c', w') →
  SamplerHeap c' = SamplerHeap c.
Proof.
  intros Hrun. unfold Allocate in Hrun. rewrite IsView_view in Hrun.
  match type of Hrun with
  | bindO ?B _ = _ =>
      assert (∀ idx c1 w1, B = Done (idx, c1, w1) → SamplerHeap c1 = SamplerHeap c)
        as Hfirst
  end.
  { intros idx c1 w1 HB. bind_inv HB. case_decide.
    - bind_inv HB. simplify_eq. unfold set_HeapOf. by rewrite IsView_view.
    - by simplify_eq. }
  bind_inv Hrun. rewrite <- (Hfirst _ _ _ eq_refl).
  case_decide; [by simplify_eq|].
  bind_inv Hrun. simplify_eq. unfold set_HeapOf. by rewrite IsView_view.
Qed.

(** ... and of a sampler table keeps the sampler heap in the state the
    search relies on; the offset is the cursor before the call. *)
Lemma Cache_Allocate_sampler Ds n W c w r c' w' :
  SamplerHeapInv (SamplerHeap c) → 0 ≤ n < 2 ^ 32 →
  Allocate Ds n D3D12_DESCRIPTOR_HEAP_TYPE_SAMPLER W c w = Done (r, c', w') →
  SamplerHeapInv (SamplerHeap c') ∧
  r = FD3D12ExplicitDescriptorHeap.NumAllocatedDescriptors (SamplerHeap c) ∧
  FD3D12ExplicitDescriptorHeap.NumAllocatedDescriptors (SamplerHeap c')
  = s32 (r + s32 n) ∧
  ViewHeap c' = ViewHeap c ∧ WorkerData c' = WorkerData c.
Proof.
  intros Hinv Hn Hrun. unfold Allocate, HeapOf in Hrun.
  rewrite IsView_sampler in Hrun.
  destruct (Heap_Allocate_sampler n (SamplerHeap c) w Hinv Hn)
    as [[Hhalt _]|(Hdone & Hc' & _ & _)]; rewrite ?Hhalt, ?Hdone in Hrun;
    [done|].
  cbn [bindO] in Hrun.
  pose proof Hinv as (Hty & Hex & Hc & Hmax & Hw & Hlen).
  rewrite decide_False in Hrun by (unfold INDEX_NONE; lia).
  unfold FD3D12ExplicitDescriptorHeap.CopyDescriptors,
    EXPLICIT_DESCRIPTOR_CACHE_FULL_COMPARE, set_HeapOf in Hrun.
  rewrite IsView_sampler in Hrun.
  cbn [SamplerHeap ViewHeap] in Hrun.
  bind_inv Hrun. bind_inv E. simplify_eq.
  cbn [FD3D12ExplicitDescriptorHeap.bExhaustiveSamplerDeduplication
       FD3D12ExplicitDescriptorHeap.set_NumAllocatedDescriptors
       SamplerHeap ViewHeap WorkerData].
  rewrite Hex. cbn [andb].
  unfold InterlockedAdd.
  cbn [snd FD3D12ExplicitDescriptorHeap.NumWrittenSamplerDescriptors
       FD3D12ExplicitDescriptorHeap.set_NumAllocatedDescriptors
       FD3D12ExplicitDescriptorHeap.set_NumWrittenSamplerDescriptors
       FD3D12ExplicitDescriptorHeap.NumAllocatedDescriptors].
  rewrite Hw. split; [by apply SamplerHeapInv_cursor|]. done.
Qed.

Lemma Cache_Allocate_SamplerHeapInv Ds n T W c w r c' w' :
  SamplerHeapInv (SamplerHeap c) →
  CallArgsTyped (CallAllocate Ds n T W) →
  Allocate Ds n T W c w = Done (r, c', w') →
  SamplerHeapInv (SamplerHeap c').
Proof.
  intros Hinv [Hn [->| ->]] Hrun.
  - by rewrite (Cache_Allocate_view_SamplerHeap _ _ _ _ _ _ _ _ Hrun).
  - by eapply Cache_Allocate_sampler.
Qed.

Lemma AllocateDeduplicated_SamplerHeapInv HashBuffer Vs Ds n T W c w r c' w' :
  SamplerHeapInv (SamplerHeap c) →
  CallArgsTyped (CallAllocateDeduplicated Vs Ds n T W) →
  AllocateDeduplicated HashBuffer Vs Ds n T W c w = Done (r, c', w') →
  SamplerHeapInv (SamplerHeap c').
Proof.
  intros Hinv Hty Hrun.
  unfold AllocateDeduplicated, EXPLICIT_DESCRIPTOR_CACHE_FULL_COMPARE in Hrun.
  bind_inv Hrun.
  match type of Hrun with (if ?b then _ else _) = _ => destruct b end;
    [by simplify_eq|].
  bind_inv Hrun. case_decide; [by simplify_eq|].
  bind_inv Hrun. simplify_eq. rewrite SamplerHeap_update_MapOf.
  match goal with
  | E : Allocate _ _ _ _ _ _ = _ |- _ =>
      eapply Cache_Allocate_SamplerHeapInv in E; [done| |exact Hty]
  end.
  by rewrite SamplerHeap_update_MapOf.
Qed.

(** [ReleaseStaleEntries] and [AllocateHeap] leave the console variable
    alone. *)
Lemma DecStats_cvar It w :
  GD3D12ExplicitDeduplicateSamplers (FD3D12ExplicitDescriptorHeapCache.DecStats It w)
  = GD3D12ExplicitDeduplicateSamplers w.
Proof. unfold FD3D12ExplicitDescriptorHeapCache.DecStats. by case_decide. Qed.

Lemma ReleaseStaleEntries_loop_cvar CF CT MF MS k : ∀ idx l w l' w',
  FD3D12ExplicitDescriptorHeapCache.ReleaseStaleEntries_loop k CF CT MF MS idx l w
  = (l', w') →
  GD3D12ExplicitDeduplicateSamplers w' = GD3D12ExplicitDeduplicateSamplers w.
Proof.
  induction k as [|k IH]; intros idx l w l' w' Hrun; cbn in Hrun.
  - by simplify_eq.
  - destruct (l !! idx); [|by simplify_eq].
    destruct (FD3D12ExplicitDescriptorHeapCache.IsStale _ _ _ _ _).
    + apply IH in Hrun. rewrite Hrun. cbn. apply DecStats_cvar.
    + by apply IH in Hrun.
Qed.

Lemma AllocateHeap_cvar host T n cache w e cache' w' :
  FD3D12ExplicitDescriptorHeapCache.AllocateHeap host T n cache w
  = Done (e, cache', w') →
  GD3D12ExplicitDeduplicateSamplers w' = GD3D12ExplicitDeduplicateSamplers w.
Proof.
  unfold FD3D12ExplicitDescriptorHeapCache.AllocateHeap. cbn zeta.
  destruct (FD3D12ExplicitDescriptorHeapCache.FindCompatible _ _ _ _)
    as [[i It]|]; [intros; by simplify_eq|].
  unfold FD3D12ExplicitDescriptorHeapCache.ReleaseStaleEntries. cbn zeta.
  destruct (FD3D12ExplicitDescriptorHeapCache.ReleaseStaleEntries_loop _ _ _ _ _ _ _ _)
    as [l1 w1] eqn:Hloop.
  apply ReleaseStaleEntries_loop_cvar in Hloop.
  destruct (CreateDescriptorHeap host _); [|done].
  intros Hrun. simplify_eq. rewrite <- Hloop. by case_decide.
Qed.

(** Where the entry that [AllocateHeap] returns comes from. *)
Lemma AllocateHeap_source host T n cache w e cache' w' :
  FD3D12ExplicitDescriptorHeapCache.AllocateHeap host T n cache w
  = Done (e, cache', w') →
  e ∈ FD3D12ExplicitDescriptorHeapCache.FreeList cache
  ∨ ∃ p, e = CreatedEntry p T
               (FD3D12ExplicitDescriptorHeapCache.AlignedNumDescriptors T n).
Proof.
  unfold FD3D12ExplicitDescriptorHeapCache.AllocateHeap. cbn zeta.
  destruct (FD3D12ExplicitDescriptorHeapCache.FindCompatible _ _ _ _)
    as [[i It]|] eqn:Hfind.
  - intros Hrun. simplify_eq. left.
    apply FindCompatible_Some in Hfind as (_ & Hl & _).
    by eapply list_elem_of_lookup_2.
  - destruct (FD3D12ExplicitDescriptorHeapCache.ReleaseStaleEntries _ _ _ _ _).
    destruct (CreateDescriptorHeap host _) as [p|]; [|done].
    intros Hrun. simplify_eq. right. by exists p.
Qed.

Lemma AlignedNumDescriptors_range T n :
  0 ≤ FD3D12ExplicitDescriptorHeapCache.AlignedNumDescriptors T n
    ≤ FD3D12ExplicitDescriptorHeapCache.MaxDescriptors T.
Proof.
  unfold FD3D12ExplicitDescriptorHeapCache.AlignedNumDescriptors, Clamp.
  assert (0 < FD3D12ExplicitDescriptorHeapCache.MaxDescriptors T < 2 ^ 32).
  { unfold FD3D12ExplicitDescriptorHeapCache.MaxDescriptors. by case_decide. }
  rewrite u32_small by lia. lia.
Qed.

Lemma length_SetNumZeroed N a : length (SetNumZeroed N a) = Z.to_nat N.
Proof.
  unfold SetNumZeroed. rewrite length_app, length_take, length_replicate. lia.
Qed.

(** [FD3D12ExplicitDescriptorHeap::Init] of a sampler heap, with the
    console variable at its default, sets up the state the search relies
    on. *)
Lemma Heap_Init_SamplerHeapInv host n h cache w h' cache' w' :
  FD3D12ExplicitDescriptorHeap.Init host n D3D12_DESCRIPTOR_HEAP_TYPE_SAMPLER
    h cache w = Done (h', cache', w') →
  GD3D12ExplicitDeduplicateSamplers w = 1 →
  FD3D12ExplicitDescriptorHeap.NumAllocatedDescriptors h = 0 →
  FD3D12ExplicitDescriptorHeap.NumWrittenSamplerDescriptors h = 0 →
  Forall (λ It, 0 ≤ NumDescriptors It < 2 ^ 31)
    (FD3D12ExplicitDescriptorHeapCache.FreeList cache) →
  SamplerHeapInv h' ∧
  (FD3D12ExplicitDescriptorHeap.Descriptors h = [] →
   FD3D12ExplicitDescriptorHeap.Descriptors h'
   = replicate (Z.to_nat (FD3D12ExplicitDescriptorHeap.MaxNumDescriptors h')) 0).
Proof.
  intros Hrun Hcvar Hc Hw Hfree.
  unfold FD3D12ExplicitDescriptorHeap.Init in Hrun.
  bind_inv Hrun. bind_inv E0.
  match goal with
  | E : FD3D12ExplicitDescriptorHeapCache.AllocateHeap _ _ _ _ _ = _ |- _ =>
      pose proof (AllocateHeap_cvar _ _ _ _ _ _ _ _ E) as Hcvar';
      pose proof (AllocateHeap_source _ _ _ _ _ _ _ _ E) as Hsrc
  end.
  bind_inv Hrun. simplify_eq.
  rewrite Hcvar', Hcvar. rewrite !bool_decide_eq_true_2 by done. cbn [andb].
  match goal with
  | |- context [NumDescriptors ?e] =>
      assert (0 ≤ NumDescriptors e < 2 ^ 31) as Hrange
  end.
  { destruct Hsrc as [Hin|[p ->]].
    - rewrite Forall_forall in Hfree. by apply Hfree.
    - cbn [NumDescriptors CreatedEntry].
      pose proof (AlignedNumDescriptors_range D3D12_DESCRIPTOR_HEAP_TYPE_SAMPLER n)
        as Hr.
      unfold FD3D12ExplicitDescriptorHeapCache.MaxDescriptors in Hr.
      rewrite decide_True in Hr by done.
      unfold D3D12_MAX_SHADER_VISIBLE_SAMPLER_HEAP_SIZE in Hr. lia. }
  split.
  - unfold SamplerHeapInv. cbn. rewrite Hc, Hw, length_SetNumZeroed.
    repeat split; try done; lia.
  - cbn. intros ->. unfold SetNumZeroed. cbn. by rewrite take_nil, Nat.sub_0_r.
Qed.

(** [FD3D12ExplicitDescriptorCache::Allocate] of a sampler table either
    returns or stops at the fatal overflow report; nothing else stops
    it. *)
Lemma Cache_Allocate_sampler_returns Ds n W c w :
  SamplerHeapInv (SamplerHeap c) → 0 ≤ n < 2 ^ 31 →
  n ≤ Z.of_nat (length Ds) →
  (Allocate Ds n D3D12_DESCRIPTOR_HEAP_TYPE_SAMPLER W c w = Halted FatalLog ∧
   FD3D12ExplicitDescriptorHeap.MaxNumDescriptors (SamplerHeap c)
   < FD3D12ExplicitDescriptorHeap.NumAllocatedDescriptors (SamplerHeap c) + n)
  ∨ ∃ r c' w',
      Allocate Ds n D3D12_DESCRIPTOR_HEAP_TYPE_SAMPLER W c w = Done (r, c', w').
Proof.
  intros Hinv Hn HDs. unfold Allocate, HeapOf. rewrite IsView_sampler.
  destruct (Heap_Allocate_sampler n (SamplerHeap c) w Hinv ltac:(lia))
    as [[Hhalt Hover]|(Hdone & Hc' & _ & _)]; rewrite ?Hhalt, ?Hdone.
  - left. split; [done|]. apply Hover; lia.
  - right. cbn [bindO].
    pose proof Hinv as (Hty & Hex & Hc & Hmax & Hw & Hlen).
    rewrite decide_False by (unfold INDEX_NONE; lia).
    unfold FD3D12ExplicitDescriptorHeap.CopyDescriptors,
      EXPLICIT_DESCRIPTOR_CACHE_FULL_COMPARE, read_buffer.
    rewrite decide_True by lia. cbn [bindO]. eauto.
Qed.

(** X3. [Init] sets up the sampler heap for the exhaustive search: when a
    sampler heap whose counters are zero is initialised while the console
    variable has its default value 1, and no pooled heap is larger than an
    [int32], the heap afterwards has its cursor and written count at
    zero, inside the capacity, and a shadow array of one slot per
    descriptor; a heap that had no shadow array before gets one of
    zeros. *)
Theorem Init_sets_up_sampler_heap host n h cache w h' cache' w' :
  FD3D12ExplicitDescriptorHeap.Init host n D3D12_DESCRIPTOR_HEAP_TYPE_SAMPLER
    h cache w = Done (h', cache', w') →
  GD3D12ExplicitDeduplicateSamplers w = 1 →
  FD3D12ExplicitDescriptorHeap.NumAllocatedDescriptors h = 0 →
  FD3D12ExplicitDescriptorHeap.NumWrittenSamplerDescriptors h = 0 →
  Forall (λ It, 0 ≤ NumDescriptors It < 2 ^ 31)
    (FD3D12ExplicitDescriptorHeapCache.FreeList cache) →
  SamplerHeapInv h' ∧
  FD3D12ExplicitDescriptorHeap.NumAllocatedDescriptors h' = 0 ∧
  (FD3D12ExplicitDescriptorHeap.Descriptors h = [] →
   FD3D12ExplicitDescriptorHeap.Descriptors h'
   = replicate (Z.to_nat (FD3D12ExplicitDescriptorHeap.MaxNumDescriptors h')) 0).
Proof.
  intros Hrun Hcvar Hc Hw Hfree.
  destruct (Heap_Init_SamplerHeapInv _ _ _ _ _ _ _ _ Hrun Hcvar Hc Hw Hfree)
    as [Hinv Hzero].
  split; [done|]. split; [|done].
  unfold FD3D12ExplicitDescriptorHeap.Init in Hrun.
  bind_inv Hrun. bind_inv E0. bind_inv Hrun. by simplify_eq.
Qed.

Lemma Init_sets_up_sampler_heap_witness :
  let h' := ExampleInitSamplerHeap.1.1 in
  SamplerHeapInv h' ∧
  FD3D12ExplicitDescriptorHeap.NumAllocatedDescriptors h' = 0 ∧
  (FD3D12ExplicitDescriptorHeap.Descriptors FD3D12ExplicitDescriptorHeap.Constructor
   = [] →
   FD3D12ExplicitDescriptorHeap.Descriptors h'
   = replicate (Z.to_nat (FD3D12ExplicitDescriptorHeap.MaxNumDescriptors h')) 0).
Proof.
  apply (Init_sets_up_sampler_heap (ExampleHost 0 0) 16
           FD3D12ExplicitDescriptorHeap.Constructor ExampleHeapCache World_initial
           ExampleInitSamplerHeap.1.1 ExampleInitSamplerHeap.1.2
           ExampleInitSamplerHeap.2).
  - vm_compute. reflexivity.
  - reflexivity.
  - reflexivity.
  - reflexivity.
  - constructor.
Defined.

(** X4. The sampler heap stays consistent across calls: whatever
    [Allocate] and [AllocateDeduplicated] calls are made with [uint32]
    counts and one of the two heap types, whenever they all return the
    sampler heap's cursor is still between zero and the capacity, the
    written count still equals the cursor, and the shadow array still has
    one slot per descriptor. *)
Theorem Sampler_heap_stays_consistent HashBuffer ks : ∀ c w rs c' w',
  SamplerHeapInv (SamplerHeap c) →
  Forall CallArgsTyped ks →
  RunCalls HashBuffer ks c w = Done (rs, c', w') →
  SamplerHeapInv (SamplerHeap c').
Proof.
  induction ks as [|k ks IH]; intros c w rs c' w' Hinv Hty Hrun.
  - cbn in Hrun. by simplify_eq.
  - inversion Hty as [|?? Hk Hks]; subst.
    cbn [RunCalls] in Hrun. bind_inv Hrun. simplify_eq.
    eapply IH; [|done|done].
    destruct k; cbn [RunCall] in *.
    + by eapply AllocateDeduplicated_SamplerHeapInv.
    + by eapply Cache_Allocate_SamplerHeapInv.
Qed.

Lemma Sampler_heap_stays_consistent_witness :
  let first := ResultOf ExampleFirstCall (0, ExampleSession.1, ExampleSession.2) in
  let later := ResultOf ExampleLater ([], ExampleSession.1, ExampleSession.2) in
  SamplerHeapInv (SamplerHeap later.1.2).
Proof.
  intros first later.
  apply (Sampler_heap_stays_consistent ExampleHash ExampleBetween
           first.1.2 first.2 later.1.1 later.1.2 later.2).
  - unfold SamplerHeapInv.
    split; [by vm_compute|]. split; [by vm_compute|].
    split; [split; by vm_compute|]. split; [by vm_compute|].
    split; by vm_compute.
  - unfold ExampleBetween. repeat constructor; try lia; by (left + right).
  - vm_compute. reflexivity.
Defined.

(** X5. A sampler request can only stop at the fatal overflow report: on
    a consistent sampler heap, [AllocateDeduplicated] for a sampler table
    of fewer than 2^31 descriptors, called with an existing worker index
    and buffers that hold the table, either returns (and leaves the heap
    consistent) or halts with the fatal log, and it halts only if the
    table does not fit behind the cursor.  In particular the exhaustive
    search never fails a range check. *)
Theorem AllocateDeduplicated_sampler_stops_only_on_overflow
    HashBuffer Vs Ds n W c w :
  SamplerHeapInv (SamplerHeap c) →
  0 ≤ W < Z.of_nat (length (WorkerData c)) → W < 2 ^ 31 →
  0 ≤ n < 2 ^ 31 →
  n ≤ Z.of_nat (length Vs) → n ≤ Z.of_nat (length Ds) →
  (∃ r c' w',
     AllocateDeduplicated HashBuffer Vs Ds n D3D12_DESCRIPTOR_HEAP_TYPE_SAMPLER
       W c w = Done (r, c', w') ∧
     SamplerHeapInv (SamplerHeap c'))
  ∨ (AllocateDeduplicated HashBuffer Vs Ds n D3D12_DESCRIPTOR_HEAP_TYPE_SAMPLER
       W c w = Halted FatalLog ∧
     FD3D12ExplicitDescriptorHeap.MaxNumDescriptors (SamplerHeap c)
     < FD3D12ExplicitDescriptorHeap.NumAllocatedDescriptors (SamplerHeap c) + n).
Proof.
  intros Hinv HW HW31 Hn HVs HDs.
  destruct (AllocateDeduplicated HashBuffer Vs Ds n
              D3D12_DESCRIPTOR_HEAP_TYPE_SAMPLER W c w)
    as [[[r c'] w']|why] eqn:Hrun.
  { left. exists r, c', w'. split; [done|].
    eapply AllocateDeduplicated_SamplerHeapInv; [done| |done].
    cbn. split; [lia|by right]. }
  right.
  unfold AllocateDeduplicated, EXPLICIT_DESCRIPTOR_CACHE_FULL_COMPARE in Hrun.
  rewrite (s32_small W) in Hrun by lia.
  destruct (lookup_lt_is_Some_2 (WorkerData c) (Z.to_nat W)) as [d Hd]; [lia|].
  assert (TArray_at (WorkerData c) W = Done d) as HW'
    by (apply TArray_at_Done; split; [lia|done]).
  rewrite HW' in Hrun. cbn [bindO] in Hrun.
  unfold read_buffer in Hrun. rewrite !decide_True in Hrun by lia.
  cbn [bindO] in Hrun.
  pose proof Hinv as (Hty & Hex & Hc & Hmax & Hw & Hlen).
  case_decide; cbn [bindO] in Hrun; [done|].
  unfold HeapOf in Hrun. rewrite IsView_sampler, Hex in Hrun.
  rewrite bool_decide_eq_true_2 in Hrun by done. cbn [andb] in Hrun.
  assert (∀ c0 (k : Z * t * World → Outcome (Z * t * World)),
            SamplerHeap c0 = SamplerHeap c →
            (∀ x, ∃ y, k x = Done y) →
            bindO (Allocate Ds n D3D12_DESCRIPTOR_HEAP_TYPE_SAMPLER W c0 w) k
            = Halted why →
            why = FatalLog ∧
            FD3D12ExplicitDescriptorHeap.MaxNumDescriptors (SamplerHeap c)
            < FD3D12ExplicitDescriptorHeap.NumAllocatedDescriptors (SamplerHeap c) + n)
    as Halloc.
  { intros c0 k Hc0 Hk Hb.
    destruct (Cache_Allocate_sampler_returns Ds n W c0 w) as
      [[Hh Hover]|(r & c1 & w1 & Hd1)]; rewrite ?Hc0; try done.
    - rewrite Hh in Hb. cbn in Hb. simplify_eq. by rewrite <- Hc0.
    - rewrite Hd1 in Hb. cbn [bindO] in Hb. destruct (Hk (r, c1, w1)) as [y Hy].
      by rewrite Hy in Hb. }
  case_bool_decide.
  - destruct (ExhaustiveSearch_first Ds n (SamplerHeap c)) as (r & Hr & _);
      try lia.
    rewrite Hr in Hrun. cbn [bindO] in Hrun.
    case_decide; [done|].
    apply Halloc in Hrun as [-> Hover]; [done|done|].
    intros [[r1 c1] w1]. eauto.
  - cbn [bindO] in Hrun. rewrite decide_False in Hrun by (intros Hne; by apply Hne).
    apply Halloc in Hrun as [-> Hover]; [done|done|].
    intros [[r1 c1] w1]. eauto.
Qed.

Lemma AllocateDeduplicated_sampler_stops_only_on_overflow_witness :
  let c := ExampleSession.1 in
  let w := ExampleSession.2 in
  (∃ r c' w',
     AllocateDeduplicated ExampleHash [1; 1] [4096; 8192] 2
       D3D12_DESCRIPTOR_HEAP_TYPE_SAMPLER 1 c w = Done (r, c', w') ∧
     SamplerHeapInv (SamplerHeap c'))
  ∨ (AllocateDeduplicated ExampleHash [1; 1] [4096; 8192] 2
       D3D12_DESCRIPTOR_HEAP_TYPE_SAMPLER 1 c w = Halted FatalLog ∧
     FD3D12ExplicitDescriptorHeap.MaxNumDescriptors (SamplerHeap c)
     < FD3D12ExplicitDescriptorHeap.NumAllocatedDescriptors (SamplerHeap c) + 2).
Proof.
  intros c w.
  apply (AllocateDeduplicated_sampler_stops_only_on_overflow ExampleHash
           [1; 1] [4096; 8192] 2 1 c w).
  - unfold SamplerHeapInv.
    split; [by vm_compute|]. split; [by vm_compute|].
    split; [split; by vm_compute|]. split; [by vm_compute|].
    split; by vm_compute.
  - split; by vm_compute.
  - lia.
  - lia.
  - cbn. lia.
  - cbn. lia.
Defined.

End SamplerInvariant.

(** ** The pool of descriptor heaps over its life *)

Section HeapCacheLife.

Import FD3D12ExplicitDescriptorHeapCache.

Lemma ReleaseHeap_Done host E c w c1 w1 :
  ReleaseHeap host E c w = Done (c1, w1) →
  NumAllocatedEntries c ≠ 0 ∧ w1 = w ∧
  c1 = {| FreeList := FreeList c ++ [Stamped host E];
          NumAllocatedEntries := u32 (NumAllocatedEntries c - 1) |}.
Proof.
  unfold ReleaseHeap, check. intros Hrun.
  case_bool_decide; cbn [bindO] in Hrun; [|done]. by simplify_eq.
Qed.

Lemma ReleaseHeap_returns host E c w :
  NumAllocatedEntries c ≠ 0 →
  ReleaseHeap host E c w
  = Done ({| FreeList := FreeList c ++ [Stamped host E];
             NumAllocatedEntries := u32 (NumAllocatedEntries c - 1) |}, w).
Proof.
  intros Hne. unfold ReleaseHeap, check.
  by rewrite bool_decide_eq_true_2.
Qed.

Lemma AllocateHeap_count host T n c w e c' w' :
  AllocateHeap host T n c w = Done (e, c', w') →
  NumAllocatedEntries c' = u32 (NumAllocatedEntries c + 1).
Proof.
  unfold AllocateHeap. cbn zeta. cbn [FreeList NumAllocatedEntries].
  destruct (FindCompatible _ _ _ _) as [[i It]|]; [intros; by simplify_eq|].
  destruct (ReleaseStaleEntries _ _ _ _ _) as [c1 w1] eqn:Hpurge.
  apply ReleaseStaleEntries_spec in Hpurge as (_ & Hcount & _).
  destruct (CreateDescriptorHeap host _); [|done].
  intros Hrun. by simplify_eq.
Qed.

(** What the destructor adds to the trace. *)
Lemma Destructor_foldl_trace l : ∀ w,
  let w' := foldl (λ w It, emit (HeapRelease (Heap It)) (DecStats It w)) w l in
  HeapReleases (Trace w') = HeapReleases (Trace w) ++ (Heap <$> l) ∧
  DeferredDeletes (Trace w') = DeferredDeletes (Trace w).
Proof.
  induction l as [|It l IH]; intros w; cbn zeta.
  - cbn. by rewrite app_nil_r.
  - cbn [foldl]. destruct (IH (emit (HeapRelease (Heap It)) (DecStats It w)))
      as [Hrel Hdef].
    rewrite Hrel, Hdef, HeapReleases_emit, DeferredDeletes_emit.
    destruct (DecStats_trace It w) as [-> ->].
    rewrite app_nil_r, <- app_assoc. done.
Qed.

(** Five seconds after a time below [2^54] seconds is a later time in
    double arithmetic too: up to there doubles are at most 4 seconds
    apart. *)
Lemma double_add_5_later T :
  FiniteDouble T → 0 ≤ Scaled T < 2 ^ 54 * 2 ^ 1074 →
  double_le (double_add T (DoubleOfZ 5)) T = false.
Proof.
  intros [VT FT] [H0 Hlt]. destruct Double_5 as [[V5 F5] E5].
  pose proof (pow2_gt0 1074 ltac:(lia)) as Hp.
  apply double_add_gt_lower; rewrite ?E5; [done|done|done|done|done|lia|].
  assert (Scaled T + 5 * 2 ^ 1074 < 2 ^ (55 + 1074)) as Hsum.
  { rewrite (pow2_split 55 1074) by lia.
    assert (2 ^ 55 = 2 * 2 ^ 54) as -> by
      (change 2 with (2 ^ 1) at 2; by rewrite <- pow2_split by lia).
    assert (5 * 2 ^ 1074 ≤ 2 ^ 54 * 2 ^ 1074); [|lia].
    apply Z.mul_le_mono_nonneg_r; lia. }
  apply log2_lt_pow in Hsum; [|lia].
  apply Z.le_trans with (2 ^ 1076).
  - apply pow2_le; lia.
  - assert (2 ^ 1076 = 4 * 2 ^ 1074) as ->; [|lia].
    change 1076 with (2 + 1074). by rewrite pow2_split by lia.
Qed.

(** An entry that [ReleaseHeap] has just stamped is not stale at the same
    frame and time, the clock showing less than [2^54] seconds. *)
Lemma IsStale_same_instant host E :
  0 ≤ GetNextFenceToSignal host → GetNextFenceToSignal host + 100 < 2 ^ 64 →
  FiniteDouble (Seconds host) →
  (0 <= DoubleValue (Seconds host))%Q →
  (DoubleValue (Seconds host) < inject_Z (2 ^ 54))%Q →
  IsStale (GetNextFenceToSignal host) (Seconds host) 100 (DoubleOfZ 5)
    (Stamped host E)
  = false.
Proof.
  intros H0 Hlt HT HT0 HT54. unfold IsStale, Stamped.
  cbn [LastUsedFrame LastUsedTime].
  rewrite bool_decide_eq_false_2.
  2: { unfold u64. rewrite Z.mod_small; lia. }
  cbn [orb]. apply double_add_5_later; [done|].
  apply DoubleValue_nonneg in HT0. apply DoubleValue_lt_Z in HT54. done.
Qed.

(** The sum of the test is rounded.  A heap last used at 0.1 seconds is
    stale when the clock shows 5.1 seconds, although the double 5.1 is
    less than 5 seconds above the double 0.1: their sum rounds to 5.1. *)
Lemma IsStale_rounds_the_sum :
  (DoubleValue Double_5_1 < DoubleValue Double_0_1 + 5)%Q ∧
  IsStale 0 Double_5_1 100 (DoubleOfZ 5)
    {| Heap := 7001; LastUsedFrame := 0; LastUsedTime := Double_0_1;
       NumDescriptors := 1024; Type_ := D3D12_DESCRIPTOR_HEAP_TYPE_SAMPLER |}
  = true.
Proof. split; vm_compute; reflexivity. Qed.

(** From [2^56] seconds on, doubles are 16 seconds apart, and adding 5
    seconds to the clock gives the clock: a heap stamped then is stale at
    once. *)
Lemma IsStale_same_instant_late E :
  let host := ExampleHost 0 (2 ^ 56) in
  IsStale (GetNextFenceToSignal host) (Seconds host) 100 (DoubleOfZ 5)
    (Stamped host E)
  = true.
Proof. intros host. vm_compute. reflexivity. Qed.

(** The purge loop where nothing is stale. *)
Lemma ReleaseStaleEntries_loop_noop CF CT MF MS k : ∀ idx l w,
  Forall (λ It, IsStale CF CT MF MS It = false) (drop idx l) →
  ReleaseStaleEntries_loop k CF CT MF MS idx l w = (l, w).
Proof.
  induction k as [|k IH]; intros idx l w Hfresh; cbn; [done|].
  destruct (l !! idx) as [It|] eqn:Hl; [|done].
  rewrite (drop_S _ _ _ Hl) in Hfresh.
  inversion Hfresh as [|?? Hhd Htl]; subst. rewrite Hhd. by apply IH.
Qed.

Lemma ReleaseStaleEntries_noop host MF MS c w :
  Forall (λ It, IsStale (GetNextFenceToSignal host) (Seconds host) MF MS It
                = false) (FreeList c) →
  ReleaseStaleEntries host MF MS c w
  = ({| FreeList := FreeList c; NumAllocatedEntries := NumAllocatedEntries c |}, w).
Proof.
  intros Hfresh. unfold ReleaseStaleEntries. cbn zeta.
  by rewrite ReleaseStaleEntries_loop_noop.
Qed.

Lemma ReleaseStaleEntries_fresh host MF MS c w c' w' :
  ReleaseStaleEntries host MF MS c w = (c', w') →
  Forall (λ It, IsStale (GetNextFenceToSignal host) (Seconds host) MF MS It
                = false) (FreeList c').
Proof.
  intros Hrun. apply ReleaseStaleEntries_spec in Hrun as (Hperm & _).
  cbn zeta in Hperm. rewrite Hperm.
  apply Forall_forall. intros It HIt.
  apply list_elem_of_filter in HIt as [Hns _].
  by destruct (IsStale _ _ _ _ It).
Qed.

(** X6. A released heap is handed out again: after [ReleaseHeap] of an
    entry, [AllocateHeap] for the entry's type and a count whose aligned
    value the entry covers returns an entry of the free list without
    creating a heap or touching the world, however much later it is
    called, and the count of outstanding heaps is back at its value
    before the release and the allocation.  When no other pooled entry
    was compatible, it is the released heap that comes back and the free
    list is as before the release. *)
Theorem ReleaseHeap_then_AllocateHeap_reuses hostR hostA E T n c w c1 w1 :
  ReleaseHeap hostR E c w = Done (c1, w1) →
  0 ≤ NumAllocatedEntries c < 2 ^ 32 →
  Type_ E = T → AlignedNumDescriptors T n ≤ NumDescriptors E →
  w1 = w ∧
  ∃ It c2,
    AllocateHeap hostA T n c1 w1 = Done (It, c2, w1) ∧
    It ∈ FreeList c1 ∧
    NumAllocatedEntries c2 = NumAllocatedEntries c ∧
    (Forall (λ It, ¬ Compatible T (AlignedNumDescriptors T n) It) (FreeList c) →
     It = Stamped hostR E ∧ FreeList c2 = FreeList c).
Proof.
  intros Hrel Hcount HT Hfit.
  apply ReleaseHeap_Done in Hrel as (Hne & -> & ->). split; [done|].
  destruct (FindCompatible_Exists T (AlignedNumDescriptors T n)
              (FreeList c ++ [Stamped hostR E])) as (i & It & Hfind).
  { apply Exists_app. right. constructor. split; [done|]. done. }
  exists It. eexists. split; [by apply AllocateHeap_hit|].
  pose proof Hfind as (_ & Hl & Hcompat & Hfirst)%FindCompatible_Some.
  rewrite Nat.sub_0_r in Hl.
  split; [by eapply list_elem_of_lookup_2|].
  cbn [NumAllocatedEntries FreeList].
  split; [rewrite (u32_small (_ - 1)) by lia; rewrite u32_small; lia|].
  intros Hnone.
  destruct (decide (i < length (FreeList c))%nat) as [Hlt|Hge].
  - rewrite lookup_app_l in Hl by done.
    rewrite Forall_lookup in Hnone. by destruct (Hnone i It Hl).
  - pose proof (lookup_lt_Some _ _ _ Hl) as Hi.
    rewrite length_app in Hi. cbn in Hi.
    assert (i = length (FreeList c)) as -> by lia.
    rewrite RemoveAtSwap_snoc. rewrite decide_False by lia.
    rewrite lookup_app_r in Hl by lia. rewrite Nat.sub_diag in Hl.
    cbn in Hl. by simplify_eq.
Qed.

Lemma ReleaseHeap_then_AllocateHeap_reuses_witness :
  let c := {| FreeList :=
                [ExampleEntry 7001 D3D12_DESCRIPTOR_HEAP_TYPE_SAMPLER 2048 10 1];
              NumAllocatedEntries := 1 |} in
  let E := ExampleEntry 7002 D3D12_DESCRIPTOR_HEAP_TYPE_CBV_SRV_UAV 4096 0 0 in
  let c1 := (ResultOf (ReleaseHeap (ExampleHost 20 2) E c World_initial)
               (c, World_initial)).1 in
  World_initial = World_initial ∧
  ∃ It c2,
    AllocateHeap (ExampleHost 90000 900) D3D12_DESCRIPTOR_HEAP_TYPE_CBV_SRV_UAV
      3000 c1 World_initial = Done (It, c2, World_initial) ∧
    It ∈ FreeList c1 ∧
    NumAllocatedEntries c2 = NumAllocatedEntries c ∧
    (Forall (λ It, ¬ Compatible D3D12_DESCRIPTOR_HEAP_TYPE_CBV_SRV_UAV
                     (AlignedNumDescriptors D3D12_DESCRIPTOR_HEAP_TYPE_CBV_SRV_UAV 3000) It)
       (FreeList c) →
     It = Stamped (ExampleHost 20 2) E ∧ FreeList c2 = FreeList c).
Proof.
  intros c E c1.
  apply (ReleaseHeap_then_AllocateHeap_reuses (ExampleHost 20 2)
           (ExampleHost 90000 900) E D3D12_DESCRIPTOR_HEAP_TYPE_CBV_SRV_UAV 3000
           c World_initial c1 World_initial).
  - vm_compute. reflexivity.
  - cbn. lia.
  - reflexivity.
  - by vm_compute.
Defined.

(** X7. The pool counts the heaps it has handed out: [AllocateHeap]
    raises the count by one whether it reuses or creates, so the
    destructor halts on its check while the heap is out; [ReleaseHeap] of
    the entry always returns, restores the count and appends the entry,
    stamped with the frame and time of the release, to the free list; and
    once every heap is back the destructor returns, releasing each pooled
    heap on the spot and deferring none.  The count before the allocation
    is below [2^32 - 1], so that the [uint32] increment does not wrap. *)
Theorem Destructor_needs_every_heap_returned host T n c w e c1 w1 :
  AllocateHeap host T n c w = Done (e, c1, w1) →
  0 ≤ NumAllocatedEntries c < 2 ^ 32 - 1 →
  Destructor c1 w1 = Halted CheckFailed ∧
  ∀ host', ∃ c2,
    ReleaseHeap host' e c1 w1 = Done (c2, w1) ∧
    NumAllocatedEntries c2 = NumAllocatedEntries c ∧
    FreeList c2 = FreeList c1 ++ [Stamped host' e] ∧
    (NumAllocatedEntries c = 0 →
     ∃ c3 w3,
       Destructor c2 w1 = Done (c3, w3) ∧ FreeList c3 = [] ∧
       HeapReleases (Trace w3)
       = HeapReleases (Trace w1) ++ (Heap <$> FreeList c1) ++ [Heap e] ∧
       DeferredDeletes (Trace w3) = DeferredDeletes (Trace w1)).
Proof.
  intros Halloc Hcount.
  apply AllocateHeap_count in Halloc. rewrite u32_small in Halloc by lia.
  split.
  { unfold Destructor, check. rewrite bool_decide_eq_false_2 by lia. done. }
  intros host'. eexists. split; [apply ReleaseHeap_returns; lia|].
  cbn [NumAllocatedEntries FreeList]. rewrite Halloc.
  split; [rewrite u32_small; lia|]. split; [done|].
  intros Hzero. unfold Destructor, check. cbn [NumAllocatedEntries FreeList].
  rewrite bool_decide_eq_true_2 by (rewrite Hzero; done). cbn [bindO].
  eexists _, _. split; [done|]. split; [done|].
  match goal with
  | |- context [foldl ?f ?w0 ?l] => destruct (Destructor_foldl_trace l w0) as [Hr Hd]
  end.
  cbn zeta in Hr, Hd. rewrite Hr, Hd. by rewrite fmap_app.
Qed.

Lemma Destructor_needs_every_heap_returned_witness :
  let c := {| FreeList :=
                [ExampleEntry 7001 D3D12_DESCRIPTOR_HEAP_TYPE_SAMPLER 2048 10 1;
                 ExampleEntry 7002 D3D12_DESCRIPTOR_HEAP_TYPE_CBV_SRV_UAV 4096 10 1];
              NumAllocatedEntries := 0 |} in
  let r := ResultOf (AllocateHeap (ExampleHost 20 2)
                       D3D12_DESCRIPTOR_HEAP_TYPE_SAMPLER 64 c World_initial)
             (FEntry_default, c, World_initial) in
  Destructor r.1.2 r.2 = Halted CheckFailed ∧
  ∀ host', ∃ c2,
    ReleaseHeap host' r.1.1 r.1.2 r.2 = Done (c2, r.2) ∧
    NumAllocatedEntries c2 = NumAllocatedEntries c ∧
    FreeList c2 = FreeList r.1.2 ++ [Stamped host' r.1.1] ∧
    (NumAllocatedEntries c = 0 →
     ∃ c3 w3,
       Destructor c2 r.2 = Done (c3, w3) ∧ FreeList c3 = [] ∧
       HeapReleases (Trace w3)
       = HeapReleases (Trace r.2) ++ (Heap <$> FreeList r.1.2) ++ [Heap r.1.1] ∧
       DeferredDeletes (Trace w3) = DeferredDeletes (Trace r.2)).
Proof.
  intros c r.
  apply (Destructor_needs_every_heap_returned (ExampleHost 20 2)
           D3D12_DESCRIPTOR_HEAP_TYPE_SAMPLER 64 c World_initial
           r.1.1 r.1.2 r.2).
  - vm_compute. reflexivity.
  - cbn. lia.
Defined.

Lemma FlushFreeList_foldl_trace l : ∀ w,
  Trace (foldl (λ w It, emit (DeferredDeleteHeap (Heap It)) w) w l)
  = Trace w ++ ((λ It, DeferredDeleteHeap (Heap It)) <$> l).
Proof.
  induction l as [|It l IH]; intros w; cbn [foldl fmap list_fmap].
  - by rewrite app_nil_r.
  - rewrite IH. cbn [emit Trace]. by rewrite <- app_assoc.
Qed.

(** X8. [FlushFreeList] empties the pool through deferred deletion only:
    the free list is empty afterwards, the count of outstanding heaps is
    unchanged, and the trace grows by exactly one deferred deletion per
    pooled heap, in free-list order (no heap is released on the spot and
    no statistic is decremented).  The next [AllocateHeap] therefore
    creates its heap, whatever type and count it asks for. *)
Theorem FlushFreeList_defers_every_pooled_heap c w :
  let c' := (FlushFreeList c w).1 in
  let w' := (FlushFreeList c w).2 in
  FreeList c' = [] ∧ NumAllocatedEntries c' = NumAllocatedEntries c ∧
  Trace w' = Trace w ++ ((λ It, DeferredDeleteHeap (Heap It)) <$> FreeList c) ∧
  ∀ host T n p,
    CreateDescriptorHeap host (HeapDesc host T (AlignedNumDescriptors T n)) = Some p →
    ∃ c2 w2,
      AllocateHeap host T n c' w'
      = Done (CreatedEntry p T (AlignedNumDescriptors T n), c2, w2) ∧
      FreeList c2 = [] ∧
      Trace w2 = Trace w' ++ CreatedHeapEvents host p T (AlignedNumDescriptors T n).
Proof.
  cbn zeta. unfold FlushFreeList. cbn [fst snd FreeList NumAllocatedEntries].
  split; [done|]. split; [done|]. split; [apply FlushFreeList_foldl_trace|].
  intros host T n p Hcreate.
  match goal with
  | |- context [AllocateHeap host T n ?c0 ?w0] =>
      destruct (AllocateHeap_miss host T n c0 w0 eq_refl)
        as (c1 & w1 & Hpurge & _ & Hok)
  end.
  destruct (Hok p Hcreate) as (w2 & Hrun & Htrace).
  rewrite ReleaseStaleEntries_noop in Hpurge by constructor.
  simplify_eq. eexists _, w2. split; [exact Hrun|]. split; [done|]. exact Htrace.
Qed.

Lemma FlushFreeList_defers_every_pooled_heap_witness :
  let c := {| FreeList :=
                [ExampleEntry 7001 D3D12_DESCRIPTOR_HEAP_TYPE_SAMPLER 2048 10 1;
                 ExampleEntry 7002 D3D12_DESCRIPTOR_HEAP_TYPE_CBV_SRV_UAV 4096 10 1];
              NumAllocatedEntries := 3 |} in
  let c' := (FlushFreeList c World_initial).1 in
  let w' := (FlushFreeList c World_initial).2 in
  Trace w' = [DeferredDeleteHeap 7001; DeferredDeleteHeap 7002] ∧
  ∃ c2 w2,
    AllocateHeap (ExampleHost 20 2) D3D12_DESCRIPTOR_HEAP_TYPE_SAMPLER 64 c' w'
    = Done (CreatedEntry 4160 D3D12_DESCRIPTOR_HEAP_TYPE_SAMPLER
              (AlignedNumDescriptors D3D12_DESCRIPTOR_HEAP_TYPE_SAMPLER 64), c2, w2) ∧
    FreeList c2 = [] ∧
    Trace w2 = Trace w' ++ CreatedHeapEvents (ExampleHost 20 2) 4160
                 D3D12_DESCRIPTOR_HEAP_TYPE_SAMPLER
                 (AlignedNumDescriptors D3D12_DESCRIPTOR_HEAP_TYPE_SAMPLER 64).
Proof.
  intros c c' w'.
  destruct (FlushFreeList_defers_every_pooled_heap c World_initial)
    as (_ & _ & Htrace & Hnext).
  split; [exact Htrace|].
  apply (Hnext (ExampleHost 20 2) D3D12_DESCRIPTOR_HEAP_TYPE_SAMPLER 64 4160).
  vm_compute. reflexivity.
Defined.

(** X9. [ReleaseStaleEntries] is idempotent: after a purge no entry of
    the free list is stale for the same frame, time and age limits, and a
    second purge at that instant changes neither the pool nor the world;
    a purge of a pool without stale entries changes nothing in the first
    place. *)
Theorem ReleaseStaleEntries_is_idempotent host MF MS c w c' w' :
  ReleaseStaleEntries host MF MS c w = (c', w') →
  Forall (λ It, IsStale (GetNextFenceToSignal host) (Seconds host) MF MS It
                = false) (FreeList c') ∧
  ReleaseStaleEntries host MF MS c' w' = (c', w') ∧
  (Forall (λ It, IsStale (GetNextFenceToSignal host) (Seconds host) MF MS It
                 = false) (FreeList c) →
   c' = c ∧ w' = w).
Proof.
  intros Hrun. pose proof (ReleaseStaleEntries_fresh _ _ _ _ _ _ _ Hrun) as Hfresh.
  split; [done|]. split.
  - rewrite ReleaseStaleEntries_noop by done. by destruct c'.
  - intros Hnone. rewrite ReleaseStaleEntries_noop in Hrun by done.
    destruct c. by simplify_eq.
Qed.

Lemma ReleaseStaleEntries_is_idempotent_witness :
  let host := ExampleHost 500 60 in
  let c := {| FreeList :=
                [ExampleEntry 7001 D3D12_DESCRIPTOR_HEAP_TYPE_CBV_SRV_UAV 1024 100 58;
                 ExampleEntry 7002 D3D12_DESCRIPTOR_HEAP_TYPE_CBV_SRV_UAV 2048 450 58;
                 ExampleEntry 7003 D3D12_DESCRIPTOR_HEAP_TYPE_SAMPLER 2048 450 50];
              NumAllocatedEntries := 1 |} in
  let r := ReleaseStaleEntries host 100 (DoubleOfZ 5) c World_initial in
  FreeList r.1 = [ExampleEntry 7002 D3D12_DESCRIPTOR_HEAP_TYPE_CBV_SRV_UAV 2048 450 58] ∧
  ReleaseStaleEntries host 100 (DoubleOfZ 5) r.1 r.2 = (r.1, r.2).
Proof.
  intros host c r. split; [vm_compute; reflexivity|].
  apply (ReleaseStaleEntries_is_idempotent host 100 (DoubleOfZ 5) c World_initial
           r.1 r.2).
  vm_compute. reflexivity.
Defined.

(** X10. A heap is not purged at the instant it is released, as long as
    the clock, a finite double, shows a time from 0 to below [2^54]
    seconds: after [ReleaseHeap] at some frame and time, an [AllocateHeap]
    at the same frame and time either hands out the released heap or
    leaves it in the free list, whether it reuses a heap or creates one
    (the frame fence being small enough for [LastUsedFrame + 100] not to
    wrap).  The bound on the clock matters: the age test adds 5 seconds in
    double arithmetic, and late enough that sum is the clock itself. *)
Theorem Released_heap_survives_same_instant host E T n c w c1 w1 e c2 w2 :
  ReleaseHeap host E c w = Done (c1, w1) →
  0 ≤ GetNextFenceToSignal host → GetNextFenceToSignal host + 100 < 2 ^ 64 →
  FiniteDouble (Seconds host) →
  (0 <= DoubleValue (Seconds host))%Q →
  (DoubleValue (Seconds host) < inject_Z (2 ^ 54))%Q →
  AllocateHeap host T n c1 w1 = Done (e, c2, w2) →
  e = Stamped host E ∨ Stamped host E ∈ FreeList c2.
Proof.
  intros Hrel H0 Hlt HT HT0 HT54 Halloc.
  apply ReleaseHeap_Done in Hrel as (_ & -> & ->).
  destruct (FindCompatible T (AlignedNumDescriptors T n) 0
              (FreeList c ++ [Stamped host E])) as [[i It]|] eqn:Hfind.
  - match type of Halloc with
    | AllocateHeap _ _ _ ?c0 _ = _ =>
        rewrite (AllocateHeap_hit host T n c0 w i It Hfind) in Halloc
    end.
    simplify_eq.
    apply FindCompatible_Some in Hfind as (_ & Hl & _).
    rewrite Nat.sub_0_r in Hl. cbn [FreeList].
    rewrite RemoveAtSwap_snoc. case_decide as Hi.
    + right. eapply list_elem_of_lookup_2. by apply list_lookup_insert_eq.
    + left. pose proof (lookup_lt_Some _ _ _ Hl) as Hb.
      rewrite length_app in Hb. cbn in Hb.
      rewrite lookup_app_r in Hl by lia.
      replace (i - length (FreeList c))%nat with 0%nat in Hl by lia.
      cbn in Hl. by simplify_eq.
  - right.
    match type of Halloc with
    | AllocateHeap _ _ _ ?c0 _ = _ =>
        destruct (AllocateHeap_miss host T n c0 w Hfind)
          as (c1 & w1 & Hpurge & Hfail & Hok)
    end.
    destruct (CreateDescriptorHeap host
                (HeapDesc host T (AlignedNumDescriptors T n))) as [p|] eqn:Hcreate.
    + destruct (Hok p eq_refl) as (w3 & Hrun & _).
      rewrite Hrun in Halloc. simplify_eq.
      apply ReleaseStaleEntries_spec in Hpurge as (Hperm & _).
      cbn zeta in Hperm. cbn [FreeList] in Hperm. rewrite Hperm.
      apply list_elem_of_filter. split.
      * cbn beta. rewrite IsStale_same_instant by done. cbn. tauto.
      * apply elem_of_app. right. by apply list_elem_of_singleton.
    + rewrite (Hfail eq_refl) in Halloc. done.
Qed.

Lemma Released_heap_survives_same_instant_witness :
  let host := ExampleHost 500 60 in
  let c := {| FreeList :=
                [ExampleEntry 7001 D3D12_DESCRIPTOR_HEAP_TYPE_CBV_SRV_UAV 1024 100 58];
              NumAllocatedEntries := 1 |} in
  let E := ExampleEntry 7002 D3D12_DESCRIPTOR_HEAP_TYPE_CBV_SRV_UAV 4096 0 0 in
  let r1 := ResultOf (ReleaseHeap host E c World_initial) (c, World_initial) in
  let r2 := ResultOf (AllocateHeap host D3D12_DESCRIPTOR_HEAP_TYPE_SAMPLER 64 r1.1 r1.2)
              (FEntry_default, c, World_initial) in
  r2.1.1 = Stamped host E ∨ Stamped host E ∈ FreeList r2.1.2.
Proof.
  intros host c E r1 r2.
  apply (Released_heap_survives_same_instant host E
           D3D12_DESCRIPTOR_HEAP_TYPE_SAMPLER 64 c World_initial
           r1.1 r1.2 r2.1.1 r2.1.2 r2.2).
  - vm_compute. reflexivity.
  - cbn. lia.
  - cbn. lia.
  - split; vm_compute; reflexivity.
  - vm_compute. discriminate.
  - vm_compute. reflexivity.
  - vm_compute. reflexivity.
Defined.

End HeapCacheLife.

(** ** A descriptor heap over its life *)

Section HeapLife.

Import FD3D12ExplicitDescriptorHeap.

(** X11. A destroyed heap goes back to the pool and is reused: the
    destructor of an initialised heap only schedules the deferred release
    of its pool entry (it neither releases nor deletes the native heap);
    when that release runs, [ReleaseHeap] returns, and the next [Init] for
    the same type and count succeeds without creating a heap or changing
    the world, gets a heap that covers the aligned count, and leaves the
    pool's count of outstanding heaps where it was.  The count before the
    first [Init] is below [2^32 - 1], so that the [uint32] increment does
    not wrap. *)
Theorem Destroyed_heap_is_reused_by_next_Init host n T h cache w h1 cache1 w1 :
  Init host n T h cache w = Done (h1, cache1, w1) →
  D3D12Heap h1 ≠ nullptr →
  0 ≤ FD3D12ExplicitDescriptorHeapCache.NumAllocatedEntries cache < 2 ^ 32 - 1 →
  let w2 := Destructor h1 w1 in
  Trace w2 = Trace w1 ++ [DeferredDeleteReleaseHeap (HeapCacheEntry h1)] ∧
  ∀ host2 host3 h',
    D3D12Heap h' = nullptr →
    (∀ p, GetCPUDescriptorHandleForHeapStart host3 p ≠ 0) →
    ∃ cache2 h2 cache3,
      FD3D12ExplicitDescriptorHeapCache.ReleaseHeap host2 (HeapCacheEntry h1)
        cache1 w2 = Done (cache2, w2) ∧
      Init host3 n T h' cache2 w2 = Done (h2, cache3, w2) ∧
      FD3D12ExplicitDescriptorHeapCache.AlignedNumDescriptors T n
        ≤ MaxNumDescriptors h2 ∧
      FD3D12ExplicitDescriptorHeapCache.NumAllocatedEntries cache3
      = FD3D12ExplicitDescriptorHeapCache.NumAllocatedEntries cache1.
Proof.
  intros Hinit Hheap Hcount. cbn zeta.
  unfold Destructor. rewrite decide_True by done.
  split; [done|].
  intros host2 host3 h' Hnull Hcpu.
  assert (∃ e,
            FD3D12ExplicitDescriptorHeapCache.AllocateHeap host T n cache w
            = Done (e, cache1, w1) ∧ HeapCacheEntry h1 = e) as (e & Halloc & ->).
  { unfold Init in Hinit. bind_inv Hinit. bind_inv E0. bind_inv Hinit.
    simplify_eq. eauto. }
  pose proof (AllocateHeap_entry _ _ _ _ _ _ _ _ Halloc) as [HT Hfit].
  pose proof (AllocateHeap_count _ _ _ _ _ _ _ _ Halloc) as Hc1.
  rewrite u32_small in Hc1 by lia.
  set (w2 := FD3D12ExplicitDescriptorHeapCache.DeferredReleaseHeap e w1).
  eexists. 
  rewrite ReleaseHeap_returns by lia.
  match goal with
  | |- ∃ h2 cache3, Done (?c2, _) = _ ∧ _ =>
      destruct (FindCompatible_Exists T
                  (FD3D12ExplicitDescriptorHeapCache.AlignedNumDescriptors T n)
                  (FD3D12ExplicitDescriptorHeapCache.FreeList c2))
        as (i & It & Hfind);
      [|pose proof (AllocateHeap_hit host3 T n c2 w2 i It Hfind) as Hhit]
  end.
  { cbn [FD3D12ExplicitDescriptorHeapCache.FreeList].
    apply Exists_app. right. constructor. by split. }
  destruct (Heap_Init_from_entry host3 n T h' _ _ _ _ _ Hnull Hhit (Hcpu _))
    as (h2 & Hinit2 & Hmax & _).
  exists h2. eexists. split; [done|]. split; [exact Hinit2|].
  apply FindCompatible_Some in Hfind as (_ & _ & [_ Hcompat] & _).
  split; [by rewrite Hmax|].
  cbn [FD3D12ExplicitDescriptorHeapCache.NumAllocatedEntries].
  rewrite Hc1. rewrite (u32_small (_ - 1)) by lia. rewrite u32_small; lia.
Qed.

Lemma Destroyed_heap_is_reused_by_next_Init_witness :
  let r := ExampleInitSamplerHeap in
  let w2 := Destructor r.1.1 r.2 in
  Trace w2 = Trace r.2 ++ [DeferredDeleteReleaseHeap (HeapCacheEntry r.1.1)] ∧
  ∃ cache2 h2 cache3,
    FD3D12ExplicitDescriptorHeapCache.ReleaseHeap (ExampleHost 7 1)
      (HeapCacheEntry r.1.1) r.1.2 w2 = Done (cache2, w2) ∧
    Init (ExampleHost 9000 900) 16 D3D12_DESCRIPTOR_HEAP_TYPE_SAMPLER
      Constructor cache2 w2 = Done (h2, cache3, w2) ∧
    FD3D12ExplicitDescriptorHeapCache.AlignedNumDescriptors
      D3D12_DESCRIPTOR_HEAP_TYPE_SAMPLER 16 ≤ MaxNumDescriptors h2 ∧
    FD3D12ExplicitDescriptorHeapCache.NumAllocatedEntries cache3
    = FD3D12ExplicitDescriptorHeapCache.NumAllocatedEntries r.1.2.
Proof.
  intros r w2.
  destruct (Destroyed_heap_is_reused_by_next_Init (ExampleHost 0 0) 16
              D3D12_DESCRIPTOR_HEAP_TYPE_SAMPLER Constructor ExampleHeapCache
              World_initial r.1.1 r.1.2 r.2) as [Htrace Hnext].
  - vm_compute. reflexivity.
  - by vm_compute.
  - cbn. lia.
  - split; [exact Htrace|].
    apply (Hnext (ExampleHost 7 1) (ExampleHost 9000 900) Constructor).
    + reflexivity.
    + intros p. cbn. lia.
Defined.

(** X12. [Init] binds the heap to one pool entry, once: when it returns,
    the heap was uninitialised before; the entry is the one [AllocateHeap]
    returned for the type and count; the heap has the entry's type, native
    heap and capacity, which covers the aligned count, and the handles
    and stride the driver reports for it, with a CPU base that is not
    null; the cursor is what it was before [Init]; and, the native heap
    being not null, any further [Init] of this heap stops at the
    check. *)
Theorem Init_binds_heap_to_pool_entry host n T h cache w h1 cache1 w1 :
  Init host n T h cache w = Done (h1, cache1, w1) →
  D3D12Heap h = nullptr ∧
  FD3D12ExplicitDescriptorHeapCache.AllocateHeap host T n cache w
  = Done (HeapCacheEntry h1, cache1, w1) ∧
  HeapType h1 = T ∧ Type_ (HeapCacheEntry h1) = T ∧
  D3D12Heap h1 = Heap (HeapCacheEntry h1) ∧
  MaxNumDescriptors h1 = NumDescriptors (HeapCacheEntry h1) ∧
  FD3D12ExplicitDescriptorHeapCache.AlignedNumDescriptors T n
    ≤ MaxNumDescriptors h1 ∧
  CPUBase h1 = GetCPUDescriptorHandleForHeapStart host (D3D12Heap h1) ∧
  CPUBase h1 ≠ 0 ∧
  GPUBase h1 = GetGPUDescriptorHandleForHeapStart host (D3D12Heap h1) ∧
  DescriptorSize h1 = GetDescriptorHandleIncrementSize host T ∧
  NumAllocatedDescriptors h1 = NumAllocatedDescriptors h ∧
  (D3D12Heap h1 ≠ nullptr →
   ∀ host' n' T' cache' w', Init host' n' T' h1 cache' w' = Halted CheckFailed).
Proof.
  intros Hinit. unfold Init in Hinit.
  unfold check in Hinit. case_bool_decide as Hnull; cbn [bindO] in Hinit; [|done].
  destruct (FD3D12ExplicitDescriptorHeapCache.AllocateHeap host T n cache w)
    as [[[e cache0] w0]|] eqn:Halloc; cbn [bindO] in Hinit; [|done].
  case_bool_decide as Hcpu; cbn [bindO] in Hinit; [|done].
  pose proof (AllocateHeap_entry _ _ _ _ _ _ _ _ Halloc) as [HT Hfit].
  simplify_eq.
  cbn [D3D12Heap HeapCacheEntry HeapType MaxNumDescriptors CPUBase GPUBase
       DescriptorSize NumAllocatedDescriptors].
  do 12 (split; [done|]).
  intros Hheap host' n' T' cache' w'. unfold Init, check. cbn [D3D12Heap].
  by rewrite bool_decide_eq_false_2.
Qed.

Lemma Init_binds_heap_to_pool_entry_witness :
  let r := ExampleInitSamplerHeap in
  MaxNumDescriptors r.1.1 = 16 ∧
  Init (ExampleHost 1 1) 16 D3D12_DESCRIPTOR_HEAP_TYPE_SAMPLER r.1.1 r.1.2 r.2
  = Halted CheckFailed.
Proof.
  intros r.
  destruct (Init_binds_heap_to_pool_entry (ExampleHost 0 0) 16
              D3D12_DESCRIPTOR_HEAP_TYPE_SAMPLER Constructor ExampleHeapCache
              World_initial r.1.1 r.1.2 r.2) as (_ & _ & _ & _ & _ & _ & _ & _ & _ & _ & _ & _ & Hagain).
  - vm_compute. reflexivity.
  - split; [vm_compute; reflexivity|]. apply Hagain. by vm_compute.
Defined.

(** X13. The slots of a heap have distinct addresses: while the byte
    offset of slot [j] fits in 32 bits and the addresses do not pass
    2^64, a lower slot ends before slot [j] starts, on the CPU side and
    on the GPU side; both sides use the same offset from their base, and
    slot 0 is the base. *)
Theorem Descriptor_slots_do_not_overlap h i j :
  0 < DescriptorSize h → 0 ≤ i < j → j * DescriptorSize h < 2 ^ 32 →
  0 ≤ CPUBase h → CPUBase h + j * DescriptorSize h < 2 ^ 64 →
  0 ≤ GPUBase h → GPUBase h + j * DescriptorSize h < 2 ^ 64 →
  GetDescriptorCPU h i + DescriptorSize h ≤ GetDescriptorCPU h j ∧
  GetDescriptorGPU h i + DescriptorSize h ≤ GetDescriptorGPU h j ∧
  GetDescriptorCPU h j - CPUBase h = GetDescriptorGPU h j - GPUBase h ∧
  GetDescriptorCPU h 0 = CPUBase h ∧ GetDescriptorGPU h 0 = GPUBase h.
Proof.
  intros Hsize Hij Hj Hc Hcj Hg Hgj.
  unfold GetDescriptorCPU, GetDescriptorGPU, u64.
  rewrite (u32_small (i * _)) by nia. rewrite (u32_small (j * _)) by nia.
  rewrite Z.mul_0_l, (u32_small 0) by lia. rewrite !Z.add_0_r.
  rewrite !Z.mod_small by nia. repeat split; nia.
Qed.

Lemma Descriptor_slots_do_not_overlap_witness :
  let h := ExampleSamplerHeap 16 in
  GetDescriptorCPU h 3 + DescriptorSize h ≤ GetDescriptorCPU h 4 ∧
  GetDescriptorGPU h 3 + DescriptorSize h ≤ GetDescriptorGPU h 4 ∧
  GetDescriptorCPU h 4 - CPUBase h = GetDescriptorGPU h 4 - GPUBase h ∧
  GetDescriptorCPU h 0 = CPUBase h ∧ GetDescriptorGPU h 0 = GPUBase h.
Proof.
  intros h.
  apply (Descriptor_slots_do_not_overlap h 3 4); cbn; lia.
Defined.

End HeapLife.

(** ** What one call of the descriptor cache changes *)

Section CacheCalls.

Import FD3D12ExplicitDescriptorCache.

Lemma DeviceCopyEvents_emit e w :
  DeviceCopyEvents (Trace (emit e w)) =
  DeviceCopyEvents (Trace w)
  ++ match e with DeviceCopyDescriptors Dest Src T => [(Dest, Src, T)] | _ => [] end.
Proof.
  unfold DeviceCopyEvents, emit. cbn [Trace]. rewrite omap_app.
  by destruct e.
Qed.

Lemma Heap_Allocate_copy_events n h w r h' w' :
  FD3D12ExplicitDescriptorHeap.Allocate n h w = Done (r, h', w') →
  DeviceCopyEvents (Trace w') = DeviceCopyEvents (Trace w).
Proof.
  unfold FD3D12ExplicitDescriptorHeap.Allocate, InterlockedAdd, InterlockedOr.
  intros H. repeat case_decide; simplify_eq; try done.
  rewrite DeviceCopyEvents_emit. cbn. by rewrite app_nil_r.
Qed.

Lemma HeapOf_set_HeapOf T h c : HeapOf T (set_HeapOf T h c) = h.
Proof. unfold HeapOf, set_HeapOf. by destruct (IsView T). Qed.

(** The device copies of one [Allocate]. *)
Lemma Cache_Allocate_copy_events Ds n T W c w r c' w' :
  Allocate Ds n T W c w = Done (r, c', w') →
  (r = INDEX_NONE →
   DeviceCopyEvents (Trace w') = DeviceCopyEvents (Trace w)) ∧
  (r ≠ INDEX_NONE →
   (Z.to_nat n ≤ length Ds)%nat ∧
   DeviceCopyEvents (Trace w')
   = DeviceCopyEvents (Trace w)
     ++ [(FD3D12ExplicitDescriptorHeap.GetDescriptorCPU (HeapOf T c) (u32 r),
          take (Z.to_nat n) Ds,
          FD3D12ExplicitDescriptorHeap.HeapType (HeapOf T c))]).
Proof.
  intros Hrun. unfold Allocate in Hrun.
  match type of Hrun with
  | bindO ?B _ = _ =>
      assert (∀ idx c1 w1, B = Done (idx, c1, w1) →
                DeviceCopyEvents (Trace w1) = DeviceCopyEvents (Trace w) ∧
                ∃ k, HeapOf T c1
                     = FD3D12ExplicitDescriptorHeap.set_NumAllocatedDescriptors k
                         (HeapOf T c))
        as Hfirst
  end.
  { intros idx c1 w1 HB.
    assert (∀ h, ∃ k, h = FD3D12ExplicitDescriptorHeap.set_NumAllocatedDescriptors k h)
      as Hsame.
    { intros h. exists (FD3D12ExplicitDescriptorHeap.NumAllocatedDescriptors h).
      by destruct h. }
    destruct (IsView T) eqn:HT.
    - bind_inv HB. case_decide.
      + bind_inv HB. simplify_eq.
        match goal with
        | E : FD3D12ExplicitDescriptorHeap.Allocate _ _ _ = _ |- _ =>
            pose proof (Heap_Allocate_copy_events _ _ _ _ _ _ E) as Hev;
            apply Allocate_heap in E
        end.
        split; [done|]. rewrite HeapOf_set_HeapOf. subst. eexists.
        unfold HeapOf. rewrite HT. cbn [ViewHeap set_WorkerData]. done.
      + simplify_eq. split; [done|].
        unfold HeapOf. rewrite HT. cbn [ViewHeap set_WorkerData]. apply Hsame.
    - bind_inv HB. simplify_eq.
      match goal with
      | E : FD3D12ExplicitDescriptorHeap.Allocate _ _ _ = _ |- _ =>
          pose proof (Heap_Allocate_copy_events _ _ _ _ _ _ E) as Hev;
          apply Allocate_heap in E
      end.
      split; [done|]. rewrite HeapOf_set_HeapOf. subst. eauto. }
  bind_inv Hrun. destruct (Hfirst _ _ _ eq_refl) as [Hev [k Hheap]].
  case_decide as Hidx.
  { simplify_eq. split; [done|]. intros Hne. by destruct Hne. }
  unfold FD3D12ExplicitDescriptorHeap.CopyDescriptors,
    EXPLICIT_DESCRIPTOR_CACHE_FULL_COMPARE, read_buffer in Hrun.
  case_decide as Hlen; cbn [bindO] in Hrun; [|done].
  simplify_eq. split; [intros ->; by destruct Hidx|]. intros _.
  split; [done|]. rewrite Hheap. rewrite <- Hev.
  destruct (IsView T).
  - rewrite !DeviceCopyEvents_emit. by rewrite app_nil_r.
  - rewrite !DeviceCopyEvents_emit. rewrite !app_nil_r.
    case_decide; cbn [Trace set_GMaxNumUsedSamplerDescriptors];
      by rewrite !DeviceCopyEvents_emit, app_nil_r.
Qed.

(** X14. [Allocate] copies descriptors exactly when it returns an offset:
    a call that returns [INDEX_NONE] issues no device copy; a call that
    returns an offset issues exactly one, of the first [NumDescriptors]
    handles of the caller's buffer, to the CPU address of the returned
    slot in the heap of the requested type.  In both cases every worker's
    descriptor-table maps are left as they were. *)
Theorem Cache_Allocate_copies_on_success_only Ds n T W c w r c' w' :
  Allocate Ds n T W c w = Done (r, c', w') →
  (∀ v j, MapAt v j c' = MapAt v j c) ∧
  (r = INDEX_NONE →
   DeviceCopyEvents (Trace w') = DeviceCopyEvents (Trace w)) ∧
  (r ≠ INDEX_NONE →
   (Z.to_nat n ≤ length Ds)%nat ∧
   DeviceCopyEvents (Trace w')
   = DeviceCopyEvents (Trace w)
     ++ [(FD3D12ExplicitDescriptorHeap.GetDescriptorCPU (HeapOf T c) (u32 r),
          take (Z.to_nat n) Ds,
          FD3D12ExplicitDescriptorHeap.HeapType (HeapOf T c))]).
Proof.
  intros Hrun. split; [by eapply Allocate_MapAt|].
  by eapply Cache_Allocate_copy_events.
Qed.

Lemma Cache_Allocate_copies_on_success_only_witness :
  let c := ExampleSession.1 in
  let w := ExampleSession.2 in
  let r := ResultOf (Allocate [4096; 8192; 12288] 2
                       D3D12_DESCRIPTOR_HEAP_TYPE_SAMPLER 1 c w) (0, c, w) in
  r.1.1 = 0 ∧
  DeviceCopyEvents (Trace r.2)
  = DeviceCopyEvents (Trace w)
    ++ [(FD3D12ExplicitDescriptorHeap.GetDescriptorCPU
           (HeapOf D3D12_DESCRIPTOR_HEAP_TYPE_SAMPLER c) (u32 r.1.1),
         [4096; 8192], D3D12_DESCRIPTOR_HEAP_TYPE_SAMPLER)].
Proof.
  intros c w r.
  destruct (Cache_Allocate_copies_on_success_only [4096; 8192; 12288] 2
              D3D12_DESCRIPTOR_HEAP_TYPE_SAMPLER 1 c w r.1.1 r.1.2 r.2)
    as (_ & _ & Hcopy).
  - vm_compute. reflexivity.
  - split; [vm_compute; reflexivity|].
    destruct Hcopy as [_ Hev]; [by vm_compute|]. exact Hev.
Defined.

(** X15. [AllocateDeduplicated] touches only the caller's map: a call
    that returns leaves the maps of every other worker, and the caller's
    map of the other heap type, as they were; in the caller's map of the
    requested type only the entry under the table's fingerprint can
    change, and afterwards that entry holds the value the call returned
    (also when that value is [INDEX_NONE]). *)
Theorem AllocateDeduplicated_touches_only_own_map
    HashBuffer Vs Ds n T W c w r c' w' :
  AllocateDeduplicated HashBuffer Vs Ds n T W c w = Done (r, c', w') →
  ∃ vs hs m m',
    read_buffer Vs n = Done vs ∧ read_buffer Ds n = Done hs ∧
    MapAt (IsView T) (Z.to_nat (s32 W)) c = Some m ∧
    MapAt (IsView T) (Z.to_nat (s32 W)) c' = Some m' ∧
    m' !! TableKey HashBuffer vs hs = Some r ∧
    (∀ K, K ≠ TableKey HashBuffer vs hs → m' !! K = m !! K) ∧
    (∀ v j, ¬ (v = IsView T ∧ j = Z.to_nat (s32 W)) →
            MapAt v j c' = MapAt v j c).
Proof.
  intros Hrun.
  destruct (AllocateDeduplicated_effect HashBuffer _ _ _ _ _ _ _ _ _ _ Hrun)
    as (d & vs & hs & Hd & HVs & HDs & Hcases).
  apply TArray_at_Done in Hd as [_ Hd].
  pose proof (MapAt_MapOf T _ _ _ Hd) as Hm.
  exists vs, hs, (MapOf T d). cbn zeta in Hcases.
  destruct Hcases as [(Hhit & _ & -> & ->)|[_ Hmaps]].
  - exists (MapOf T d). repeat split; done.
  - exists (<[TableKey HashBuffer vs hs := r]> (MapOf T d)).
    split; [done|]. split; [done|]. split; [done|].
    split; [rewrite Hmaps; by rewrite decide_True|].
    split; [by rewrite lookup_insert_eq|].
    split; [intros K HK; by rewrite lookup_insert_ne|].
    intros v j Hne. rewrite Hmaps. by rewrite decide_False.
Qed.

Lemma AllocateDeduplicated_touches_only_own_map_witness :
  let c := ExampleSession.1 in
  let w := ExampleSession.2 in
  let r := ResultOf ExampleFirstCall (0, c, w) in
  ∃ vs hs m m',
    read_buffer [1; 1] 2 = Done vs ∧ read_buffer [4096; 8192] 2 = Done hs ∧
    MapAt (IsView D3D12_DESCRIPTOR_HEAP_TYPE_SAMPLER) (Z.to_nat (s32 0)) c = Some m ∧
    MapAt (IsView D3D12_DESCRIPTOR_HEAP_TYPE_SAMPLER) (Z.to_nat (s32 0)) r.1.2
    = Some m' ∧
    m' !! TableKey ExampleHash vs hs = Some r.1.1 ∧
    (∀ K, K ≠ TableKey ExampleHash vs hs → m' !! K = m !! K) ∧
    (∀ v j, ¬ (v = IsView D3D12_DESCRIPTOR_HEAP_TYPE_SAMPLER ∧ j = Z.to_nat (s32 0)) →
            MapAt v j r.1.2 = MapAt v j c).
Proof.
  intros c w r.
  apply (AllocateDeduplicated_touches_only_own_map ExampleHash
           [1; 1] [4096; 8192] 2 D3D12_DESCRIPTOR_HEAP_TYPE_SAMPLER 0
           c w r.1.1 r.1.2 r.2).
  vm_compute. reflexivity.
Defined.

(** [AllocateDeduplicated] when the worker's map does not hold an offset
    for the table. *)
Lemma AllocateDeduplicated_miss_run HashBuffer Vs Ds n T W c w d vs hs :
  TArray_at (WorkerData c) (s32 W) = Done d →
  read_buffer Vs n = Done vs → read_buffer Ds n = Done hs →
  let K := TableKey HashBuffer vs hs in
  MapOf T d !! K = None ∨ MapOf T d !! K = Some INDEX_NONE →
  let c0 := update_MapOf T W (λ Map, fst (FindOrAdd Map K INDEX_NONE)) c in
  AllocateDeduplicated HashBuffer Vs Ds n T W c w =
  (FoundIndex ←!
     (if FD3D12ExplicitDescriptorHeap.bExhaustiveSamplerDeduplication (HeapOf T c)
         && bool_decide (T = D3D12_DESCRIPTOR_HEAP_TYPE_SAMPLER)
         && bool_decide (1 < Z.of_nat (length (WorkerData c0)))
      then ExhaustiveSearch Ds n (HeapOf T c)
      else Done INDEX_NONE);
   if decide (FoundIndex ≠ INDEX_NONE) then
     Done (FoundIndex, update_MapOf T W (insert K FoundIndex) c0, w)
   else
     '(r, c1, w1) ←! Allocate Ds n T W c0 w;
     Done (r, update_MapOf T W (insert K r) c1, w1)).
Proof.
  intros Hd HVs HDs K Hmiss c0.
  unfold AllocateDeduplicated, EXPLICIT_DESCRIPTOR_CACHE_FULL_COMPARE.
  rewrite Hd, HVs, HDs. cbn [bindO]. fold K.
  assert (snd (FindOrAdd (MapOf T d) K INDEX_NONE) = INDEX_NONE) as ->.
  { unfold FindOrAdd. by destruct Hmiss as [-> | ->]. }
  rewrite decide_False by (intros H; by apply H). cbn [bindO]. done.
Qed.

Lemma length_WorkerData_update_MapOf T W f c :
  length (WorkerData (update_MapOf T W f c)) = length (WorkerData c).
Proof. unfold update_MapOf. cbn [WorkerData set_WorkerData]. apply length_alter. Qed.

(** X16. How a sampler table is served: on a consistent sampler heap a
    returning [AllocateDeduplicated] for a sampler table did exactly one
    of three things.  (1) It found an offset in the caller's map and
    changed nothing.  (2) The caller's map holding no offset, and there
    being more than one worker, it found a match by the exhaustive search
    and changed neither the heap nor the world.  (3) The caller's map
    holding no offset and the search, if there is more than one worker,
    finding nothing, it allocated: the offset is the cursor before the
    call, the cursor advances by the count (in 32-bit arithmetic), and
    there is exactly one new device copy, of the table, to the slot of
    that offset.  No two of the three hold of the same call. *)
Theorem AllocateDeduplicated_sampler_cases HashBuffer Vs Ds n W c w r c' w' :
  SamplerHeapInv (SamplerHeap c) → 0 ≤ n < 2 ^ 32 →
  AllocateDeduplicated HashBuffer Vs Ds n D3D12_DESCRIPTOR_HEAP_TYPE_SAMPLER
    W c w = Done (r, c', w') →
  ∃ vs hs,
    read_buffer Vs n = Done vs ∧ read_buffer Ds n = Done hs ∧
    let K := TableKey HashBuffer vs hs in
    let cur := FD3D12ExplicitDescriptorHeap.NumAllocatedDescriptors (SamplerHeap c) in
    let NotInMap :=
      ∀ r0, Cached D3D12_DESCRIPTOR_HEAP_TYPE_SAMPLER W K r0 c → r0 = INDEX_NONE in
    let FromMap :=
      Cached D3D12_DESCRIPTOR_HEAP_TYPE_SAMPLER W K r c ∧ r ≠ INDEX_NONE ∧
      c' = c ∧ w' = w in
    let FromSearch :=
      NotInMap ∧
      1 < Z.of_nat (length (WorkerData c)) ∧
      ExhaustiveSearch Ds n (SamplerHeap c) = Done r ∧ r ≠ INDEX_NONE ∧
      SamplerHeap c' = SamplerHeap c ∧ w' = w in
    let Allocated :=
      NotInMap ∧
      (1 < Z.of_nat (length (WorkerData c)) →
       ExhaustiveSearch Ds n (SamplerHeap c) = Done INDEX_NONE) ∧
      r = cur ∧
      FD3D12ExplicitDescriptorHeap.NumAllocatedDescriptors (SamplerHeap c')
      = s32 (cur + s32 n) ∧
      DeviceCopyEvents (Trace w')
      = DeviceCopyEvents (Trace w)
        ++ [(FD3D12ExplicitDescriptorHeap.GetDescriptorCPU (SamplerHeap c) (u32 cur),
             hs, D3D12_DESCRIPTOR_HEAP_TYPE_SAMPLER)] in
    (FromMap ∨ FromSearch ∨ Allocated) ∧
    ¬ (FromMap ∧ FromSearch) ∧ ¬ (FromMap ∧ Allocated) ∧
    ¬ (FromSearch ∧ Allocated).
Proof.
  intros Hinv Hn Hrun.
  destruct (AllocateDeduplicated_effect HashBuffer _ _ _ _ _ _ _ _ _ _ Hrun)
    as (d & vs & hs & Hd & HVs & HDs & Hcases).
  exists vs, hs. split; [done|]. split; [done|]. cbn zeta in *.
  split.
  2: { split; [|split].
       - intros [(Hc & Hr & _) (Hno & _)]. by apply Hr, Hno.
       - intros [(Hc & Hr & _) (Hno & _)]. by apply Hr, Hno.
       - intros [(_ & Hw & Hs & Hr & _) (_ & Hs' & _)].
         rewrite (Hs' Hw) in Hs. by simplify_eq. }
  pose proof Hd as [HW Hd']%TArray_at_Done.
  pose proof (MapAt_MapOf D3D12_DESCRIPTOR_HEAP_TYPE_SAMPLER _ _ _ Hd') as Hmap.
  destruct Hcases as [(Hhit & Hr & -> & ->)|[Hmiss _]].
  { left. split; [|done]. split; [done|]. eauto. }
  right.
  assert (∀ r0, Cached D3D12_DESCRIPTOR_HEAP_TYPE_SAMPLER W
                  (TableKey HashBuffer vs hs) r0 c → r0 = INDEX_NONE) as Hno.
  { intros r0 (_ & m & Hm & Hr0). rewrite Hmap in Hm. simplify_eq.
    destruct Hmiss as [Hnone|Hsome]; [by rewrite Hnone in Hr0|].
    rewrite Hsome in Hr0. by simplify_eq. }
  rewrite (AllocateDeduplicated_miss_run _ _ _ _ _ _ _ _ _ _ _ Hd HVs HDs Hmiss)
    in Hrun.
  cbn zeta in Hrun. rewrite length_WorkerData_update_MapOf in Hrun.
  unfold HeapOf in Hrun. rewrite IsView_sampler in Hrun.
  pose proof Hinv as (Hty & Hex & Hc & Hmax & Hw & Hlen).
  rewrite Hex in Hrun. rewrite bool_decide_eq_true_2 in Hrun by done.
  cbn [andb] in Hrun.
  assert (∀ c0 f r1 c1 w1,
            SamplerHeap c0 = SamplerHeap c →
            Allocate Ds n D3D12_DESCRIPTOR_HEAP_TYPE_SAMPLER W c0 w
            = Done (r1, c1, w1) →
            r1 = FD3D12ExplicitDescriptorHeap.NumAllocatedDescriptors (SamplerHeap c) ∧
            FD3D12ExplicitDescriptorHeap.NumAllocatedDescriptors
              (SamplerHeap (update_MapOf D3D12_DESCRIPTOR_HEAP_TYPE_SAMPLER W f c1))
            = s32 (FD3D12ExplicitDescriptorHeap.NumAllocatedDescriptors (SamplerHeap c)
                   + s32 n) ∧
            DeviceCopyEvents (Trace w1)
            = DeviceCopyEvents (Trace w)
              ++ [(FD3D12ExplicitDescriptorHeap.GetDescriptorCPU (SamplerHeap c)
                     (u32 (FD3D12ExplicitDescriptorHeap.NumAllocatedDescriptors
                             (SamplerHeap c))),
                   hs, D3D12_DESCRIPTOR_HEAP_TYPE_SAMPLER)]) as Halloc.
  { intros c0 f r1 c1 w1 Hc0 Hal.
    destruct (Cache_Allocate_sampler Ds n W c0 w r1 c1 w1) as (_ & Hr1 & Hcur & _);
      [by rewrite Hc0|done|done|].
    rewrite Hc0 in Hr1. rewrite SamplerHeap_update_MapOf.
    split; [done|]. split; [by rewrite Hcur, Hr1|].
    destruct (Cache_Allocate_copy_events _ _ _ _ _ _ _ _ _ Hal) as [_ Hcopy].
    destruct Hcopy as [_ Hev]; [subst r1; unfold INDEX_NONE; lia|].
    rewrite Hev. unfold HeapOf. rewrite IsView_sampler, Hc0, Hty, Hr1.
    unfold read_buffer in HDs. case_decide; by simplify_eq. }
  case_bool_decide as Hworkers.
  - destruct (ExhaustiveSearch Ds n (SamplerHeap c)) as [r0|] eqn:Hsearch; [|done].
    cbn [bindO] in Hrun. case_decide as Hfound.
    + left. simplify_eq. split; [done|]. by rewrite SamplerHeap_update_MapOf.
    + right. split; [done|].
      assert (r0 = INDEX_NONE) as ->
        by (destruct (decide (r0 = INDEX_NONE)); [done|by destruct Hfound]).
      split; [done|].
      bind_inv Hrun. simplify_eq. eapply Halloc; [|eassumption]; done.
  - right. split; [done|]. split; [done|]. cbn [bindO] in Hrun.
    rewrite decide_False in Hrun by (intros H; by apply H).
    bind_inv Hrun. simplify_eq. eapply Halloc; [|eassumption]; done.
Qed.

Lemma AllocateDeduplicated_sampler_cases_witness :
  let c := ExampleSession.1 in
  let w := ExampleSession.2 in
  let r := ResultOf ExampleFirstCall (0, c, w) in
  ∃ vs hs,
    read_buffer [1; 1] 2 = Done vs ∧ read_buffer [4096; 8192] 2 = Done hs ∧
    let K := TableKey ExampleHash vs hs in
    let cur := FD3D12ExplicitDescriptorHeap.NumAllocatedDescriptors (SamplerHeap c) in
    let NotInMap :=
      ∀ r0, Cached D3D12_DESCRIPTOR_HEAP_TYPE_SAMPLER 0 K r0 c → r0 = INDEX_NONE in
    let FromMap :=
      Cached D3D12_DESCRIPTOR_HEAP_TYPE_SAMPLER 0 K r.1.1 c ∧ r.1.1 ≠ INDEX_NONE ∧
      r.1.2 = c ∧ r.2 = w in
    let FromSearch :=
      NotInMap ∧
      1 < Z.of_nat (length (WorkerData c)) ∧
      ExhaustiveSearch [4096; 8192] 2 (SamplerHeap c) = Done r.1.1 ∧
      r.1.1 ≠ INDEX_NONE ∧ SamplerHeap r.1.2 = SamplerHeap c ∧ r.2 = w in
    let Allocated :=
      NotInMap ∧
      (1 < Z.of_nat (length (WorkerData c)) →
       ExhaustiveSearch [4096; 8192] 2 (SamplerHeap c) = Done INDEX_NONE) ∧
      r.1.1 = cur ∧
      FD3D12ExplicitDescriptorHeap.NumAllocatedDescriptors (SamplerHeap r.1.2)
      = s32 (cur + s32 2) ∧
      DeviceCopyEvents (Trace r.2)
      = DeviceCopyEvents (Trace w)
        ++ [(FD3D12ExplicitDescriptorHeap.GetDescriptorCPU (SamplerHeap c) (u32 cur),
             hs, D3D12_DESCRIPTOR_HEAP_TYPE_SAMPLER)] in
    (FromMap ∨ FromSearch ∨ Allocated) ∧
    ¬ (FromMap ∧ FromSearch) ∧ ¬ (FromMap ∧ Allocated) ∧
    ¬ (FromSearch ∧ Allocated).
Proof.
  intros c w r.
  apply (AllocateDeduplicated_sampler_cases ExampleHash
           [1; 1] [4096; 8192] 2 0 c w r.1.1 r.1.2 r.2).
  - unfold SamplerHeapInv.
    split; [by vm_compute|]. split; [by vm_compute|].
    split; [split; by vm_compute|]. split; [by vm_compute|].
    split; by vm_compute.
  - lia.
  - vm_compute. reflexivity.
Defined.

(** X17. View tables are deduplicated per worker only: a returning
    [AllocateDeduplicated] for a view table either found an offset in the
    caller's own map and changed nothing, or, the caller's map holding no
    offset for the table, went to [Allocate] without any search, whatever
    the maps of the other workers hold: a returned offset then comes with
    exactly one new device copy of the table to that slot of the view
    heap, and [INDEX_NONE] with none. *)
Theorem AllocateDeduplicated_view_cases HashBuffer Vs Ds n W c w r c' w' :
  AllocateDeduplicated HashBuffer Vs Ds n D3D12_DESCRIPTOR_HEAP_TYPE_CBV_SRV_UAV
    W c w = Done (r, c', w') →
  ∃ vs hs,
    read_buffer Vs n = Done vs ∧ read_buffer Ds n = Done hs ∧
    let K := TableKey HashBuffer vs hs in
    (Cached D3D12_DESCRIPTOR_HEAP_TYPE_CBV_SRV_UAV W K r c ∧ r ≠ INDEX_NONE ∧
     c' = c ∧ w' = w)
    ∨ ((∀ r0, Cached D3D12_DESCRIPTOR_HEAP_TYPE_CBV_SRV_UAV W K r0 c →
              r0 = INDEX_NONE) ∧
       (r = INDEX_NONE →
        DeviceCopyEvents (Trace w') = DeviceCopyEvents (Trace w)) ∧
       (r ≠ INDEX_NONE →
        DeviceCopyEvents (Trace w')
        = DeviceCopyEvents (Trace w)
          ++ [(FD3D12ExplicitDescriptorHeap.GetDescriptorCPU (ViewHeap c) (u32 r),
               hs, FD3D12ExplicitDescriptorHeap.HeapType (ViewHeap c))])).
Proof.
  intros Hrun.
  destruct (AllocateDeduplicated_effect HashBuffer _ _ _ _ _ _ _ _ _ _ Hrun)
    as (d & vs & hs & Hd & HVs & HDs & Hcases).
  exists vs, hs. split; [done|]. split; [done|]. cbn zeta in *.
  pose proof Hd as [HW Hd']%TArray_at_Done.
  pose proof (MapAt_MapOf D3D12_DESCRIPTOR_HEAP_TYPE_CBV_SRV_UAV _ _ _ Hd') as Hmap.
  destruct Hcases as [(Hhit & Hr & -> & ->)|[Hmiss _]].
  { left. split; [|done]. split; [done|]. eauto. }
  right. split.
  { intros r0 (_ & m & Hm & Hr0). rewrite Hmap in Hm. simplify_eq.
    destruct Hmiss as [Hnone|Hsome]; [by rewrite Hnone in Hr0|].
    rewrite Hsome in Hr0. by simplify_eq. }
  rewrite (AllocateDeduplicated_miss_run _ _ _ _ _ _ _ _ _ _ _ Hd HVs HDs Hmiss)
    in Hrun.
  cbn zeta in Hrun.
  rewrite (bool_decide_eq_false_2 (_ = D3D12_DESCRIPTOR_HEAP_TYPE_SAMPLER)) in Hrun
    by done.
  rewrite andb_false_r in Hrun. cbn [andb bindO] in Hrun.
  rewrite decide_False in Hrun by (intros H; by apply H).
  bind_inv Hrun. simplify_eq.
  match goal with
  | E : Allocate _ _ _ _ _ _ = Done _ |- _ =>
      destruct (Cache_Allocate_copy_events _ _ _ _ _ _ _ _ _ E) as [Hnone Hsome]
  end.
  split; [done|]. intros Hr. destruct (Hsome Hr) as [Hlen Hev].
  rewrite Hev. unfold read_buffer in HDs. case_decide; [|done]. by simplify_eq.
Qed.

Lemma AllocateDeduplicated_view_cases_witness :
  let c := ExampleSession.1 in
  let w := ExampleSession.2 in
  let r0 := ResultOf (AllocateDeduplicated ExampleHash [1; 1] [4096; 8192] 2
                        D3D12_DESCRIPTOR_HEAP_TYPE_CBV_SRV_UAV 0 c w) (0, c, w) in
  let r1 := ResultOf (AllocateDeduplicated ExampleHash [1; 1] [4096; 8192] 2
                        D3D12_DESCRIPTOR_HEAP_TYPE_CBV_SRV_UAV 1 r0.1.2 r0.2)
              (0, c, w) in
  r0.1.1 = 0 ∧ r1.1.1 = 2 ∧
  ∃ vs hs,
    read_buffer [1; 1] 2 = Done vs ∧ read_buffer [4096; 8192] 2 = Done hs ∧
    let K := TableKey ExampleHash vs hs in
    (Cached D3D12_DESCRIPTOR_HEAP_TYPE_CBV_SRV_UAV 1 K r1.1.1 r0.1.2 ∧
     r1.1.1 ≠ INDEX_NONE ∧ r1.1.2 = r0.1.2 ∧ r1.2 = r0.2)
    ∨ ((∀ r, Cached D3D12_DESCRIPTOR_HEAP_TYPE_CBV_SRV_UAV 1 K r r0.1.2 →
             r = INDEX_NONE) ∧
       (r1.1.1 = INDEX_NONE →
        DeviceCopyEvents (Trace r1.2) = DeviceCopyEvents (Trace r0.2)) ∧
       (r1.1.1 ≠ INDEX_NONE →
        DeviceCopyEvents (Trace r1.2)
        = DeviceCopyEvents (Trace r0.2)
          ++ [(FD3D12ExplicitDescriptorHeap.GetDescriptorCPU (ViewHeap r0.1.2)
                 (u32 r1.1.1),
               hs, FD3D12ExplicitDescriptorHeap.HeapType (ViewHeap r0.1.2))])).
Proof.
  intros c w r0 r1.
  split; [vm_compute; reflexivity|]. split; [vm_compute; reflexivity|].
  apply (AllocateDeduplicated_view_cases ExampleHash [1; 1] [4096; 8192] 2 1
           r0.1.2 r0.2 r1.1.1 r1.1.2 r1.2).
  vm_compute. reflexivity.
Defined.

(** *** The high-water mark of the sampler heap *)

Lemma Heap_Allocate_GMax n h w r h' w' :
  FD3D12ExplicitDescriptorHeap.Allocate n h w = Done (r, h', w') →
  GMaxNumUsedSamplerDescriptors w' = GMaxNumUsedSamplerDescriptors w.
Proof.
  unfold FD3D12ExplicitDescriptorHeap.Allocate, InterlockedAdd, InterlockedOr.
  intros H. repeat case_decide; by simplify_eq.
Qed.

Lemma Cache_Allocate_view_GMax Ds n W c w r c' w' :
  Allocate Ds n D3D12_DESCRIPTOR_HEAP_TYPE_CBV_SRV_UAV W c w = Done (r, c', w') →
  GMaxNumUsedSamplerDescriptors w' = GMaxNumUsedSamplerDescriptors w.
Proof.
  intros Hrun. unfold Allocate in Hrun. rewrite IsView_view in Hrun.
  match type of Hrun with
  | bindO ?B _ = _ =>
      assert (∀ idx c1 w1, B = Done (idx, c1, w1) →
                GMaxNumUsedSamplerDescriptors w1 = GMaxNumUsedSamplerDescriptors w)
        as Hfirst
  end.
  { intros idx c1 w1 HB. bind_inv HB. case_decide.
    - bind_inv HB. simplify_eq. by eapply Heap_Allocate_GMax.
    - by simplify_eq. }
  bind_inv Hrun. rewrite <- (Hfirst _ _ _ eq_refl).
  case_decide; [by simplify_eq|].
  unfold FD3D12ExplicitDescriptorHeap.CopyDescriptors,
    EXPLICIT_DESCRIPTOR_CACHE_FULL_COMPARE in Hrun.
  bind_inv Hrun. bind_inv E0. by simplify_eq.
Qed.

Lemma Cache_Allocate_sampler_GMax Ds n W c w r c' w' :
  SamplerHeapInv (SamplerHeap c) → 0 ≤ n < 2 ^ 32 →
  Allocate Ds n D3D12_DESCRIPTOR_HEAP_TYPE_SAMPLER W c w = Done (r, c', w') →
  GMaxNumUsedSamplerDescriptors w'
  = Z.max (GMaxNumUsedSamplerDescriptors w)
      (FD3D12ExplicitDescriptorHeap.NumAllocatedDescriptors (SamplerHeap c')).
Proof.
  intros Hinv Hn Hrun.
  destruct (Cache_Allocate_sampler _ _ _ _ _ _ _ _ Hinv Hn Hrun)
    as ((_ & _ & Hc' & Hmax' & _) & _).
  revert Hc' Hmax'.
  unfold Allocate, HeapOf in Hrun. rewrite IsView_sampler in Hrun.
  destruct (Heap_Allocate_sampler n (SamplerHeap c) w Hinv Hn)
    as [[Hhalt _]|(Hdone & _)]; rewrite ?Hhalt, ?Hdone in Hrun; [done|].
  cbn [bindO] in Hrun.
  pose proof Hinv as (Hty & Hex & Hc & Hmax & Hw & Hlen).
  rewrite decide_False in Hrun by (unfold INDEX_NONE; lia).
  unfold FD3D12ExplicitDescriptorHeap.CopyDescriptors,
    EXPLICIT_DESCRIPTOR_CACHE_FULL_COMPARE, set_HeapOf in Hrun.
  rewrite IsView_sampler in Hrun. cbn [SamplerHeap ViewHeap] in Hrun.
  bind_inv Hrun. bind_inv E. simplify_eq.
  cbn [FD3D12ExplicitDescriptorHeap.bExhaustiveSamplerDeduplication
       FD3D12ExplicitDescriptorHeap.set_NumAllocatedDescriptors SamplerHeap].
  rewrite Hex. cbn [andb].
  cbn [FD3D12ExplicitDescriptorHeap.NumAllocatedDescriptors
       FD3D12ExplicitDescriptorHeap.set_NumWrittenSamplerDescriptors
       FD3D12ExplicitDescriptorHeap.set_NumAllocatedDescriptors].
  intros Hc' Hmax'.
  set (k := s32 (FD3D12ExplicitDescriptorHeap.NumAllocatedDescriptors (SamplerHeap c)
                + s32 n)) in *.
  unfold u64. rewrite (Z.mod_small k) by lia.
  case_decide as Hlt;
    cbn [GMaxNumUsedSamplerDescriptors emit set_GMaxNumUsedSamplerDescriptors] in *;
    lia.
Qed.

(** X18. The sampler statistic is a high-water mark: across any calls of
    [Allocate] and [AllocateDeduplicated] with [uint32] counts and one of
    the two heap types, on a consistent sampler heap whose cursor the
    mark already covers, the mark [GMaxNumUsedSamplerDescriptors] never
    decreases and, whenever the calls return, is at least the sampler
    heap's cursor. *)
Theorem Sampler_high_water_mark HashBuffer ks : ∀ c w rs c' w',
  SamplerHeapInv (SamplerHeap c) →
  Forall CallArgsTyped ks →
  FD3D12ExplicitDescriptorHeap.NumAllocatedDescriptors (SamplerHeap c)
    ≤ GMaxNumUsedSamplerDescriptors w →
  RunCalls HashBuffer ks c w = Done (rs, c', w') →
  GMaxNumUsedSamplerDescriptors w ≤ GMaxNumUsedSamplerDescriptors w' ∧
  FD3D12ExplicitDescriptorHeap.NumAllocatedDescriptors (SamplerHeap c')
    ≤ GMaxNumUsedSamplerDescriptors w'.
Proof.
  assert (∀ Ds n T W c w r c' w',
            SamplerHeapInv (SamplerHeap c) →
            CallArgsTyped (CallAllocate Ds n T W) →
            FD3D12ExplicitDescriptorHeap.NumAllocatedDescriptors (SamplerHeap c)
              ≤ GMaxNumUsedSamplerDescriptors w →
            Allocate Ds n T W c w = Done (r, c', w') →
            GMaxNumUsedSamplerDescriptors w ≤ GMaxNumUsedSamplerDescriptors w' ∧
            FD3D12ExplicitDescriptorHeap.NumAllocatedDescriptors (SamplerHeap c')
              ≤ GMaxNumUsedSamplerDescriptors w') as Hallocate.
  { intros Ds n T W c w r c' w' Hinv [Hn [->| ->]] Hmark Hrun.
    - rewrite (Cache_Allocate_view_GMax _ _ _ _ _ _ _ _ Hrun).
      rewrite (Cache_Allocate_view_SamplerHeap _ _ _ _ _ _ _ _ Hrun). lia.
    - rewrite (Cache_Allocate_sampler_GMax _ _ _ _ _ _ _ _ Hinv Hn Hrun). lia. }
  assert (∀ k c w r c' w',
            SamplerHeapInv (SamplerHeap c) → CallArgsTyped k →
            FD3D12ExplicitDescriptorHeap.NumAllocatedDescriptors (SamplerHeap c)
              ≤ GMaxNumUsedSamplerDescriptors w →
            RunCall HashBuffer k c w = Done (r, c', w') →
            GMaxNumUsedSamplerDescriptors w ≤ GMaxNumUsedSamplerDescriptors w' ∧
            FD3D12ExplicitDescriptorHeap.NumAllocatedDescriptors (SamplerHeap c')
              ≤ GMaxNumUsedSamplerDescriptors w') as Hcall.
  { intros [Vs Ds n T W|Ds n T W] c w r c' w' Hinv Hty Hmark Hrun;
      cbn [RunCall] in Hrun; [|by eapply Hallocate].
    unfold AllocateDeduplicated, EXPLICIT_DESCRIPTOR_CACHE_FULL_COMPARE in Hrun.
    bind_inv Hrun.
    match type of Hrun with (if ?b then _ else _) = _ => destruct b end;
      [simplify_eq; rewrite SamplerHeap_update_MapOf; lia|].
    bind_inv Hrun. case_decide;
      [simplify_eq; rewrite !SamplerHeap_update_MapOf; lia|].
    bind_inv Hrun. simplify_eq. rewrite SamplerHeap_update_MapOf.
    match goal with
    | E : Allocate _ _ _ _ _ _ = Done _ |- _ =>
        refine (Hallocate _ _ _ _ _ _ _ _ _ _ Hty _ E)
    end.
    - by rewrite SamplerHeap_update_MapOf.
    - by rewrite SamplerHeap_update_MapOf. }
  induction ks as [|k ks IH]; intros c w rs c' w' Hinv Hty Hmark Hrun.
  - cbn in Hrun. simplify_eq. lia.
  - inversion Hty as [|?? Hk Hks]; subst.
    cbn [RunCalls] in Hrun. bind_inv Hrun. simplify_eq.
    match goal with
    | E : RunCall _ _ _ _ = Done (_, ?c1, ?w1) |- _ =>
        destruct (Hcall _ _ _ _ _ _ Hinv Hk Hmark E) as [Hle Hmark1];
        assert (SamplerHeapInv (SamplerHeap c1)) as Hinv1
    end.
    { destruct k; cbn [RunCall] in *.
      - by eapply AllocateDeduplicated_SamplerHeapInv.
      - by eapply Cache_Allocate_SamplerHeapInv. }
    match goal with
    | E : RunCalls _ _ _ _ = Done _ |- _ =>
        destruct (IH _ _ _ _ _ Hinv1 Hks Hmark1 E) as [Hle' Hmark']
    end.
    split; [lia|done].
Qed.

Lemma Sampler_high_water_mark_witness :
  let first := ResultOf ExampleFirstCall (0, ExampleSession.1, ExampleSession.2) in
  let later := ResultOf ExampleLater ([], ExampleSession.1, ExampleSession.2) in
  GMaxNumUsedSamplerDescriptors first.2 ≤ GMaxNumUsedSamplerDescriptors later.2 ∧
  FD3D12ExplicitDescriptorHeap.NumAllocatedDescriptors (SamplerHeap later.1.2)
    ≤ GMaxNumUsedSamplerDescriptors later.2.
Proof.
  intros first later.
  apply (Sampler_high_water_mark ExampleHash ExampleBetween
           first.1.2 first.2 later.1.1 later.1.2 later.2).
  - unfold SamplerHeapInv.
    split; [by vm_compute|]. split; [by vm_compute|].
    split; [split; by vm_compute|]. split; [by vm_compute|].
    split; by vm_compute.
  - unfold ExampleBetween. repeat constructor; try lia; by (left + right).
  - by vm_compute.
  - vm_compute. reflexivity.
Defined.

End CacheCalls.

(** ** The statistics of the pool *)

Section PoolStatistics.

Import FD3D12ExplicitDescriptorHeapCache.

Lemma Sum_perm (l l' : list Z) : l ≡ₚ l' → Sum l = Sum l'.
Proof. induction 1; simpl; lia. Qed.

Lemma Pooled_perm f view l l' : l ≡ₚ l' → Pooled f view l = Pooled f view l'.
Proof. intros H. unfold Pooled. apply Sum_perm. by rewrite H. Qed.

Lemma Pooled_cons f view It l :
  Pooled f view (It :: l)
  = (if decide (bool_decide (Type_ It = D3D12_DESCRIPTOR_HEAP_TYPE_CBV_SRV_UAV) = view)
     then f It else 0) + Pooled f view l.
Proof. done. Qed.

Lemma Pooled_RemoveAtSwap f view l i It :
  l !! i = Some It →
  Pooled f view (It :: RemoveAtSwap l i) = Pooled f view l.
Proof.
  intros Hl. apply Pooled_perm.
  rewrite (RemoveAtSwap_perm l i It Hl). symmetry. by apply delete_Permutation.
Qed.

Lemma StatChange_app s tr1 tr2 :
  StatChange s (tr1 ++ tr2) = StatChange s tr1 + StatChange s tr2.
Proof. unfold StatChange. by rewrite fmap_app, Sum_app. Qed.

Lemma StatChange_emit s e w :
  StatChange s (Trace (emit e w)) = StatChange s (Trace w) + StatDelta s e.
Proof. unfold emit. cbn [Trace]. rewrite StatChange_app. unfold StatChange. cbn. lia. Qed.

(** The two stat macros of a removed entry undo the entry's share. *)
Lemma DecStats_StatChange view It w :
  StatChange (HeapsStat view) (Trace (DecStats It w))
  = StatChange (HeapsStat view) (Trace w) - PooledHeaps view [It] ∧
  StatChange (DescriptorsStat view) (Trace (DecStats It w))
  = StatChange (DescriptorsStat view) (Trace w) - PooledDescriptors view [It].
Proof.
  unfold DecStats, PooledHeaps, PooledDescriptors, Pooled.
  destruct (decide (Type_ It = D3D12_DESCRIPTOR_HEAP_TYPE_CBV_SRV_UAV)) as [HT|HT].
  - rewrite !StatChange_emit. cbn [fmap list_fmap].
    rewrite (bool_decide_eq_true_2 _ HT). destruct view; cbn; split; repeat case_decide; try done; lia.
  - rewrite !StatChange_emit. cbn [fmap list_fmap].
    rewrite (bool_decide_eq_false_2 _ HT).
    destruct view; cbn; split; repeat case_decide; try done; lia.
Qed.

Lemma Pooled_singleton f view It l :
  Pooled f view (It :: l) = Pooled f view [It] + Pooled f view l.
Proof. unfold Pooled, Sum. cbn [fmap list_fmap foldr]. lia. Qed.

(** The purge loop changes each statistic by what leaves the free list. *)
Lemma ReleaseStaleEntries_loop_stats view CF CT MF MS k : ∀ idx l w l' w',
  ReleaseStaleEntries_loop k CF CT MF MS idx l w = (l', w') →
  StatChange (HeapsStat view) (Trace w') - StatChange (HeapsStat view) (Trace w)
  = PooledHeaps view l' - PooledHeaps view l ∧
  StatChange (DescriptorsStat view) (Trace w')
    - StatChange (DescriptorsStat view) (Trace w)
  = PooledDescriptors view l' - PooledDescriptors view l.
Proof.
  induction k as [|k IH]; intros idx l w l' w' Hrun; cbn in Hrun.
  - simplify_eq. lia.
  - destruct (l !! idx) as [It|] eqn:Hl; [|simplify_eq; lia].
    destruct (IsStale CF CT MF MS It).
    + apply IH in Hrun as [Hh Hd].
      rewrite !StatChange_emit in Hh, Hd. cbn [StatDelta] in Hh, Hd.
      destruct (DecStats_StatChange view It w) as [Hh0 Hd0].
      rewrite Hh0 in Hh. rewrite Hd0 in Hd.
      pose proof (Pooled_RemoveAtSwap (λ _, 1) view l idx It Hl) as Ph.
      pose proof (Pooled_RemoveAtSwap NumDescriptors view l idx It Hl) as Pd.
      rewrite Pooled_singleton in Ph, Pd.
      unfold PooledHeaps, PooledDescriptors in *. lia.
    + by apply IH in Hrun.
Qed.

(** X19. The pool statistics follow the live heaps through
    [AllocateHeap]: whether the call reuses an entry or purges stale
    entries and creates a heap, the net change it makes to the heap-count
    statistic of either side (view, or sampler and others) equals the
    change in the number of that side's heaps among the pooled entries
    and the entry handed out, and likewise for the descriptor-count
    statistic and the descriptors of those heaps. *)
Theorem AllocateHeap_statistics_follow_live_heaps host T n c w e c' w' view :
  AllocateHeap host T n c w = Done (e, c', w') →
  StatChange (HeapsStat view) (Trace w') - StatChange (HeapsStat view) (Trace w)
  = PooledHeaps view (e :: FreeList c') - PooledHeaps view (FreeList c) ∧
  StatChange (DescriptorsStat view) (Trace w')
    - StatChange (DescriptorsStat view) (Trace w)
  = PooledDescriptors view (e :: FreeList c') - PooledDescriptors view (FreeList c).
Proof.
  intros Hrun.
  destruct (FindCompatible T (AlignedNumDescriptors T n) 0 (FreeList c))
    as [[i It]|] eqn:Hfind.
  - rewrite (AllocateHeap_hit _ _ _ _ _ _ _ Hfind) in Hrun. simplify_eq.
    apply FindCompatible_Some in Hfind as (_ & Hl & _).
    rewrite Nat.sub_0_r in Hl. cbn [FreeList].
    unfold PooledHeaps, PooledDescriptors.
    rewrite !(Pooled_RemoveAtSwap _ _ _ _ _ Hl). lia.
  - destruct (AllocateHeap_miss host T n c w Hfind) as (c1 & w1 & Hpurge & Hfail & Hok).
    destruct (CreateDescriptorHeap host
                (HeapDesc host T (AlignedNumDescriptors T n))) as [p|] eqn:Hcreate.
    2: { rewrite (Hfail eq_refl) in Hrun. done. }
    destruct (Hok p eq_refl) as (w2 & Hrun2 & Htrace).
    rewrite Hrun2 in Hrun. simplify_eq.
    unfold ReleaseStaleEntries in Hpurge. cbn zeta in Hpurge.
    cbn [FreeList NumAllocatedEntries] in Hpurge.
    destruct (ReleaseStaleEntries_loop _ _ _ _ _ _ _ _) as [l1 w1'] eqn:Hloop.
    simplify_eq.
    destruct (ReleaseStaleEntries_loop_stats view _ _ _ _ _ _ _ _ _ _ Hloop)
      as [Hh Hd].
    rewrite Htrace, !StatChange_app. cbn [FreeList].
    unfold PooledHeaps, PooledDescriptors in *.
    rewrite (Pooled_singleton (λ _, 1) view (CreatedEntry _ _ _) l1).
    rewrite (Pooled_singleton NumDescriptors view (CreatedEntry _ _ _) l1).
    assert (StatChange (HeapsStat view)
              (CreatedHeapEvents host p T (AlignedNumDescriptors T n))
            = Pooled (λ _, 1) view [CreatedEntry p T (AlignedNumDescriptors T n)] ∧
            StatChange (DescriptorsStat view)
              (CreatedHeapEvents host p T (AlignedNumDescriptors T n))
            = Pooled NumDescriptors view
                [CreatedEntry p T (AlignedNumDescriptors T n)]) as [Hch Hcd].
    { unfold CreatedHeapEvents, Pooled, StatChange, CreatedEntry.
      cbn [fmap list_fmap Type_ NumDescriptors].
      destruct (decide (T = D3D12_DESCRIPTOR_HEAP_TYPE_CBV_SRV_UAV)) as [HT|HT].
      - rewrite (bool_decide_eq_true_2 _ HT).
        destruct view; cbn; split; repeat case_decide; try done; lia.
      - rewrite (bool_decide_eq_false_2 _ HT).
        destruct view; cbn; split; repeat case_decide; try done; lia. }
    rewrite Hch, Hcd. lia.
Qed.

Lemma AllocateHeap_statistics_follow_live_heaps_witness :
  let host := ExampleHost 500 60 in
  let c := {| FreeList :=
                [ExampleEntry 7001 D3D12_DESCRIPTOR_HEAP_TYPE_CBV_SRV_UAV 1024 100 58;
                 ExampleEntry 7002 D3D12_DESCRIPTOR_HEAP_TYPE_CBV_SRV_UAV 2048 450 58];
              NumAllocatedEntries := 1 |} in
  let r := ResultOf (AllocateHeap host D3D12_DESCRIPTOR_HEAP_TYPE_SAMPLER 64 c
                       World_initial) (FEntry_default, c, World_initial) in
  StatChange (HeapsStat true) (Trace r.2)
    - StatChange (HeapsStat true) (Trace World_initial)
  = PooledHeaps true (r.1.1 :: FreeList r.1.2) - PooledHeaps true (FreeList c) ∧
  StatChange (DescriptorsStat true) (Trace r.2)
    - StatChange (DescriptorsStat true) (Trace World_initial)
  = PooledDescriptors true (r.1.1 :: FreeList r.1.2)
    - PooledDescriptors true (FreeList c).
Proof.
  intros host c r.
  apply (AllocateHeap_statistics_follow_live_heaps host
           D3D12_DESCRIPTOR_HEAP_TYPE_SAMPLER 64 c World_initial
           r.1.1 r.1.2 r.2 true).
  vm_compute. reflexivity.
Defined.

(** X20. The destructor settles the statistics: when it returns, the net
    change it makes to the heap-count and descriptor-count statistics of
    either side is minus the number of that side's pooled heaps and minus
    the descriptors of those heaps. *)
Theorem Destructor_settles_statistics c w c' w' view :
  Destructor c w = Done (c', w') →
  StatChange (HeapsStat view) (Trace w') - StatChange (HeapsStat view) (Trace w)
  = - PooledHeaps view (FreeList c) ∧
  StatChange (DescriptorsStat view) (Trace w')
    - StatChange (DescriptorsStat view) (Trace w)
  = - PooledDescriptors view (FreeList c).
Proof.
  unfold Destructor, check. intros Hrun.
  case_bool_decide; cbn [bindO] in Hrun; [|done]. simplify_eq.
  generalize (FreeList c). intros l. revert w.
  induction l as [|It l IH]; intros w; cbn [foldl].
  - unfold PooledHeaps, PooledDescriptors, Pooled. cbn. lia.
  - destruct (IH (emit (HeapRelease (Heap It)) (DecStats It w))) as [Hh Hd].
    rewrite !StatChange_emit in Hh, Hd. cbn [StatDelta] in Hh, Hd.
    destruct (DecStats_StatChange view It w) as [Hh0 Hd0].
    rewrite Hh0 in Hh. rewrite Hd0 in Hd.
    unfold PooledHeaps, PooledDescriptors in *.
    rewrite (Pooled_singleton (λ _, 1) view It l).
    rewrite (Pooled_singleton NumDescriptors view It l). lia.
Qed.

Lemma Destructor_settles_statistics_witness :
  let c := {| FreeList :=
                [ExampleEntry 7001 D3D12_DESCRIPTOR_HEAP_TYPE_SAMPLER 2048 10 1;
                 ExampleEntry 7002 D3D12_DESCRIPTOR_HEAP_TYPE_CBV_SRV_UAV 4096 10 1];
              NumAllocatedEntries := 0 |} in
  let r := ResultOf (Destructor c World_initial) (c, World_initial) in
  StatChange (HeapsStat false) (Trace r.2)
    - StatChange (HeapsStat false) (Trace World_initial)
  = - PooledHeaps false (FreeList c) ∧
  StatChange (DescriptorsStat false) (Trace r.2)
    - StatChange (DescriptorsStat false) (Trace World_initial)
  = - PooledDescriptors false (FreeList c).
Proof.
  intros c r.
  apply (Destructor_settles_statistics c World_initial r.1 r.2 false).
  vm_compute. reflexivity.
Defined.

End PoolStatistics.
